(** * ppt-generator-ai: the text-cleaning and content-distribution core

    A shallow embedding of [emotion.py] (class [EnhancedPPTGenerator]) and of
    the topic deduplication of [maincont.py] (function [note]), with the
    properties the specification states about them.

    Python strings are sequences of Unicode code points: a character is a
    code point in [N] and a string a list of them, so [len] is [length],
    slicing is [firstn]/[skipn] and concatenation is [++]. *)

From Stdlib Require Import Ascii String Decimal DecimalPos.
From Stdlib Require Import NArith ZArith QArith Qround Bool Arith Lia.
From Stdlib Require Import List ListSet Permutation.
Import ListNotations.
Close Scope Q_scope.

(** ** Strings *)

Definition char := N.
Bind Scope N_scope with char.
Definition str := list char.

Definition ch (a : ascii) : char := N_of_ascii a.
Arguments ch a%_char.

(** [L "abc"] is the Python literal ['abc'] (ASCII literals only). *)
Definition L (s : string) : str := map N_of_ascii (list_ascii_of_string s).
Arguments L s%_string.

Definition str_eq_dec : forall a b : str, {a = b} + {a <> b} :=
  list_eq_dec N.eq_dec.

Definition str_eqb (a b : str) : bool :=
  if str_eq_dec a b then true else false.

(** [bool(s)] for a string: true when it is not empty. *)
Definition truthy {A : Type} (l : list A) : bool :=
  match l with [] => false | _ => true end.

(** [c in s] for a one-character needle. *)
Definition contains (c : char) (s : str) : bool := existsb (N.eqb c) s.

Definition is_chr (c : char) : char -> bool := N.eqb c.
Definition one_of (cs : str) : char -> bool := fun c => existsb (N.eqb c) cs.
Definition none_of (cs : str) : char -> bool := fun c => negb (one_of cs c).
Definition between (lo hi : char) : char -> bool :=
  fun c => (lo <=? c)%N && (c <=? hi)%N.

(** [str.isspace] on one character, which is also the class [\s] of [re] on
    [str] patterns: the complete list of Unicode whitespace of CPython. *)
Definition isspace (c : char) : bool :=
  between 9 13 c || between 28 32 c || is_chr 133 c || is_chr 160 c
  || is_chr 5760 c || between 8192 8202 c || is_chr 8232 c || is_chr 8233 c
  || is_chr 8239 c || is_chr 8287 c || is_chr 12288 c.

Fixpoint lstrip_with (p : char -> bool) (s : str) : str :=
  match s with
  | [] => []
  | c :: t => if p c then lstrip_with p t else s
  end.

Definition rstrip_with (p : char -> bool) (s : str) : str :=
  rev (lstrip_with p (rev s)).

(** [s.strip()] *)
Definition strip (s : str) : str := rstrip_with isspace (lstrip_with isspace s).

(** [s.split()]: the maximal runs of non-whitespace characters. [cur] is
    the run being read, in reverse. *)
Fixpoint split_ws_from (cur : str) (s : str) : list str :=
  match s with
  | [] => match cur with [] => [] | _ => [rev cur] end
  | c :: t =>
      if isspace c
      then match cur with
           | [] => split_ws_from [] t
           | _ => rev cur :: split_ws_from [] t
           end
      else split_ws_from (c :: cur) t
  end.

Definition split_ws (s : str) : list str := split_ws_from [] s.

(** [sep.join(parts)] *)
Fixpoint join (sep : str) (parts : list str) : str :=
  match parts with
  | [] => []
  | [p] => p
  | p :: rest => p ++ sep ++ join sep rest
  end.

Fixpoint starts_with (pre s : str) : bool :=
  match pre, s with
  | [], _ => true
  | _ :: _, [] => false
  | a :: pre', b :: s' => (a =? b)%N && starts_with pre' s'
  end.

Definition ends_with (suf s : str) : bool := starts_with (rev suf) (rev s).

(** [needle in hay] for two strings: [needle] occurs in [hay]. *)
Fixpoint str_in (needle hay : str) : bool :=
  starts_with needle hay
  || match hay with
     | [] => false
     | _ :: t => str_in needle t
     end.

(** [s.replace(old, new)] for a non-empty [old]: occurrences are replaced
    from the left and do not overlap. [skip] counts the characters of the
    occurrence just replaced that are still to be passed over. *)
Fixpoint replace_from (old new : str) (skip : nat) (s : str) : str :=
  match s with
  | [] => []
  | c :: t =>
      match skip with
      | S n => replace_from old new n t
      | O => if starts_with old s
             then new ++ replace_from old new (length old - 1) t
             else c :: replace_from old new 0 t
      end
  end.

Definition str_replace (old new s : str) : str := replace_from old new 0 s.

(** [s[a:b]] for [0 <= a <= b]. *)
Definition slice {A : Type} (a b : nat) (l : list A) : list A :=
  firstn (b - a) (skipn a l).

(** Lookup in a table keyed by strings. *)
Fixpoint assoc_str {A : Type} (key : str) (table : list (str * A)) : option A :=
  match table with
  | [] => None
  | (k, v) :: rest => if str_eqb k key then Some v else assoc_str key rest
  end.

(** Lookup in a table keyed by numbers. *)
Fixpoint assoc_N {A : Type} (key : N) (table : list (N * A)) : option A :=
  match table with
  | [] => None
  | (k, v) :: rest => if (k =? key)%N then Some v else assoc_N key rest
  end.

(** Decimal digits of a number, as [str(n)] prints them. *)
Fixpoint digits_of_uint (d : Decimal.uint) : str :=
  match d with
  | Nil => []
  | D0 d => 48%N :: digits_of_uint d
  | D1 d => 49%N :: digits_of_uint d
  | D2 d => 50%N :: digits_of_uint d
  | D3 d => 51%N :: digits_of_uint d
  | D4 d => 52%N :: digits_of_uint d
  | D5 d => 53%N :: digits_of_uint d
  | D6 d => 54%N :: digits_of_uint d
  | D7 d => 55%N :: digits_of_uint d
  | D8 d => 56%N :: digits_of_uint d
  | D9 d => 57%N :: digits_of_uint d
  end.

Definition str_of_N (n : N) : str :=
  match n with
  | N0 => L "0"
  | Npos p => digits_of_uint (Pos.to_uint p)
  end.

Definition str_of_nat (n : nat) : str := str_of_N (N.of_nat n).

Definition str_of_Z (z : Z) : str :=
  match z with
  | Z0 => L "0"
  | Zpos p => digits_of_uint (Pos.to_uint p)
  | Zneg p => ch "-" :: digits_of_uint (Pos.to_uint p)
  end.

(** ** The fragment of Python's [re] the program uses

    Every repetition in the program's patterns ranges over a single
    character class, and every pattern has at most one capturing group;
    look-behind and look-ahead assertions test one character. Matching is
    Python's backtracking search: alternatives are tried left to right, a
    greedy repetition tries the longest run first and a lazy one the
    shortest. *)

Inductive regex : Type :=
| Eps
| Chr (c : char)
| Cls (p : char -> bool)
| Seq (r1 r2 : regex)
| Alt (r1 r2 : regex)
| Rep (greedy : bool) (lo : nat) (hi : option nat) (p : char -> bool)
| Grp (r : regex)
| Behind (want : bool) (p : char -> bool)
| Ahead (want : bool) (p : char -> bool).

(** A literal string. *)
Fixpoint lit (s : str) : regex :=
  match s with
  | [] => Eps
  | [c] => Chr c
  | c :: t => Seq (Chr c) (lit t)
  end.

Definition star (p : char -> bool) : regex := Rep true 0 None p.
Definition plus (p : char -> bool) : regex := Rep true 1 None p.
Definition lazy_star (p : char -> bool) : regex := Rep false 0 None p.
Definition lazy_plus (p : char -> bool) : regex := Rep false 1 None p.
Definition opt (p : char -> bool) : regex := Rep true 0 (Some 1) p.
Definition any : char -> bool := fun _ => true.

(** The state of a match: the character before the position (for
    look-behind), the text from the position on, and the text of group 1.
    A successful match yields the group and the text after the match. *)
Definition outcome : Type := option (option str * str).
Definition cont : Type := option char -> str -> option str -> outcome.

Definition or_else (a : outcome) (b : unit -> outcome) : outcome :=
  match a with Some x => Some x | None => b tt end.

Fixpoint rep_match (greedy : bool) (p : char -> bool) (lo : nat)
    (hi : option nat) (prev : option char) (s : str) (cap : option str)
    (k : cont) {struct s} : outcome :=
  let stop := fun _ : unit =>
    match lo with O => k prev s cap | S _ => None end in
  match s with
  | [] => stop tt
  | c :: t =>
      if match hi with Some O => false | _ => true end && p c
      then
        if greedy
        then or_else
               (rep_match greedy p (pred lo) (option_map pred hi)
                  (Some c) t cap k)
               stop
        else or_else (stop tt)
               (fun _ => rep_match greedy p (pred lo) (option_map pred hi)
                           (Some c) t cap k)
      else stop tt
  end.

Fixpoint rmatch (r : regex) (prev : option char) (s : str)
    (cap : option str) (k : cont) {struct r} : outcome :=
  match r with
  | Eps => k prev s cap
  | Chr c =>
      match s with
      | x :: t => if (x =? c)%N then k (Some x) t cap else None
      | [] => None
      end
  | Cls p =>
      match s with
      | x :: t => if p x then k (Some x) t cap else None
      | [] => None
      end
  | Seq r1 r2 =>
      rmatch r1 prev s cap (fun prev' s' cap' => rmatch r2 prev' s' cap' k)
  | Alt r1 r2 =>
      or_else (rmatch r1 prev s cap k) (fun _ => rmatch r2 prev s cap k)
  | Rep greedy lo hi p => rep_match greedy p lo hi prev s cap k
  | Grp r1 =>
      rmatch r1 prev s cap
        (fun prev' s' _ => k prev' s' (Some (firstn (length s - length s') s)))
  | Behind want p =>
      if Bool.eqb (match prev with Some c => p c | None => false end) want
      then k prev s cap else None
  | Ahead want p =>
      if Bool.eqb (match s with c :: _ => p c | [] => false end) want
      then k prev s cap else None
  end.

(** The first match of [r] that starts at the current position. *)
Definition match_at (r : regex) (prev : option char) (s : str) : outcome :=
  rmatch r prev s None (fun _ s' cap => Some (cap, s')).

(** [re.sub(r, repl, s)]: [repl] receives the text of group 1. Matches are
    searched from the left and do not overlap; [skip] counts the characters
    of the last match still to be passed over. *)
Fixpoint sub_from (r : regex) (repl : option str -> str) (skip : nat)
    (prev : option char) (s : str) : str :=
  match s with
  | [] =>
      match skip with
      | O => match match_at r prev [] with
             | Some (cap, _) => repl cap
             | None => []
             end
      | S _ => []
      end
  | c :: t =>
      match skip with
      | S n => sub_from r repl n (Some c) t
      | O =>
          match match_at r prev s with
          | Some (cap, rest) =>
              match length s - length rest with
              | O => repl cap ++ c :: sub_from r repl 0 (Some c) t
              | S n => repl cap ++ sub_from r repl n (Some c) t
              end
          | None => c :: sub_from r repl 0 (Some c) t
          end
      end
  end.

Definition re_sub (r : regex) (repl : option str -> str) (s : str) : str :=
  sub_from r repl 0 None s.

(** Replacement templates: a constant, and [\1] between two constants. *)
Definition const (v : str) : option str -> str := fun _ => v.
Definition group1 (before after : str) : option str -> str :=
  fun cap => before ++ match cap with Some g => g | None => [] end ++ after.

(** [re.split(r, s)]: the pieces between the matches, each followed by the
    text of group 1 when the pattern has one. [cur] is the piece being
    read, in reverse. *)
Definition group_list (cap : option str) : list str :=
  match cap with Some g => [g] | None => [] end.

Fixpoint split_from (r : regex) (skip : nat) (prev : option char)
    (cur : str) (s : str) : list str :=
  match s with
  | [] =>
      match skip with
      | O => match match_at r prev [] with
             | Some (cap, _) => rev cur :: group_list cap ++ [[]]
             | None => [rev cur]
             end
      | S _ => [rev cur]
      end
  | c :: t =>
      match skip with
      | S n => split_from r n (Some c) cur t
      | O =>
          match match_at r prev s with
          | Some (cap, rest) =>
              match length s - length rest with
              | O => rev cur :: group_list cap ++ split_from r 0 (Some c) [c] t
              | S n => rev cur :: group_list cap ++ split_from r n (Some c) [] t
              end
          | None => split_from r 0 (Some c) (c :: cur) t
          end
      end
  end.

Definition re_split (r : regex) (s : str) : list str :=
  split_from r 0 None [] s.

(** ** Values a caller may pass where a string is expected

    [None], a string, an integer or a boolean; values of other types are
    not modelled. *)

Inductive pyval : Type :=
| PyNone
| PyStr (s : str)
| PyInt (n : Z)
| PyBool (b : bool).

(** [str(v)], for an integer of any size (see [int_of] for the digit
    limit of recent interpreters). *)
Definition py_str (v : pyval) : str :=
  match v with
  | PyNone => L "None"
  | PyStr s => s
  | PyInt n => str_of_Z n
  | PyBool true => L "True"
  | PyBool false => L "False"
  end.

Definition backslash : char := 92.
Definition dquote : char := 34.

(** ** [emotion.py]: class [EnhancedPPTGenerator] *)

Section Emotion.

(** The table [html.entities.html5] of the Python library (2231 named
    character references, keyed without the leading ampersand). The
    program's behaviour is stated for every table. *)
Variable html5 : str -> option str.

Definition MAX_BULLETS_PER_SLIDE : nat := 5.
Definition DEFAULT_CONTENT_FONT_SIZE : nat := 16.
Definition COMPREHENSIVE_TEXT_THRESHOLD : nat := 120.
Definition MAX_TITLE_LENGTH : nat := 65.

(** *** [html.unescape], as [_clean_html_entities] calls it

    The function belongs to the Python library, not to the repository; it
    is transcribed from [html/__init__.py]: the pattern [_charref], the
    tables [_invalid_charrefs] and [_invalid_codepoints], and
    [_replace_charref]. *)

Definition invalid_charrefs (num : N) : option str :=
  assoc_N num
    [ (0x00, [0xfffd]); (0x0d, [0x0d]); (0x80, [0x20ac]); (0x81, [0x81]);
      (0x82, [0x201a]); (0x83, [0x0192]); (0x84, [0x201e]); (0x85, [0x2026]);
      (0x86, [0x2020]); (0x87, [0x2021]); (0x88, [0x02c6]); (0x89, [0x2030]);
      (0x8a, [0x0160]); (0x8b, [0x2039]); (0x8c, [0x0152]); (0x8d, [0x8d]);
      (0x8e, [0x017d]); (0x8f, [0x8f]); (0x90, [0x90]); (0x91, [0x2018]);
      (0x92, [0x2019]); (0x93, [0x201c]); (0x94, [0x201d]); (0x95, [0x2022]);
      (0x96, [0x2013]); (0x97, [0x2014]); (0x98, [0x02dc]); (0x99, [0x2122]);
      (0x9a, [0x0161]); (0x9b, [0x203a]); (0x9c, [0x0153]); (0x9d, [0x9d]);
      (0x9e, [0x017e]); (0x9f, [0x0178]) ]%N.

Definition invalid_codepoints (num : N) : bool :=
  between 0x1 0x8 num || between 0xe 0x1f num || between 0x7f 0x9f num
  || between 0xfdd0 0xfdef num
  || one_of [ 0xb; 0xfffe; 0xffff; 0x1fffe; 0x1ffff; 0x2fffe; 0x2ffff;
              0x3fffe; 0x3ffff; 0x4fffe; 0x4ffff; 0x5fffe; 0x5ffff; 0x6fffe;
              0x6ffff; 0x7fffe; 0x7ffff; 0x8fffe; 0x8ffff; 0x9fffe; 0x9ffff;
              0xafffe; 0xaffff; 0xbfffe; 0xbffff; 0xcfffe; 0xcffff; 0xdfffe;
              0xdffff; 0xefffe; 0xeffff; 0xffffe; 0xfffff; 0x10fffe;
              0x10ffff ]%N num.

Definition is_digit : char -> bool := between (ch "0") (ch "9").
Definition is_hexdigit (c : char) : bool :=
  is_digit c || between (ch "a") (ch "f") c || between (ch "A") (ch "F") c.

Definition digit_value (c : char) : N :=
  if is_digit c then c - 48
  else if between (ch "a") (ch "f") c then c - 87 else c - 55.

(** [int(s, base)] on a string of digits of that base. Python's integers
    are unbounded; the limit some interpreters put on the number of digits
    of a decimal conversion (4300 by default since Python 3.11) is not
    modelled. *)
Definition int_of (base : N) (s : str) : N :=
  fold_left (fun acc c => acc * base + digit_value c)%N s 0%N.

(** [&(#[0-9]+;?|#[xX][0-9a-fA-F]+;?|[^\t\n\f <&#;]{1,32};?)] *)
Definition charref : regex :=
  Seq (Chr (ch "&"))
    (Grp (Alt (Seq (Chr (ch "#")) (Seq (plus is_digit) (opt (is_chr (ch ";")))))
         (Alt (Seq (Chr (ch "#"))
                 (Seq (Cls (one_of (L "xX")))
                    (Seq (plus is_hexdigit) (opt (is_chr (ch ";"))))))
              (Seq (Rep true 1 (Some 32)
                      (none_of (9 :: 10 :: 12 :: L " <&#;")%N))
                 (opt (is_chr (ch ";"))))))).

(** The loop [for x in range(len(s)-1, 1, -1)] of [_replace_charref]: the
    longest proper prefix of [s], of two characters at least, that is a
    name of the table. *)
Fixpoint longest_name (s : str) (x : nat) : option str :=
  match x with
  | O => None
  | S x' =>
      if 1 <? x
      then match html5 (firstn x s) with
           | Some v => Some (v ++ skipn x s)
           | None => longest_name s x'
           end
      else None
  end.

Definition replace_charref (cap : option str) : str :=
  let s := match cap with Some g => g | None => [] end in
  match s with
  | [] => []
  | c0 :: rest0 =>
      if (c0 =? ch "#")%N
      then
        let num :=
          match rest0 with
          | c1 :: rest1 =>
              if one_of (L "xX") c1
              then int_of 16 (rstrip_with (is_chr (ch ";")) rest1)
              else int_of 10 (rstrip_with (is_chr (ch ";")) rest0)
          | [] => 0%N
          end in
        match invalid_charrefs num with
        | Some v => v
        | None =>
            if between 0xD800 0xDFFF num || (0x10FFFF <? num)%N
            then [0xFFFD%N]
            else if invalid_codepoints num then [] else [num]
        end
      else
        match html5 s with
        | Some v => v
        | None =>
            match longest_name s (length s - 1) with
            | Some v => v
            | None => ch "&" :: s
            end
        end
  end.

Definition html_unescape (s : str) : str :=
  if negb (contains (ch "&") s) then s
  else re_sub charref replace_charref s.

(** *** The cleaning steps *)

(** The dictionary [replacements], in its insertion order. *)
Definition replacements : list (str * str) :=
  [ (L "&amp;", L "&"); (L "&lt;", L "<"); (L "&gt;", L ">");
    (L "&nbsp;", L " "); (L "&quot;", [dquote]); (L "&#39;", L "'");
    (L "&hellip;", L "..."); (L "&mdash;", [8212%N]); (L "&ndash;", [8211%N]) ].

Definition _clean_html_entities (text : str) : str :=
  if negb (truthy text) then []
  else
    let text := html_unescape text in
    fold_left (fun text '(old, new) => str_replace old new text)
      replacements text.

(** [\\([.,;:!?()[\]{}])] *)
Definition escaped_punctuation : regex :=
  Seq (Chr backslash) (Grp (Cls (one_of (L ".,;:!?()[]{}")))).

Definition escaped (c : char) : regex := Seq (Chr backslash) (Chr c).

Definition _clean_escape_characters (text : str) : str :=
  if negb (truthy text) then []
  else
    let text := re_sub escaped_punctuation (group1 [] []) text in
    let text := re_sub (escaped (ch "*")) (const (L "*")) text in
    let text := re_sub (escaped (ch "_")) (const (L "_")) text in
    let text := re_sub (escaped (ch "-")) (const (L "-")) text in
    let text := re_sub (escaped dquote) (const [dquote]) text in
    let text := re_sub (escaped (ch "'")) (const (L "'")) text in
    text.

(** [<span[^>]*>(.*?)</span>], with [re.DOTALL] *)
Definition span_tag : regex :=
  Seq (lit (L "<span"))
    (Seq (star (none_of (L ">")))
       (Seq (Chr (ch ">")) (Seq (Grp (lazy_star any)) (lit (L "</span>"))))).

(** [</?(?:div|p|br|strong|em|b|i|u|font)[^>]*>] *)
Definition common_tag : regex :=
  Seq (Chr (ch "<"))
    (Seq (opt (is_chr (ch "/")))
       (Seq (Alt (lit (L "div")) (Alt (lit (L "p")) (Alt (lit (L "br"))
              (Alt (lit (L "strong")) (Alt (lit (L "em")) (Alt (lit (L "b"))
                (Alt (lit (L "i")) (Alt (lit (L "u")) (lit (L "font"))))))))))
          (Seq (star (none_of (L ">"))) (Chr (ch ">"))))).

(** [<[^>]+>] *)
Definition any_tag : regex :=
  Seq (Chr (ch "<")) (Seq (plus (none_of (L ">"))) (Chr (ch ">"))).

Definition _remove_html_tags (text : str) : str :=
  if negb (truthy text) then []
  else
    let text := re_sub span_tag (group1 [] []) text in
    let text := re_sub common_tag (const []) text in
    let text := re_sub any_tag (const []) text in
    text.

(** [\s+] *)
Definition spaces : regex := plus isspace.

Definition _normalize_whitespace (text : str) : str :=
  if negb (truthy text) then []
  else
    let text := re_sub spaces (const (L " ")) text in
    let text := strip text in
    text.

(** The four steps on a string. *)
Definition clean_text (text : str) : str :=
  let text := _clean_html_entities text in
  let text := _clean_escape_characters text in
  let text := _remove_html_tags text in
  let text := _normalize_whitespace text in
  text.

Definition _validate_and_clean_text_input (text : pyval) : str :=
  match text with
  | PyNone => []
  | PyStr s => clean_text s
  | other => clean_text (py_str other)
  end.
(** *** Rich-text formatting *)

(** [\*\*\s*([^*]+?)\s*\*\*] *)
Definition bold_span : regex :=
  Seq (lit (L "**"))
    (Seq (star isspace)
       (Seq (Grp (lazy_plus (none_of (L "*"))))
          (Seq (star isspace) (lit (L "**"))))).

(** The italic pattern of [_process_text_formatting]: a star that no star
    precedes, [\s*], the group [[^*]+?], [\s*], and a star that no star
    follows. *)
Definition italic_span : regex :=
  Seq (Behind false (is_chr (ch "*")))
    (Seq (Chr (ch "*"))
       (Seq (star isspace)
          (Seq (Grp (lazy_plus (none_of (L "*"))))
             (Seq (star isspace)
                (Seq (Chr (ch "*")) (Ahead false (is_chr (ch "*")))))))).

(** [__\s*([^_]+?)\s*__] *)
Definition underscore_span : regex :=
  Seq (lit (L "__"))
    (Seq (star isspace)
       (Seq (Grp (lazy_plus (none_of (L "_"))))
          (Seq (star isspace) (lit (L "__"))))).

(** [~~\s*([^~]+?)\s*~~] *)
Definition strike_span : regex :=
  Seq (lit (L "~~"))
    (Seq (star isspace)
       (Seq (Grp (lazy_plus (none_of (L "~"))))
          (Seq (star isspace) (lit (L "~~"))))).

Definition _process_text_formatting (text : str) : str :=
  if negb (truthy text) then []
  else
    let text := _validate_and_clean_text_input (PyStr text) in
    let text := re_sub bold_span (group1 (L "**") (L "**")) text in
    let text := re_sub italic_span (group1 (L "*") (L "*")) text in
    let text := re_sub underscore_span (group1 (L "**") (L "**")) text in
    let text := re_sub strike_span (group1 [] []) text in
    text.

(** A run of a paragraph, with the font attributes the program sets
    ([None] until set). *)
Record run : Type := mkRun {
  run_text : str;
  font_bold : option bool;
  font_italic : option bool;
  font_size : option nat;
  font_name : option str
}.

Definition paragraph : Type := list run.

Definition new_run : run := mkRun [] None None None None.

(** [run = paragraph.add_run()]: the variable [run] then denotes the last
    run of the paragraph, and assignments through it change that run. *)
Definition add_run (p : paragraph) : paragraph := p ++ [new_run].

Definition on_run (f : run -> run) (p : paragraph) : paragraph :=
  match rev p with
  | [] => p
  | r :: before => rev before ++ [f r]
  end.

Definition set_text (v : str) (r : run) : run :=
  mkRun v (font_bold r) (font_italic r) (font_size r) (font_name r).
Definition set_bold (r : run) : run :=
  mkRun (run_text r) (Some true) (font_italic r) (font_size r) (font_name r).
Definition set_italic (r : run) : run :=
  mkRun (run_text r) (font_bold r) (Some true) (font_size r) (font_name r).
Definition set_font (r : run) : run :=
  mkRun (run_text r) (font_bold r) (font_italic r)
    (Some DEFAULT_CONTENT_FONT_SIZE) (Some (L "Calibri")).

(** The two patterns [_apply_text_formatting] splits on, each a single
    group: two stars, [[^*]+?], two stars; and one star, [[^*]+?], one
    star. *)
Definition bold_part : regex :=
  Grp (Seq (lit (L "**")) (Seq (lazy_plus (none_of (L "*"))) (lit (L "**")))).
Definition italic_part : regex :=
  Grp (Seq (Chr (ch "*")) (Seq (lazy_plus (none_of (L "*"))) (Chr (ch "*")))).

(** The body of [for i, italic_part in enumerate(italic_parts)]. *)
Definition italic_step (p : paragraph) (item : nat * str) : paragraph :=
  let '(i, part) := item in
  if negb (truthy part) then p
  else
    let p := if 0 <? i then add_run p else p in
    if starts_with (L "*") part && ends_with (L "*") part
       && (2 <? length part) && negb (starts_with (L "**") part)
    then on_run set_italic
           (on_run (set_text (slice 1 (length part - 1) part)) p)
    else on_run (set_text part) p.

Definition enumerate {A : Type} (l : list A) : list (nat * A) :=
  combine (seq 0 (length l)) l.

(** The body of [for part in parts]. *)
Definition part_step (p : paragraph) (part : str) : paragraph :=
  if negb (truthy part) then p
  else
    let p := add_run p in
    let p :=
      if starts_with (L "**") part && ends_with (L "**") part
         && (4 <? length part)
      then on_run set_bold
             (on_run (set_text (slice 2 (length part - 2) part)) p)
      else fold_left italic_step (enumerate (re_split italic_part part)) p in
    on_run set_font p.

Definition _apply_text_formatting (p : paragraph) (original_text : str)
    : paragraph :=
  if negb (truthy original_text) then p
  else
    let text := _process_text_formatting original_text in
    let p : paragraph := [] in
    let parts := re_split bold_part text in
    if negb (truthy parts)
       || forallb (fun part => negb (truthy (strip part))) parts
    then on_run set_font (on_run (set_text original_text) (add_run p))
    else fold_left part_step parts p.

(** *** Bullet length and splitting *)

Definition _estimate_text_length (text : str) : bool :=
  if negb (truthy text) then false
  else
    let clean := _validate_and_clean_text_input (PyStr text) in
    let char_count := length clean in
    let word_count := length (split_ws clean) in
    (COMPREHENSIVE_TEXT_THRESHOLD <? char_count) || (20 <? word_count).

(** [(?<=[.!?])\s+] and [(?<=[,;])\s+] *)
Definition sentence_end : regex := Seq (Behind true (one_of (L ".!?"))) spaces.
Definition clause_end : regex := Seq (Behind true (one_of (L ",;"))) spaces.

Definition flush (sep : str) (grouped : list str) (current_group : list str)
    : list str :=
  if truthy current_group then grouped ++ [join sep current_group] else grouped.

(** The grouping loop, written twice in [_split_long_bullet]: with cap 200
    and separator [' '] for sentences, with cap 180 and separator [', ']
    for clauses. The state is [grouped], [current_group] and
    [current_length]; the result is [grouped] after the final flush. *)
Fixpoint regroup_from (cap : nat) (sep : str) (pieces : list str)
    (grouped : list str) (current_group : list str) (current_length : nat)
    : list str :=
  match pieces with
  | [] => flush sep grouped current_group
  | piece :: rest =>
      let piece := strip piece in
      if (current_length + length piece <=? cap) && truthy current_group
      then regroup_from cap sep rest grouped (current_group ++ [piece])
             (current_length + length piece)
      else regroup_from cap sep rest (flush sep grouped current_group)
             [piece] (length piece)
  end.

Definition regroup (cap : nat) (sep : str) (pieces : list str) : list str :=
  regroup_from cap sep pieces [] [] 0.

Definition nonblank (s : str) : bool := truthy (strip s).

Definition _split_long_bullet (text : str) : list str :=
  if negb (truthy text) then [text]
  else
    let text := _validate_and_clean_text_input (PyStr text) in
    if length text <=? 250 then [text]
    else
      let sentences := re_split sentence_end text in
      if 1 <? length sentences
      then filter nonblank (regroup 200 (L " ") sentences)
      else
        if 300 <? length text
        then
          let clauses := re_split clause_end text in
          if 1 <? length clauses
          then filter nonblank (regroup 180 (L ", ") clauses)
          else [text]
        else [text].

(** *** Title truncation *)

(** The loop [for word in words], which ends at the first word that does
    not fit. *)
Fixpoint truncate_words (words : list str) (truncated : str) : str :=
  match words with
  | [] => truncated
  | word :: rest =>
      if length (truncated ++ L " " ++ word) <=? MAX_TITLE_LENGTH - 3
      then truncate_words rest
             (if truthy truncated then truncated ++ L " " ++ word else word)
      else truncated
  end.

Definition _truncate_title (title : str) : str :=
  let title := _validate_and_clean_text_input (PyStr title) in
  if length title <=? MAX_TITLE_LENGTH then title
  else
    let words := split_ws title in
    let truncated := truncate_words words [] in
    if negb (str_eqb truncated title) then truncated ++ L "..."
    else firstn (MAX_TITLE_LENGTH - 3) title ++ L "...".

(** *** Content distribution *)

(** The first loop of [_distribute_content]: [processed_content]. *)
Definition process_point (processed_content : list str) (point : str)
    : list str :=
  let cleaned_point := _validate_and_clean_text_input (PyStr point) in
  if negb (truthy cleaned_point) then processed_content
  else if _estimate_text_length cleaned_point
  then processed_content ++ _split_long_bullet cleaned_point
  else processed_content ++ [cleaned_point].

Definition processed_content (content : list str) : list str :=
  fold_left process_point content [].

Definition points_per_slide (max_slides : option Z) (total : nat) : nat :=
  match max_slides with
  | Some m =>
      if (negb (m =? 0) && (0 <? m))%Z
      then Z.to_nat
             (Z.max 1 (Z.min (Z.of_nat MAX_BULLETS_PER_SLIDE)
                         ((Z.of_nat total + m - 1) / m)))
      else MAX_BULLETS_PER_SLIDE
  | None => MAX_BULLETS_PER_SLIDE
  end.

(** [range(0, stop, step)] for [step >= 1]. *)
Definition range_step (stop step : nat) : list nat :=
  map (fun k => k * step) (seq 0 ((stop + step - 1) / step)).

Definition slide_spec : Type := (str * list str)%type.

Definition slide_at (title : str) (processed : list str) (per_slide : nat)
    (i : nat) : slide_spec :=
  let slide_content := slice i (i + per_slide) processed in
  let slide_title :=
    if per_slide <? length processed
    then
      let part_num := i / per_slide + 1 in
      let total_parts := (length processed + per_slide - 1) / per_slide in
      title ++ L " (Part " ++ str_of_nat part_num ++ L "/"
        ++ str_of_nat total_parts ++ L ")"
    else title in
  (slide_title, slide_content).

Definition _distribute_content (title : str) (content : list str)
    (max_slides : option Z) : list slide_spec :=
  if negb (truthy content) then [(title, [])]
  else
    let processed := processed_content content in
    if negb (truthy processed) then [(title, [])]
    else
      let per_slide := points_per_slide max_slides (length processed) in
      map (slide_at title processed per_slide)
        (range_step (length processed) per_slide).

(** *** Slides

    The presentation is the list of its slides, in order, and a slide is
    what the program writes on it: for a title or a closing slide the
    text of the title shape and the text of the second placeholder; for
    a section slide the text of the title shape and the paragraphs of
    the second placeholder, each a list of runs. A text is [None], and
    the paragraphs are none, when the program writes nothing there: it
    writes a title only [if slide.shapes.title], and the second
    placeholder only when [len(slide.placeholders) > 1]. How python-pptx
    stores the texts is not modelled. *)

(** What the program asks of a slide made from a layout: whether it has
    a title shape, and how many placeholders it has. *)
Record layout : Type := mkLayout {
  has_title : bool;
  n_placeholders : nat
}.

(** [self.title_slide_layout] and [self.title_content_layout], set by
    [_setup_layouts] from the layouts of the template. *)
Variable title_slide_layout : layout.
Variable title_content_layout : layout.

Inductive slide : Type :=
| TitleSlide (title : option str) (subtitle : option str)
| SectionSlide (title : option str) (body : list paragraph)
| ClosingSlide (title : option str) (content : option str).

Definition presentation : Type := list slide.

(** [x if x else None] *)
Definition or_none (text : str) : option str :=
  if truthy text then Some text else None.

(** The title written on a slide made from [l]. *)
Definition title_text (l : layout) (title : str) : option str :=
  if has_title l then Some title else None.

(** The text written in the second placeholder of a title or closing
    slide made from [l]: the argument is cleaned when it is given and
    not empty, and written when the cleaned text is not empty and the
    slide has more than one placeholder. *)
Definition second_text (l : layout) (text : option str) : option str :=
  let text :=
    match text with
    | Some t =>
        if truthy t then Some (_validate_and_clean_text_input (PyStr t))
        else None
    | None => None
    end in
  match text with
  | Some t => if truthy t && (1 <? n_placeholders l) then Some t else None
  | None => None
  end.

Definition add_title_slide (title : str) (subtitle : option str)
    (ppt : presentation) : presentation :=
  let title := _validate_and_clean_text_input (PyStr title) in
  ppt ++ [TitleSlide (title_text title_slide_layout title)
            (second_text title_slide_layout subtitle)].

(** [cleaned_content]: the items whose cleaned text has more than ten
    characters. *)
Definition cleaned_content (content : list str) : list str :=
  filter
    (fun cleaned_item => truthy cleaned_item && (10 <? length cleaned_item))
    (map (fun item => _validate_and_clean_text_input (PyStr item)) content).

(** [if not run.font.size: ...] and [if not run.font.name: ...] *)
Definition ensure_font (r : run) : run :=
  mkRun (run_text r) (font_bold r) (font_italic r)
    (match font_size r with
     | Some size => if size =? 0 then Some DEFAULT_CONTENT_FONT_SIZE
                    else Some size
     | None => Some DEFAULT_CONTENT_FONT_SIZE
     end)
    (match font_name r with
     | Some name => if truthy name then Some name else Some (L "Calibri")
     | None => Some (L "Calibri")
     end).

(** The paragraph of one bullet: a fresh paragraph, formatted, then the
    loop over its runs. *)
Definition bullet_paragraph (point : str) : paragraph :=
  map ensure_font (_apply_text_formatting [] point).

(** The paragraphs written in the second placeholder of a section slide:
    none unless the slide has more than one placeholder and
    [cleaned_content] is not empty; otherwise one for each of the first
    [MAX_BULLETS_PER_SLIDE] items. *)
Definition body_paragraphs (l : layout) (cleaned_content : list str)
    : list paragraph :=
  if (1 <? n_placeholders l) && truthy cleaned_content
  then map bullet_paragraph (firstn MAX_BULLETS_PER_SLIDE cleaned_content)
  else [].

(** [slide_number] and [total_slides] are only logged. *)
Definition add_section_slide (title : str) (content : list str)
    (slide_number total_slides : Z) (ppt : presentation) : presentation :=
  let title := _validate_and_clean_text_input (PyStr title) in
  let title := _truncate_title title in
  let cleaned_content := cleaned_content content in
  ppt ++ [SectionSlide (title_text title_content_layout title)
            (body_paragraphs title_content_layout cleaned_content)].

Definition add_closing_slide (title : str) (content : option str)
    (ppt : presentation) : presentation :=
  let title := _validate_and_clean_text_input (PyStr title) in
  ppt ++ [ClosingSlide (title_text title_slide_layout title)
            (second_text title_slide_layout content)].

(** *** [generate_from_content]

    The dictionaries [content] and [section], with [None] for a key that
    is missing; [target_slides] is an integer. *)

Record section_dict : Type := mkSection {
  section_title : option pyval;
  section_content : option (list str)
}.

Record content_dict : Type := mkContent {
  content_title : option pyval;
  content_subtitle : option pyval;
  content_target_slides : option Z;
  content_sections : option (list section_dict);
  content_call_to_action : option pyval
}.

(** [d.get(key, default)] *)
Definition get {A : Type} (field : option A) (default : A) : A :=
  match field with Some v => v | None => default end.

(** The body of [for slide_title, slide_content in distributed_content]. *)
Definition slide_step (target_slides : Z) (state : presentation * Z)
    (item : slide_spec) : presentation * Z :=
  let '(ppt, slide_count) := state in
  let '(slide_title, slide_content) := item in
  let slide_count := (slide_count + 1)%Z in
  (add_section_slide slide_title slide_content slide_count target_slides ppt,
   slide_count).

(** The body of [for section_idx, section in enumerate(sections)]. *)
Definition section_step (available_slides target_slides : Z)
    (n_sections : nat) (state : presentation * Z)
    (item : nat * section_dict) : presentation * Z :=
  let '(section_idx, section) := item in
  let section_title :=
    _validate_and_clean_text_input
      (get (section_title section)
         (PyStr (L "Section " ++ str_of_nat (section_idx + 1)))) in
  let section_content := get (section_content section) [] in
  if negb (truthy section_content) then state
  else
    let max_slides_for_section :=
      Z.max 1 (available_slides / Z.of_nat n_sections) in
    let distributed_content :=
      _distribute_content section_title section_content
        (Some max_slides_for_section) in
    fold_left (slide_step target_slides) distributed_content state.

(** The result is the presentation and [len(self.ppt.slides)]. *)
Definition generate_from_content (content : content_dict)
    (ppt : presentation) : presentation * nat :=
  let title :=
    _validate_and_clean_text_input
      (get (content_title content) (PyStr (L "Presentation"))) in
  let subtitle :=
    _validate_and_clean_text_input
      (get (content_subtitle content) (PyStr [])) in
  let target_slides := Z.max 1 (get (content_target_slides content) 15%Z) in
  let ppt := add_title_slide title (or_none subtitle) ppt in
  let sections := get (content_sections content) [] in
  if negb (truthy sections) then (ppt, length ppt)
  else
    let available_slides := Z.max 1 (target_slides - 2) in
    let '(ppt, _) :=
      fold_left (section_step available_slides target_slides (length sections))
        (enumerate sections) (ppt, 1%Z) in
    let call_to_action :=
      _validate_and_clean_text_input
        (get (content_call_to_action content) (PyStr [])) in
    let ppt := add_closing_slide (L "Thank You") (or_none call_to_action) ppt in
    (ppt, length ppt).

End Emotion.

(** *** [save]: the name of the file written

    [save] computes the file name, hands it to [Presentation.save] and
    returns it; the model is the name computed. [filename] is [None] when
    the caller leaves the default. *)

Section Saving.

Variable str_lower : str -> str.

Definition save (template_name : str) (filename : option str) : str :=
  let filename :=
    match filename with
    | Some name => name
    | None => L "enhanced_presentation.pptx"
    end in
  let filename :=
    if negb (truthy filename)
    then L "presentation_" ++ template_name ++ L ".pptx"
    else filename in
  let filename :=
    if negb (ends_with (L ".pptx") (str_lower filename))
    then filename ++ L ".pptx"
    else filename in
  if negb (str_eqb template_name (L "default"))
     && negb (str_in template_name filename)
  then
    let name_part := str_replace (L ".pptx") [] filename in
    name_part ++ L "_" ++ template_name ++ L ".pptx"
  else filename.

End Saving.

(** ** [maincont.py]: the deduplication of topics in [note] *)

Section Maincont.

(** [str.lower] and the class [\w] of [re] depend on the Unicode character
    database of the interpreter; the properties below hold for every
    choice of them. *)
Variable str_lower : str -> str.
Variable is_word : char -> bool.

(** [[^\w\s]] *)
Definition punctuation : regex := Cls (fun c => negb (is_word c || isspace c)).

Definition normalize_for_comparison (text : str) : str :=
  let text := str_lower text in
  let text := re_sub punctuation (const []) text in
  let text := strip (re_sub spaces (const (L " ")) text) in
  text.

(** [set(words)]: a list without duplicates. *)
Definition word_set (text : str) : set str :=
  nodup str_eq_dec (split_ws (normalize_for_comparison text)).

(** The default [threshold=0.7]. The quotient [intersection / union] is
    compared exactly. Python compares the correctly rounded quotient with
    the double nearest to 0.7, which lies just below 7/10: its test holds
    whenever the exact one does, and the two agree for every union of
    fewer than 10^15 words. *)
Definition threshold : Q := 7 # 10.

Definition are_similar (text1 text2 : str) : bool :=
  let words1 := word_set text1 in
  let words2 := word_set text2 in
  if negb (truthy words1) || negb (truthy words2) then false
  else
    let intersection := length (set_inter str_eq_dec words1 words2) in
    let union := length (set_union str_eq_dec words1 words2) in
    Qle_bool threshold (Z.of_nat intersection # Pos.of_nat union).

(** The body of [for topic in topics]; the inner loop stops at the first
    similar topic. *)
Definition dedupe_step (filtered_topics : list str) (topic : str) : list str :=
  let norm_topic := normalize_for_comparison topic in
  if 5 <? length norm_topic
  then
    let is_duplicate := existsb (are_similar topic) filtered_topics in
    if negb is_duplicate then filtered_topics ++ [topic] else filtered_topics
  else filtered_topics.

Definition filtered_topics (topics : list str) : list str :=
  fold_left dedupe_step topics [].

(** The Jaccard index of the token sets of two topics: the size of the
    intersection over the size of the union. *)
Definition jaccard (a b : str) : Q :=
  let words_a := word_set a in
  let words_b := word_set b in
  Z.of_nat (length (set_inter str_eq_dec words_a words_b))
  # Pos.of_nat (length (set_union str_eq_dec words_a words_b)).

(** The condition under which the loop keeps [topic], given the topics
    kept so far. *)
Definition keeps (kept : list str) (topic : str) : bool :=
  (5 <? length (normalize_for_comparison topic))
  && negb (existsb (are_similar topic) kept).

(** *** [engine]: the bullets kept of a response

    [response] is what [clean_text_lines(response.text)] gave, or [None]
    when the request or the cleaning raised, which the [except] clause
    turns into one stock sentence about the topic. *)

Definition generic_phrases : list str :=
  [ L "very important"; L "quite useful"; L "extremely helpful";
    L "it is noted that" ].

(** The three nested tests of the loop over [cleaned_bullets]. *)
Definition quality_bullet (bullet : str) : bool :=
  (50 <=? length bullet) && (length bullet <=? 200)
  && negb (existsb (fun phrase => str_in phrase (str_lower bullet))
             generic_phrases)
  && (8 <=? length (split_ws bullet)).

Definition engine (topic : str) (response : option (list str)) : list str :=
  match response with
  | Some cleaned_bullets =>
      let filtered_bullets := filter quality_bullet cleaned_bullets in
      let filtered_bullets :=
        if length filtered_bullets <? 3
        then
          let backup_bullets :=
            filter (fun b => 5 <=? length (split_ws b)) cleaned_bullets in
          firstn 6 backup_bullets
        else filtered_bullets in
      firstn 8 filtered_bullets
  | None =>
      [ L "Detailed information and key concepts related to " ++ topic
        ++ L " will be covered in this section" ]
  end.

(** The test of [note] on the bullets of a topic,
    [slide_bullets and len(slide_bullets) >= 3]: the topic becomes a
    section when it holds. *)
Definition makes_section (slide_bullets : list str) : bool :=
  truthy slide_bullets && (3 <=? length slide_bullets).

(** *** [detect_subject_area] *)

(** The dictionary [subject_patterns], in its order. *)
Definition subject_patterns : list (str * list str) :=
  [ (L "Computer Science",
     [ L "network"; L "algorithm"; L "programming"; L "database";
       L "software"; L "computer"; L "data structure"; L "coding" ]);
    (L "Biology",
     [ L "cell"; L "organism"; L "dna"; L "protein"; L "evolution";
       L "photosynthesis"; L "genetics"; L "anatomy" ]);
    (L "Chemistry",
     [ L "molecule"; L "atom"; L "reaction"; L "compound"; L "element";
       L "bond"; L "acid"; L "base" ]);
    (L "Physics",
     [ L "force"; L "energy"; L "wave"; L "particle"; L "quantum";
       L "motion"; L "electricity"; L "magnetism" ]);
    (L "Mathematics",
     [ L "equation"; L "theorem"; L "calculus"; L "algebra"; L "geometry";
       L "probability"; L "statistics" ]);
    (L "History",
     [ L "war"; L "empire"; L "revolution"; L "century"; L "ancient";
       L "medieval"; L "dynasty"; L "civilization" ]);
    (L "Economics",
     [ L "market"; L "economy"; L "trade"; L "finance"; L "money";
       L "supply"; L "demand"; L "economic" ]);
    (L "Psychology",
     [ L "behavior"; L "cognitive"; L "mental"; L "brain"; L "psychology";
       L "social"; L "personality" ]) ].

(** The loop over [subject_patterns.items()]: the first subject one of
    whose keywords occurs in the text. *)
Fixpoint first_subject (patterns : list (str * list str))
    (combined_text : str) : str :=
  match patterns with
  | [] => L "General Academic"
  | (subject, keywords) :: rest =>
      if existsb (fun keyword => str_in keyword combined_text) keywords
      then subject
      else first_subject rest combined_text
  end.

Definition detect_subject_area (topics_sample : list str) : str :=
  if negb (truthy topics_sample) then []
  else
    let combined_text := str_lower (join (L " ") (firstn 5 topics_sample)) in
    first_subject subject_patterns combined_text.

End Maincont.

(** ** Concrete library data, for evaluation

    The entries of [html.entities.html5] for the references the program
    names in [replacements], with the forms Python accepts without a
    semicolon. *)
Definition html5_core : str -> option str := fun name =>
  assoc_str name
    [ (L "amp", L "&"); (L "amp;", L "&"); (L "lt", L "<"); (L "lt;", L "<");
      (L "gt", L ">"); (L "gt;", L ">"); (L "quot", [dquote]);
      (L "quot;", [dquote]); (L "nbsp", [160%N]); (L "nbsp;", [160%N]);
      (L "hellip;", [8230%N]); (L "mdash;", [8212%N]); (L "ndash;", [8211%N]) ].

(** [str.lower] and [\w] on ASCII text. *)
Definition ascii_lower (s : str) : str :=
  map (fun c => if between (ch "A") (ch "Z") c then (c + 32)%N else c) s.
Definition ascii_word (c : char) : bool :=
  between (ch "a") (ch "z") c || between (ch "A") (ch "Z") c
  || between (ch "0") (ch "9") c || is_chr (ch "_") c.

(** [n] copies of [s], as [s * n]. *)
Definition times (n : nat) (s : str) : str := concat (repeat s n).

(** ** The specification's formula for the bullets of a slide *)

(** [max(1, min(MAX_BULLETS_PER_SLIDE, ceil(total_bullets / max_slides)))]
    when [max_slides] is given and positive, the constant otherwise. *)
Definition spec_points_per_slide (max_slides : option Z) (total_bullets : nat)
    : Z :=
  match max_slides with
  | Some m =>
      if (0 <? m)%Z
      then Z.max 1 (Z.min 5 (Qceiling (Z.of_nat total_bullets # Z.to_pos m)))
      else 5%Z
  | None => 5%Z
  end.

(** The bullets of all slides, in order. *)
Definition all_bullets (slides : list slide_spec) : list str :=
  concat (map snd slides).

Definition total_bullets (slides : list slide_spec) : nat :=
  list_sum (map (fun sl => length (snd sl)) slides).

(** ** Definitions the statements and proofs use *)

(** *** Styles of runs *)

Inductive style : Type := Plain | Bold | Italic | BoldItalic.

Definition style_of (r : run) : style :=
  match font_bold r, font_italic r with
  | Some true, Some true => BoldItalic
  | Some true, _ => Bold
  | _, Some true => Italic
  | _, _ => Plain
  end.

Definition styled_runs (p : paragraph) : list (style * str) :=
  map (fun r => (style_of r, run_text r)) p.

(** *** Groups of sentences and clauses *)

Definition total_length (pieces : list str) : nat :=
  list_sum (map (@length char) pieces).

(** The groups behind [regroup_from]: the same loop, keeping each group
    as the list of its pieces instead of their join. *)
Fixpoint groups_from (cap : nat) (pieces : list str)
    (groups : list (list str)) (current_group : list str)
    (current_length : nat) : list (list str) :=
  let close := fun groups current_group =>
    if truthy current_group then groups ++ [current_group] else groups in
  match pieces with
  | [] => close groups current_group
  | piece :: rest =>
      let piece := strip piece in
      if (current_length + length piece <=? cap) && truthy current_group
      then groups_from cap rest groups (current_group ++ [piece])
             (current_length + length piece)
      else groups_from cap rest (close groups current_group)
             [piece] (length piece)
  end.

Definition groups_of (cap : nat) (pieces : list str) : list (list str) :=
  groups_from cap pieces [] [] 0.

(** A group is well formed when it is not empty and either is a single
    piece or has pieces whose lengths sum to the cap at most. *)
Definition within_cap (cap : nat) (group : list str) : Prop :=
  group <> [] /\ (length group = 1 \/ total_length group <= cap).

(** The grouping is greedy: a group was closed only because the first
    piece of the next group did not fit under the cap. *)
Fixpoint greedy_groups (cap : nat) (groups : list (list str)) : Prop :=
  match groups with
  | group :: (next :: _) as rest =>
      cap < total_length group + length (hd [] next)
      /\ greedy_groups cap rest
  | _ => True
  end.

(** A text with a character that is not whitespace. *)
Definition has_ink (s : str) : Prop :=
  exists c, In c s /\ isspace c = false.

(** *** Patterns and whitespace *)

(** Every match of [r] starts with the character [c]. *)
Fixpoint begins_with (c : char) (r : regex) : bool :=
  match r with
  | Chr c' => (c' =? c)%N
  | Seq r1 _ => begins_with c r1
  | Alt r1 r2 => begins_with c r1 && begins_with c r2
  | Grp r1 => begins_with c r1
  | _ => false
  end.

(** What [re.sub(r'\s+', ' ', s)] computes: each run of whitespace becomes
    one space. [in_run] tells that the previous character was
    whitespace. *)
Fixpoint collapse (in_run : bool) (s : str) : str :=
  match s with
  | [] => []
  | c :: t =>
      if isspace c
      then if in_run then collapse true t else 32%N :: collapse true t
      else c :: collapse false t
  end.

(** The number of whitespace characters a text starts with. *)
Fixpoint leading (s : str) : nat :=
  match s with
  | [] => 0
  | c :: t => if isspace c then S (leading t) else 0
  end.

(** The continuation of [match_at]. *)
Definition accept : cont := fun _ s' cap => Some (cap, s').

(** A text is tidy when its whitespace is single spaces only. *)
Definition tidy (s : str) : Prop := collapse false s = s.

(** Characters no cleaning step acts on. *)
Definition plain_char (c : char) : bool :=
  negb (isspace c) && negb (c =? ch "&")%N && negb (c =? backslash)%N
  && negb (c =? ch "<")%N.

(** *** Order *)

(** [kept] keeps some elements of [all], in their order. *)
Inductive subseq {A : Type} : list A -> list A -> Prop :=
| subseq_nil : subseq [] []
| subseq_skip (x : A) (kept all : list A) :
    subseq kept all -> subseq kept (x :: all)
| subseq_keep (x : A) (kept all : list A) :
    subseq kept all -> subseq (x :: kept) (x :: all).

(** *** Inputs used for evaluation *)

(** A title of one word of 70 letters. *)
Definition long_word_title : str := times 70 (L "a").

(** 101 clauses ["a,"] separated by single spaces: 302 characters, no
    sentence boundary. *)
Definition clause_text : str := join (L " ") (repeat (L "a,") 101).

(** 101 sentences ["a."] separated by single spaces: 302 characters. *)
Definition sentence_text : str := join (L " ") (repeat (L "a.") 101).

(** A sentence of 261 characters followed by a short one. *)
Definition long_sentence_text : str := times 260 (L "a") ++ L ". b.".

(** A text with tags and irregular whitespace. *)
Definition markup_text : str := L "  one <i>two</i>   three. ".

(** *** Single-spaced texts *)

(** [s] starts with a character that is not whitespace. *)
Definition starts_with_ink (s : str) : Prop :=
  match s with
  | c :: _ => isspace c = false
  | [] => False
  end.

(** Every whitespace character of [s] is a space and is followed by a
    character that is not whitespace. *)
Fixpoint spaced (s : str) : Prop :=
  match s with
  | [] => True
  | c :: t => (isspace c = true -> c = 32%N /\ starts_with_ink t) /\ spaced t
  end.

(** A text whose words are separated by single spaces, with no whitespace
    before the first word or after the last. *)
Definition single_spaced (s : str) : Prop :=
  join (L " ") (split_ws s) = s.

(** *** Tags left in a text *)

(** The text starts with a match of [<[^>]+>]: a [<], a character other
    than [>], and a [>] further on. *)
Definition tag_here (s : str) : bool :=
  match s with
  | c :: x :: t =>
      (c =? ch "<")%N && negb (x =? ch ">")%N && contains (ch ">") t
  | _ => false
  end.

(** The text holds a match of [<[^>]+>] somewhere. *)
Fixpoint has_tag (s : str) : bool :=
  match s with
  | [] => false
  | _ :: t => tag_here s || has_tag t
  end.

(** *** Lists the deduplication leaves alone *)

(** A list built by appending, one at a time, topics that the loop of
    [note] keeps given the topics before them. *)
Inductive kept_list (str_lower : str -> str) (is_word : char -> bool)
    : list str -> Prop :=
| kept_nil : kept_list str_lower is_word []
| kept_snoc (kept : list str) (topic : str) :
    kept_list str_lower is_word kept ->
    keeps str_lower is_word kept topic = true ->
    kept_list str_lower is_word (kept ++ [topic]).

(** *** Titles of the slides of a section *)

(** The title of part [k] of [total]: the f-string
    [f"{title} (Part {part_num}/{total_parts})"]. *)
Definition part_title (title : str) (k total : nat) : str :=
  title ++ L " (Part " ++ str_of_nat k ++ L "/" ++ str_of_nat total ++ L ")".

(** *** Slides of a presentation *)

Definition is_section_slide (s : slide) : bool :=
  match s with SectionSlide _ _ => true | _ => false end.

(** The section has a non-empty list under ["content"]. *)
Definition has_content (section : section_dict) : bool :=
  truthy (get (section_content section) []).

(** The run is in Calibri at the content size. *)
Definition content_font (r : run) : Prop :=
  font_size r = Some DEFAULT_CONTENT_FONT_SIZE
  /\ font_name r = Some (L "Calibri").

(** The font of the run is unset or is Calibri at the content size. *)
Definition unset_or_content_font (r : run) : Prop :=
  (font_size r = None \/ font_size r = Some DEFAULT_CONTENT_FONT_SIZE)
  /\ (font_name r = None \/ font_name r = Some (L "Calibri")).

(** The slide [add_section_slide] appends. *)
Definition section_slide_of (html5 : str -> option str)
    (title_content_layout : layout) (item : slide_spec) : slide :=
  SectionSlide
    (title_text title_content_layout
       (_truncate_title html5
          (_validate_and_clean_text_input html5 (PyStr (fst item)))))
    (body_paragraphs html5 title_content_layout
       (cleaned_content html5 (snd item))).

(** The slides of one section of [generate_from_content]: none when the
    section has no content. *)
Definition section_slides (html5 : str -> option str)
    (title_content_layout : layout) (available_slides : Z)
    (n_sections : nat) (item : nat * section_dict) : list slide :=
  let section_title :=
    _validate_and_clean_text_input html5
      (get (section_title (snd item))
         (PyStr (L "Section " ++ str_of_nat (fst item + 1)))) in
  let section_content := get (section_content (snd item)) [] in
  if truthy section_content
  then map (section_slide_of html5 title_content_layout)
         (_distribute_content html5 section_title section_content
            (Some (Z.max 1 (available_slides / Z.of_nat n_sections))))
  else [].

(** Layouts for evaluation: one with a title and a body placeholder, one
    with a title alone. *)
Definition title_and_body : layout := mkLayout true 2.
Definition title_only : layout := mkLayout true 1.

(** A presentation of one section with two bullets, the other keys
    left to their defaults. *)
Definition one_section_content : content_dict :=
  mkContent (Some (PyStr (L "Cell Biology"))) None None
    (Some [ mkSection (Some (PyStr (L "Membranes")))
              (Some [ L "The membrane separates the cell from its medium.";
                      L "Proteins carry molecules across the membrane." ]) ])
    None.

(** * Properties *)

(** ** Lists and slices *)

Lemma truthy_true {A : Type} (l : list A) : truthy l = true <-> l <> [].
Proof. destruct l; simpl; split; congruence. Qed.

Lemma truthy_false {A : Type} (l : list A) : truthy l = false <-> l = [].
Proof. destruct l; simpl; split; congruence. Qed.

Lemma ceil_div_bound (n step : nat) :
  0 < step -> n <= ((n + step - 1) / step) * step.
Proof.
  intros Hs.
  pose proof (Nat.div_mod_eq (n + step - 1) step) as E.
  pose proof (Nat.mod_upper_bound (n + step - 1) step ltac:(lia)) as B.
  nia.
Qed.

Lemma ceil_div_tight (n step : nat) :
  0 < step -> 0 < n -> ((n + step - 1) / step - 1) * step < n.
Proof.
  intros Hs Hn.
  pose proof (Nat.div_mod_eq (n + step - 1) step) as E.
  pose proof (Nat.mod_upper_bound (n + step - 1) step ltac:(lia)) as B.
  nia.
Qed.

(** Cutting a list into consecutive slices of [step] elements loses
    nothing, as soon as the slices reach the end of the list. *)
Lemma concat_slices {A : Type} (step : nat) :
  0 < step ->
  forall (count : nat) (l : list A),
    length l <= count * step ->
    concat (map (fun k => slice (k * step) (k * step + step) l) (seq 0 count))
    = l.
Proof.
  intros Hs count.
  induction count as [|count IH]; intros l Hl.
  - simpl in *. destruct l; simpl in *; [reflexivity | lia].
  - change (seq 0 (S count)) with (0 :: seq 1 count).
    rewrite <- seq_shift, map_cons, map_map. cbn [concat].
    transitivity (firstn step l ++ skipn step l); [|apply firstn_skipn].
    f_equal.
    + unfold slice. cbn [Nat.mul skipn Nat.add]. f_equal. lia.
    + rewrite <- (IH (skipn step l)) at 1.
      * f_equal. apply map_ext. intros k. unfold slice.
        rewrite skipn_skipn. f_equal; [lia | f_equal; lia].
      * rewrite length_skipn. lia.
Qed.

Lemma length_slice_le {A : Type} (a b : nat) (l : list A) :
  length (slice a b l) <= b - a.
Proof. unfold slice. rewrite length_firstn. lia. Qed.

Lemma length_concat_sum {A : Type} (ll : list (list A)) :
  length (concat ll) = list_sum (map (@length A) ll).
Proof.
  induction ll as [|x ll IH]; simpl; [reflexivity|].
  now rewrite length_app, IH.
Qed.

Lemma filter_all {A : Type} (f : A -> bool) (l : list A) :
  Forall (fun x => f x = true) l -> filter f l = l.
Proof.
  induction 1 as [|x l Hx _ IH]; simpl; [reflexivity|].
  now rewrite Hx, IH.
Qed.

Lemma strip_nil : strip [] = [].
Proof. reflexivity. Qed.

Lemma nonblank_nonempty (s : str) : nonblank s = true -> truthy s = true.
Proof. destruct s; [discriminate | reflexivity]. Qed.

(** ** Patterns that cannot match *)

Lemma contains_false (c : char) (s : str) :
  contains c s = false <-> ~ In c s.
Proof.
  unfold contains. split.
  - intros H Hin. assert (E : existsb (N.eqb c) s = true).
    { apply existsb_exists. exists c. split; [exact Hin | apply N.eqb_refl]. }
    congruence.
  - intros H. destruct (existsb (N.eqb c) s) eqn:E; [|reflexivity].
    apply existsb_exists in E. destruct E as [x [Hx Hc]].
    apply N.eqb_eq in Hc. subst x. contradiction.
Qed.

Lemma begins_with_no_match (c : char) (r : regex) :
  begins_with c r = true ->
  forall prev s cap k, hd_error s <> Some c -> rmatch r prev s cap k = None.
Proof.
  induction r as [|c'|p|r1 IH1 r2 IH2|r1 IH1 r2 IH2|g lo hi p|r1 IH1|w p|w p];
    intros Hb prev s cap k Hs; cbn [begins_with] in Hb; try discriminate;
    cbn [rmatch].
  - apply N.eqb_eq in Hb. subst c'. destruct s as [|x t]; [reflexivity|].
    destruct (N.eqb_spec x c) as [->|Hne]; [|reflexivity].
    exfalso. apply Hs. reflexivity.
  - now apply IH1.
  - apply andb_prop in Hb. destruct Hb as [H1 H2].
    rewrite (IH1 H1), (IH2 H2) by exact Hs. reflexivity.
  - now apply IH1.
Qed.

Lemma sub_from_absent (c : char) (r : regex) (repl : option str -> str) :
  begins_with c r = true ->
  forall s prev, ~ In c s -> sub_from r repl 0 prev s = s.
Proof.
  intros Hb. induction s as [|x t IH]; intros prev Hs; cbn [sub_from];
    unfold match_at.
  - rewrite (begins_with_no_match c r Hb); [reflexivity | discriminate].
  - rewrite (begins_with_no_match c r Hb).
    + f_equal. apply IH. intros Hin. apply Hs. now right.
    + cbn [hd_error]. intros E. injection E as ->. apply Hs. now left.
Qed.

(** A substitution leaves a text unchanged when the pattern needs a first
    character the text does not have. *)
Lemma re_sub_absent (c : char) (r : regex) (repl : option str -> str)
    (s : str) :
  begins_with c r = true -> ~ In c s -> re_sub r repl s = s.
Proof. intros Hb Hs. now apply (sub_from_absent c r repl Hb). Qed.

Lemma replace_from_absent (c : char) (old' new : str) :
  forall s, ~ In c s -> replace_from (c :: old') new 0 s = s.
Proof.
  induction s as [|x t IH]; intros Hs; cbn [replace_from]; [reflexivity|].
  cbn [starts_with].
  destruct (N.eqb_spec c x) as [->|Hne].
  - exfalso. apply Hs. now left.
  - cbn [andb]. f_equal. apply IH. intros Hin. apply Hs. now right.
Qed.

Lemma fold_replace_absent (c : char) (table : list (str * str)) :
  Forall (fun entry => hd_error (fst entry) = Some c) table ->
  forall s, ~ In c s ->
    fold_left (fun text '(old, new) => str_replace old new text) table s = s.
Proof.
  induction 1 as [|[old new] rest Hold _ IH]; intros s Hs; cbn [fold_left];
    [reflexivity|].
  cbn [fst] in Hold. destruct old as [|c0 old']; [discriminate|].
  injection Hold as ->. unfold str_replace at 2.
  rewrite replace_from_absent by exact Hs. now apply IH.
Qed.

(** ** Whitespace *)

Lemma rep_match_spaces (s : str) :
  forall prev,
    rep_match true isspace 0 None prev s None accept
    = Some (None, lstrip_with isspace s).
Proof.
  induction s as [|c t IH]; intros prev; cbn [rep_match lstrip_with];
    [reflexivity|].
  cbn [andb pred option_map]. destruct (isspace c); [|reflexivity].
  rewrite IH. reflexivity.
Qed.

Lemma length_lstrip (s : str) :
  length (lstrip_with isspace s) + leading s = length s.
Proof.
  induction s as [|c t IH]; cbn [lstrip_with leading]; [reflexivity|].
  destruct (isspace c); cbn [length]; lia.
Qed.

Lemma match_at_spaces (prev : option char) (s : str) :
  match_at spaces prev s
  = match s with
    | [] => None
    | c :: t =>
        if isspace c then Some (None, lstrip_with isspace t) else None
    end.
Proof.
  unfold match_at, spaces, plus. cbn [rmatch].
  destruct s as [|c t]; cbn [rep_match]; [reflexivity|].
  cbn [andb pred option_map]. destruct (isspace c); [|reflexivity].
  fold accept. rewrite rep_match_spaces. reflexivity.
Qed.

Lemma sub_from_spaces (s : str) :
  forall prev,
    sub_from spaces (const (L " ")) 0 prev s = collapse false s
    /\ sub_from spaces (const (L " ")) (leading s) prev s = collapse true s.
Proof.
  induction s as [|c t IH]; intros prev.
  - split; reflexivity.
  - cbn [leading collapse]. cbn [sub_from]. rewrite match_at_spaces.
    destruct (isspace c) eqn:Hc.
    + pose proof (length_lstrip t) as Hl.
      replace (length (c :: t) - length (lstrip_with isspace t))
        with (S (leading t)) by (cbn [length]; lia).
      destruct (IH (Some c)) as [_ IH2]. rewrite IH2. split; reflexivity.
    + destruct (IH (Some c)) as [IH1 _]. rewrite IH1. split; reflexivity.
Qed.

Lemma re_sub_spaces (s : str) :
  re_sub spaces (const (L " ")) s = collapse false s.
Proof. apply (sub_from_spaces s None). Qed.

Lemma collapse_collapse (s : str) :
  (forall b, collapse false (collapse b s) = collapse b s)
  /\ collapse true (collapse true s) = collapse true s.
Proof.
  induction s as [|c t [IH1 IH2]]; [split; reflexivity|].
  assert (Hsp : isspace 32 = true) by reflexivity.
  split; [intros b|]; cbn [collapse]; destruct (isspace c) eqn:Hc.
  - destruct b; [apply IH1|]. cbn [collapse]. rewrite Hsp. now rewrite IH2.
  - cbn [collapse]. rewrite Hc. now rewrite IH1.
  - apply IH2.
  - cbn [collapse]. rewrite Hc. now rewrite IH1.
Qed.

Lemma length_collapse (s : str) :
  forall b, length (collapse b s) <= length s.
Proof.
  induction s as [|c t IH]; intros b; cbn [collapse length]; [lia|].
  pose proof (IH true). pose proof (IH false).
  destruct (isspace c); destruct b; cbn [length]; lia.
Qed.

Lemma collapse_true_false (s : str) :
  collapse true s = s -> collapse false s = s.
Proof.
  destruct s as [|c t]; [reflexivity|]. cbn [collapse].
  destruct (isspace c) eqn:Hc; [|tauto].
  intros H. exfalso. pose proof (length_collapse t true) as Hl.
  rewrite H in Hl. cbn [length] in Hl. lia.
Qed.

Lemma tidy_suffix (a b : str) : tidy (a ++ b) -> tidy b.
Proof.
  unfold tidy. induction a as [|x a IH]; [tauto|].
  cbn [app collapse]. destruct (isspace x); intros H.
  - injection H as _ H. apply IH. now apply collapse_true_false.
  - injection H as H. now apply IH.
Qed.

Lemma collapse_prefix (a b : str) :
  forall flag, collapse flag (a ++ b) = a ++ b -> collapse flag a = a.
Proof.
  induction a as [|x a IH]; intros flag; [reflexivity|].
  cbn [app collapse]. destruct (isspace x); [destruct flag|]; intros H.
  - exfalso. pose proof (length_collapse (a ++ b) true) as Hl.
    rewrite H in Hl. cbn [length] in Hl. lia.
  - injection H as Hx H. now rewrite Hx, (IH true H).
  - injection H as H. now rewrite (IH false H).
Qed.

Lemma tidy_prefix (a b : str) : tidy (a ++ b) -> tidy a.
Proof. apply collapse_prefix. Qed.

Lemma lstrip_suffix (p : char -> bool) (s : str) :
  exists w, s = w ++ lstrip_with p s.
Proof.
  induction s as [|c t [w IH]]; [now exists []|]. cbn [lstrip_with].
  destruct (p c).
  - exists (c :: w). cbn [app]. now rewrite <- IH.
  - now exists [].
Qed.

Lemma rstrip_prefix (p : char -> bool) (s : str) :
  exists w, s = rstrip_with p s ++ w.
Proof.
  unfold rstrip_with. destruct (lstrip_suffix p (rev s)) as [w Hw].
  exists (rev w). rewrite <- rev_app_distr, <- Hw. now rewrite rev_involutive.
Qed.

Lemma lstrip_head (p : char -> bool) (s : str) (c : char) (t : str) :
  lstrip_with p s = c :: t -> p c = false.
Proof.
  induction s as [|x s IH]; cbn [lstrip_with]; [discriminate|].
  destruct (p x) eqn:Hx; [exact IH|]. intros H. injection H as -> _. exact Hx.
Qed.

Lemma lstrip_lstrip (p : char -> bool) (s : str) :
  lstrip_with p (lstrip_with p s) = lstrip_with p s.
Proof.
  destruct (lstrip_with p s) as [|c t] eqn:E; [reflexivity|].
  cbn [lstrip_with]. now rewrite (lstrip_head p s c t E).
Qed.

Lemma rstrip_rstrip (p : char -> bool) (s : str) :
  rstrip_with p (rstrip_with p s) = rstrip_with p s.
Proof. unfold rstrip_with. now rewrite rev_involutive, lstrip_lstrip. Qed.

Lemma strip_tidy (s : str) : tidy s -> tidy (strip s).
Proof.
  intros H. unfold strip.
  destruct (lstrip_suffix isspace s) as [w Hw].
  destruct (rstrip_prefix isspace (lstrip_with isspace s)) as [w' Hw'].
  rewrite Hw in H. apply tidy_suffix in H. rewrite Hw' in H.
  now apply tidy_prefix in H.
Qed.

Lemma strip_strip (s : str) : strip (strip s) = strip s.
Proof.
  unfold strip. set (l := lstrip_with isspace s).
  assert (E : lstrip_with isspace (rstrip_with isspace l)
              = rstrip_with isspace l).
  { destruct (rstrip_prefix isspace l) as [w Hw].
    destruct (rstrip_with isspace l) as [|y r] eqn:Er; [reflexivity|].
    cbn [lstrip_with]. unfold l in Hw. cbn [app] in Hw.
    now rewrite (lstrip_head isspace s y (r ++ w) Hw). }
  rewrite E. apply rstrip_rstrip.
Qed.

Lemma normalize_whitespace_collapse (s : str) :
  _normalize_whitespace s = strip (collapse false s).
Proof.
  unfold _normalize_whitespace. destruct s as [|c t]; [reflexivity|].
  cbn [truthy negb]. now rewrite re_sub_spaces.
Qed.

Lemma normalize_whitespace_idempotent (s : str) :
  _normalize_whitespace (_normalize_whitespace s) = _normalize_whitespace s.
Proof.
  rewrite !normalize_whitespace_collapse.
  assert (T : tidy (strip (collapse false s))).
  { apply strip_tidy. apply (proj1 (collapse_collapse s) false). }
  rewrite T. apply strip_strip.
Qed.

Lemma collapse_no_space (s : str) :
  forallb (fun c => negb (isspace c)) s = true ->
  forall b, collapse b s = s.
Proof.
  induction s as [|c t IH]; intros H b; [reflexivity|].
  cbn [forallb] in H. apply andb_prop in H. destruct H as [Hc Ht].
  cbn [collapse]. destruct (isspace c); [discriminate|].
  now rewrite (IH Ht).
Qed.

Lemma lstrip_no_space (s : str) :
  forallb (fun c => negb (isspace c)) s = true -> lstrip_with isspace s = s.
Proof.
  destruct s as [|c t]; [reflexivity|]. cbn [forallb lstrip_with].
  intros H. apply andb_prop in H. destruct H as [Hc _].
  now destruct (isspace c).
Qed.

Lemma strip_no_space (s : str) :
  forallb (fun c => negb (isspace c)) s = true -> strip s = s.
Proof.
  intros H. unfold strip, rstrip_with. rewrite (lstrip_no_space s H).
  rewrite lstrip_no_space; [apply rev_involutive|].
  apply forallb_forall. intros x Hx. apply in_rev in Hx.
  revert x Hx. now apply forallb_forall.
Qed.

(** ** The text normalizer *)

Section Normalizer.

Variable html5 : str -> option str.

Lemma clean_html_entities_absent (s : str) :
  ~ In (ch "&") s -> _clean_html_entities html5 s = s.
Proof.
  intros H. unfold _clean_html_entities. destruct s as [|c t]; [reflexivity|].
  cbn [truthy negb]. unfold html_unescape.
  rewrite (proj2 (contains_false _ _) H). cbn [negb].
  apply (fold_replace_absent (ch "&")); [|exact H].
  unfold replacements. repeat constructor.
Qed.

Lemma clean_escape_characters_absent (s : str) :
  ~ In backslash s -> _clean_escape_characters s = s.
Proof.
  intros H. unfold _clean_escape_characters.
  destruct s as [|c t]; [reflexivity|]. cbn [truthy negb].
  repeat rewrite (re_sub_absent backslash _ _ (c :: t))
    by (reflexivity || exact H).
  reflexivity.
Qed.

Lemma remove_html_tags_absent (s : str) :
  ~ In (ch "<") s -> _remove_html_tags s = s.
Proof.
  intros H. unfold _remove_html_tags.
  destruct s as [|c t]; [reflexivity|]. cbn [truthy negb].
  repeat rewrite (re_sub_absent (ch "<") _ _ (c :: t))
    by (reflexivity || exact H).
  reflexivity.
Qed.

(** On a text without ampersand, backslash and [<], only the whitespace
    step acts. *)
Lemma clean_text_plain (s : str) :
  contains (ch "&") s = false ->
  contains backslash s = false ->
  contains (ch "<") s = false ->
  clean_text html5 s = _normalize_whitespace s.
Proof.
  intros Ha Hb Hl. unfold clean_text.
  apply contains_false in Ha, Hb, Hl.
  now rewrite clean_html_entities_absent, clean_escape_characters_absent,
    remove_html_tags_absent.
Qed.

(** C4, amended. The normalizer is idempotent on every input whose
    normalized form holds no ampersand, no backslash and no [<]:
    normalizing that form again returns it unchanged. *)
Theorem normalize_idempotent_when_plain (x : str) :
  let y := _validate_and_clean_text_input html5 (PyStr x) in
  contains (ch "&") y = false ->
  contains backslash y = false ->
  contains (ch "<") y = false ->
  _validate_and_clean_text_input html5 (PyStr y) = y.
Proof.
  intros y Ha Hb Hl.
  change (_validate_and_clean_text_input html5 (PyStr y))
    with (clean_text html5 y).
  rewrite (clean_text_plain y Ha Hb Hl). unfold y.
  cbn [_validate_and_clean_text_input]. unfold clean_text.
  apply normalize_whitespace_idempotent.
Qed.

Lemma plain_not_contains (c : char) (s : str) :
  plain_char c = false -> forallb plain_char s = true -> contains c s = false.
Proof.
  intros Hc Hs. apply contains_false. intros Hin.
  rewrite forallb_forall in Hs. specialize (Hs c Hin). congruence.
Qed.

Lemma clean_text_plain_chars (s : str) :
  forallb plain_char s = true -> clean_text html5 s = s.
Proof.
  intros H.
  rewrite clean_text_plain
    by (apply plain_not_contains; [reflexivity | exact H]).
  assert (Hs : forallb (fun c => negb (isspace c)) s = true).
  { apply forallb_forall. intros c Hc. rewrite forallb_forall in H.
    specialize (H c Hc). unfold plain_char in H.
    now destruct (isspace c). }
  rewrite normalize_whitespace_collapse, collapse_no_space by exact Hs.
  now apply strip_no_space.
Qed.

Lemma digits_plain (d : Decimal.uint) :
  forallb plain_char (digits_of_uint d) = true.
Proof.
  induction d; cbn [digits_of_uint forallb]; try rewrite IHd; reflexivity.
Qed.

Lemma str_of_Z_plain (n : Z) : forallb plain_char (str_of_Z n) = true.
Proof.
  destruct n as [|p|p]; cbn [str_of_Z]; [reflexivity | apply digits_plain |].
  cbn [forallb]. now rewrite digits_plain.
Qed.

Lemma str_of_Z_nonempty (n : Z) : truthy (str_of_Z n) = true.
Proof.
  destruct n as [|p|p]; cbn [str_of_Z]; try reflexivity.
  pose proof (DecimalPos.Unsigned.to_uint_nonnil p) as H.
  destruct (Pos.to_uint p); [contradiction | reflexivity ..].
Qed.

(** C5, amended. [None] is normalized to the empty string; any other
    value that is not a string is first converted with [str] and then
    cleaned like a string, so the result is in general not empty: an
    integer gives its decimal digits, a boolean gives [True] or [False].
    The normalizer adds no error of its own: it returns a string for
    every value [str] converts. *)
Theorem validate_and_clean_non_string :
  _validate_and_clean_text_input html5 PyNone = []
  /\ (forall v,
        _validate_and_clean_text_input html5 v
        = match v with
          | PyNone => []
          | _ => _validate_and_clean_text_input html5 (PyStr (py_str v))
          end)
  /\ (forall n,
        _validate_and_clean_text_input html5 (PyInt n) = str_of_Z n
        /\ truthy (str_of_Z n) = true)
  /\ (forall b,
        _validate_and_clean_text_input html5 (PyBool b)
        = if b then L "True" else L "False").
Proof.
  split; [reflexivity|]. split; [now intros [ | s | n | b]|]. split.
  - intros n. split; [|apply str_of_Z_nonempty].
    cbn [_validate_and_clean_text_input py_str].
    apply clean_text_plain_chars, str_of_Z_plain.
  - intros [|]; cbn [_validate_and_clean_text_input py_str];
      now apply clean_text_plain_chars.
Qed.

End Normalizer.

(** C4, as stated, fails: an escaped backslash before a star loses one
    backslash at each pass. *)
Lemma normalize_not_idempotent :
  _validate_and_clean_text_input html5_core
    (PyStr [backslash; backslash; ch "*"]) = [backslash; ch "*"]
  /\ _validate_and_clean_text_input html5_core
       (PyStr (_validate_and_clean_text_input html5_core
                 (PyStr [backslash; backslash; ch "*"]))) = [ch "*"]
  /\ str_eqb
       (_validate_and_clean_text_input html5_core
          (PyStr (_validate_and_clean_text_input html5_core
                    (PyStr [backslash; backslash; ch "*"]))))
       (_validate_and_clean_text_input html5_core
          (PyStr [backslash; backslash; ch "*"])) = false.
Proof. vm_compute. repeat split. Qed.

Lemma normalize_idempotent_when_plain_witness :
  (contains (ch "&")
     (_validate_and_clean_text_input html5_core (PyStr markup_text)) = false
   /\ contains backslash
        (_validate_and_clean_text_input html5_core (PyStr markup_text)) = false
   /\ contains (ch "<")
        (_validate_and_clean_text_input html5_core (PyStr markup_text)) = false)
  /\ _validate_and_clean_text_input html5_core
       (PyStr (_validate_and_clean_text_input html5_core (PyStr markup_text)))
     = _validate_and_clean_text_input html5_core (PyStr markup_text).
Proof.
  assert (Ha : contains (ch "&")
     (_validate_and_clean_text_input html5_core (PyStr markup_text)) = false)
    by (vm_compute; reflexivity).
  assert (Hb : contains backslash
     (_validate_and_clean_text_input html5_core (PyStr markup_text)) = false)
    by (vm_compute; reflexivity).
  assert (Hl : contains (ch "<")
     (_validate_and_clean_text_input html5_core (PyStr markup_text)) = false)
    by (vm_compute; reflexivity).
  split; [repeat split; assumption|].
  exact (normalize_idempotent_when_plain html5_core markup_text Ha Hb Hl).
Defined.

(** C5, as stated, fails for a value that is not a string: the integer 42
    is normalized to ["42"], not to the empty string. *)
Lemma validate_and_clean_int_not_empty :
  _validate_and_clean_text_input html5_core (PyInt 42) = L "42"
  /\ truthy (_validate_and_clean_text_input html5_core (PyInt 42)) = true.
Proof. vm_compute. split; reflexivity. Qed.

(** ** The rich-text formatter *)

Section Formatter.

Variable html5 : str -> option str.

(** C9. Formatting ["This is **bold** and *italic* text"] gives, in order,
    the runs plain ["This is "], bold ["bold"], plain [" and "], italic
    ["italic"] and plain [" text"], without the markers. *)
Theorem format_runs_scenario :
  styled_runs
    (_apply_text_formatting html5 [] (L "This is **bold** and *italic* text"))
  = [ (Plain, L "This is "); (Bold, L "bold"); (Plain, L " and ");
      (Italic, L "italic"); (Plain, L " text") ].
Proof. vm_compute. reflexivity. Qed.

(** The paragraph is cleared first: what it held does not matter. *)
Lemma apply_text_formatting_clears (p : paragraph) (original_text : str) :
  truthy original_text = true ->
  _apply_text_formatting html5 p original_text
  = _apply_text_formatting html5 [] original_text.
Proof. intros H. unfold _apply_text_formatting. now rewrite H. Qed.

End Formatter.

(** ** The bullet splitter: groups of sentences and clauses *)

Lemma regroup_from_groups (cap : nat) (sep : str) (pieces : list str) :
  forall groups current_group current_length,
    regroup_from cap sep pieces (map (join sep) groups) current_group
      current_length
    = map (join sep)
        (groups_from cap pieces groups current_group current_length).
Proof.
  induction pieces as [|piece rest IH]; intros groups cg cl;
    cbn [regroup_from groups_from]; unfold flush.
  - destruct (truthy cg); [|reflexivity].
    now rewrite map_app.
  - destruct ((cl + length (strip piece) <=? cap) && truthy cg).
    + apply IH.
    + destruct (truthy cg); [|apply IH].
      rewrite <- IH. now rewrite map_app.
Qed.

Lemma regroup_groups (cap : nat) (sep : str) (pieces : list str) :
  regroup cap sep pieces = map (join sep) (groups_of cap pieces).
Proof. apply (regroup_from_groups cap sep pieces [] [] 0). Qed.

Lemma total_length_app (a b : list str) :
  total_length (a ++ b) = total_length a + total_length b.
Proof. unfold total_length. now rewrite map_app, list_sum_app. Qed.

Lemma groups_from_concat (cap : nat) (pieces : list str) :
  forall groups current_group current_length,
    concat (groups_from cap pieces groups current_group current_length)
    = concat groups ++ current_group ++ map strip pieces.
Proof.
  induction pieces as [|piece rest IH]; intros groups cg cl;
    cbn [groups_from map].
  - rewrite app_nil_r. destruct cg; cbn [truthy].
    + now rewrite app_nil_r.
    + rewrite concat_app. cbn [concat]. now rewrite app_nil_r.
  - destruct ((cl + length (strip piece) <=? cap) && truthy cg).
    + rewrite IH. now rewrite <- !app_assoc.
    + rewrite IH. destruct cg; cbn [truthy app]; [reflexivity|].
      rewrite concat_app. cbn [concat]. now rewrite app_nil_r, <- !app_assoc.
Qed.

Lemma groups_from_within_cap (cap : nat) (pieces : list str) :
  forall groups current_group current_length,
    Forall (within_cap cap) groups ->
    current_group = [] \/ within_cap cap current_group ->
    current_length = total_length current_group ->
    Forall (within_cap cap)
      (groups_from cap pieces groups current_group current_length).
Proof.
  induction pieces as [|piece rest IH]; intros groups cg cl Hg Hc Hl;
    cbn [groups_from].
  - destruct cg; cbn [truthy]; [exact Hg|].
    apply Forall_app. split; [exact Hg|].
    constructor; [|constructor].
    destruct Hc as [Hc|Hc]; [discriminate | exact Hc].
  - destruct (Nat.leb_spec (cl + length (strip piece)) cap) as [Hfit|Hno];
      cbn [andb].
    + destruct cg as [|c cg']; cbn [truthy].
      * apply IH; [exact Hg | right | ].
        -- split; [discriminate | left; reflexivity].
        -- unfold total_length. simpl. lia.
      * apply IH; [exact Hg | right | ].
        -- split; [destruct cg'; discriminate|]. right.
           rewrite total_length_app. unfold total_length at 2. simpl. lia.
        -- rewrite total_length_app. unfold total_length at 2. simpl. lia.
    + apply IH.
      * destruct cg; cbn [truthy]; [exact Hg|].
        apply Forall_app. split; [exact Hg|].
        constructor; [|constructor].
        destruct Hc as [Hc|Hc]; [discriminate | exact Hc].
      * right. split; [discriminate | left; reflexivity].
      * unfold total_length. simpl. lia.
Qed.

Lemma greedy_groups_grow (cap : nat) (piece : str) (current : list str) :
  current <> [] ->
  forall groups,
    greedy_groups cap (groups ++ [current]) ->
    greedy_groups cap (groups ++ [current ++ [piece]]).
Proof.
  intros Hne. induction groups as [|g groups IH]; [easy|].
  destruct groups as [|g' groups]; cbn [app greedy_groups] in *.
  - intros [H _]. split; [|exact I].
    destruct current; [contradiction | exact H].
  - intros [H Hrest]. split; [exact H | now apply IH].
Qed.

Lemma greedy_groups_close (cap : nat) (current next : list str) :
  cap < total_length current + length (hd [] next) ->
  forall groups,
    greedy_groups cap (groups ++ [current]) ->
    greedy_groups cap ((groups ++ [current]) ++ [next]).
Proof.
  intros Hover. induction groups as [|g groups IH]; [easy|].
  destruct groups as [|g' groups]; cbn [app greedy_groups] in *.
  - intros [H _]. split; [exact H | easy].
  - intros [H Hrest]. split; [exact H | now apply IH].
Qed.

Ltac total_length_single := unfold total_length; simpl; lia.

Lemma groups_from_greedy (cap : nat) (pieces : list str) :
  forall groups current_group current_length,
    current_length = total_length current_group ->
    (current_group = [] -> groups = []) ->
    (current_group <> [] -> greedy_groups cap (groups ++ [current_group])) ->
    greedy_groups cap
      (groups_from cap pieces groups current_group current_length).
Proof.
  induction pieces as [|piece rest IH]; intros groups cg cl Hl He Hg;
    cbn [groups_from].
  - destruct cg; cbn [truthy]; [now rewrite He | now apply Hg].
  - destruct (Nat.leb_spec (cl + length (strip piece)) cap) as [Hfit|Hno];
      cbn [andb]; (destruct cg as [|c cg']; cbn [truthy]).
    + rewrite (He eq_refl).
      apply IH; [total_length_single | discriminate | easy].
    + apply IH.
      * rewrite total_length_app. unfold total_length at 2. simpl. lia.
      * discriminate.
      * intros _. apply greedy_groups_grow; [discriminate|].
        apply Hg. discriminate.
    + rewrite (He eq_refl).
      apply IH; [total_length_single | discriminate | easy].
    + apply IH; [total_length_single | discriminate |]. intros _.
      apply greedy_groups_close; [|apply Hg; discriminate].
      cbn [hd]. lia.
Qed.

Section SentencePath.

Variable html5 : str -> option str.

(** On the sentence path (cleaned text longer than 250 characters, more
    than one sentence) the chunks returned are the
    single-space joins of groups of consecutive sentences; a group of two
    sentences or more has sentences whose lengths sum to 200 at most, a
    group may be one sentence of any length, and the grouping is greedy:
    the first sentence of a group did not fit in the group before it. *)
Theorem split_long_bullet_sentence_groups (text : str) :
  let cleaned := _validate_and_clean_text_input html5 (PyStr text) in
  let sentences := re_split sentence_end cleaned in
  250 < length cleaned ->
  1 < length sentences ->
  _split_long_bullet html5 text
  = filter nonblank (map (join (L " ")) (groups_of 200 sentences))
  /\ concat (groups_of 200 sentences) = map strip sentences
  /\ Forall (within_cap 200) (groups_of 200 sentences)
  /\ greedy_groups 200 (groups_of 200 sentences).
Proof.
  intros cleaned sentences Hlen Hsent.
  split; [|split; [|split]].
  - unfold _split_long_bullet.
    destruct text as [|c text'].
    + exfalso. vm_compute in Hlen. lia.
    + cbn [truthy negb]. fold cleaned. fold sentences.
      replace (length cleaned <=? 250) with false
        by (symmetry; apply Nat.leb_gt; exact Hlen).
      replace (1 <? length sentences) with true
        by (symmetry; apply Nat.ltb_lt; exact Hsent).
      now rewrite regroup_groups.
  - unfold groups_of. now rewrite groups_from_concat.
  - unfold groups_of. apply groups_from_within_cap;
      [constructor | now left | reflexivity].
  - unfold groups_of. apply groups_from_greedy; [reflexivity | easy | easy].
Qed.

(** C8. On [sentence_text] (101 sentences of two characters, 302
    characters in all) the sentence path is taken and the chunks returned
    have 299 and 2 characters. The test on the cap,
    [current_length + len(sentence) <= 200], adds up the lengths of the
    sentences and leaves out the spaces that join them: the first hundred
    sentences count for 200 and are joined, with their 99 spaces, into a
    chunk of 299 characters, where the cap of 200 asks for a new chunk
    after 67 sentences. *)
Theorem split_long_bullet_cap_ignores_spaces :
  let cleaned := _validate_and_clean_text_input html5 (PyStr sentence_text) in
  let sentences := re_split sentence_end cleaned in
  length cleaned = 302
  /\ sentences = repeat (L "a.") 101
  /\ _split_long_bullet html5 sentence_text
     = [ join (L " ") (repeat (L "a.") 100); L "a." ]
  /\ total_length (repeat (L "a.") 100) = 200
  /\ map (@length char) (_split_long_bullet html5 sentence_text) = [299; 2]
  /\ length (join (L " ") (repeat (L "a.") 67)) = 200
  /\ length (join (L " ") (repeat (L "a.") 68)) = 203.
Proof. vm_compute. repeat split. Qed.

End SentencePath.

(** A sentence is never cut: the sentence path is taken on
    [long_sentence_text] (264 characters, two sentences) and the first
    chunk returned is the first sentence, of 261 characters. *)
Lemma split_long_bullet_chunk_over_200 :
  length (_validate_and_clean_text_input html5_core (PyStr long_sentence_text))
  = 264
  /\ length (re_split sentence_end
               (_validate_and_clean_text_input html5_core
                  (PyStr long_sentence_text))) = 2
  /\ map (@length char) (_split_long_bullet html5_core long_sentence_text)
     = [261; 2].
Proof. vm_compute. repeat split. Qed.

(** Two sentences of 100 characters are grouped, their lengths adding up
    to the cap, and the chunk that joins them has 201 characters: the cap
    is on the sentences, not on the joined chunk. *)
Example split_long_bullet_two_sentences :
  map (@length char)
    (_split_long_bullet html5_core
       (join (L " ") (repeat (times 99 (L "a") ++ L ".") 3)))
  = [201; 100].
Proof. vm_compute. reflexivity. Qed.

Lemma split_long_bullet_sentence_groups_witness :
  (250 < length (_validate_and_clean_text_input html5_core
                   (PyStr long_sentence_text))
   /\ 1 < length (re_split sentence_end
                    (_validate_and_clean_text_input html5_core
                       (PyStr long_sentence_text))))
  /\ (_split_long_bullet html5_core long_sentence_text
      = filter nonblank
          (map (join (L " "))
             (groups_of 200
                (re_split sentence_end
                   (_validate_and_clean_text_input html5_core
                      (PyStr long_sentence_text)))))
      /\ concat (groups_of 200
                   (re_split sentence_end
                      (_validate_and_clean_text_input html5_core
                         (PyStr long_sentence_text))))
         = map strip
             (re_split sentence_end
                (_validate_and_clean_text_input html5_core
                   (PyStr long_sentence_text)))
      /\ Forall (within_cap 200)
           (groups_of 200
              (re_split sentence_end
                 (_validate_and_clean_text_input html5_core
                    (PyStr long_sentence_text))))
      /\ greedy_groups 200
           (groups_of 200
              (re_split sentence_end
                 (_validate_and_clean_text_input html5_core
                    (PyStr long_sentence_text))))).
Proof.
  assert (H1 : 250 < length (_validate_and_clean_text_input html5_core
                              (PyStr long_sentence_text))).
  { vm_compute. lia. }
  assert (H2 : 1 < length (re_split sentence_end
                            (_validate_and_clean_text_input html5_core
                               (PyStr long_sentence_text)))).
  { vm_compute. lia. }
  split; [split; assumption|].
  exact (split_long_bullet_sentence_groups html5_core long_sentence_text H1 H2).
Defined.

(** ** The bullet splitter: the chunks returned *)

Lemma lstrip_keeps (c : char) (s : str) :
  In c s -> isspace c = false -> In c (lstrip_with isspace s).
Proof.
  intros Hin Hc. induction s as [|x t IH]; [contradiction|].
  cbn [lstrip_with]. destruct (isspace x) eqn:Hx; [|exact Hin].
  destruct Hin as [->|Hin]; [congruence | now apply IH].
Qed.

Lemma nonblank_ink (s : str) : nonblank s = true <-> has_ink s.
Proof.
  unfold nonblank, has_ink. rewrite truthy_true. split.
  - intros H. unfold strip, rstrip_with in H.
    destruct (lstrip_with isspace (rev (lstrip_with isspace s)))
      as [|c t] eqn:E; [contradiction|].
    exists c. split; [|exact (lstrip_head isspace _ c t E)].
    destruct (lstrip_suffix isspace s) as [w Hw].
    destruct (lstrip_suffix isspace (rev (lstrip_with isspace s))) as [w' Hw'].
    rewrite Hw. apply in_or_app. right. apply in_rev. rewrite Hw', E.
    apply in_or_app. right. now left.
  - intros [c [Hin Hc]] E.
    assert (H : In c (strip s)).
    { unfold strip, rstrip_with. apply -> in_rev.
      apply lstrip_keeps; [|exact Hc]. apply -> in_rev.
      now apply lstrip_keeps. }
    rewrite E in H. contradiction.
Qed.

(** A pattern that starts with a look-behind for one of [stops] followed
    by whitespace matches only after one of [stops]. *)
Lemma match_at_after_stop (stops : str) (prev : option char) (s : str)
    (result : option str * str) :
  match_at (Seq (Behind true (one_of stops)) spaces) prev s = Some result ->
  exists c, prev = Some c /\ one_of stops c = true.
Proof.
  unfold match_at. cbn [rmatch]. destruct prev as [c|]; cbn [Bool.eqb].
  - destruct (one_of stops c) eqn:E; [|discriminate]. intros _. now exists c.
  - discriminate.
Qed.

(** The first piece of a split at such a pattern holds a character that is
    not whitespace, when the text does and no stop is whitespace. *)
Lemma split_from_first_piece (stops : str) :
  (forall c, one_of stops c = true -> isspace c = false) ->
  forall s cur prev,
    prev = hd_error cur ->
    has_ink (rev cur ++ s) ->
    exists piece rest,
      split_from (Seq (Behind true (one_of stops)) spaces) 0 prev cur s
      = piece :: rest
      /\ has_ink piece.
Proof.
  intros Hstops. set (r := Seq (Behind true (one_of stops)) spaces).
  assert (Hcur : forall cur prev result s,
            prev = hd_error cur -> match_at r prev s = Some result ->
            has_ink (rev cur)).
  { intros cur prev result s Hp Hm.
    destruct (match_at_after_stop stops prev s result Hm) as [c [Hc Hs]].
    rewrite Hc in Hp. destruct cur as [|x cur']; [discriminate|].
    injection Hp as <-. exists c. split; [|now apply Hstops].
    apply -> in_rev. now left. }
  induction s as [|c t IH]; intros cur prev Hp Hink; cbn [split_from].
  - rewrite app_nil_r in Hink.
    destruct (match_at r prev []) as [[cap rest]|]; eauto.
  - destruct (match_at r prev (c :: t)) as [[cap rest]|] eqn:Hm.
    + pose proof (Hcur cur prev _ _ Hp Hm) as Hi.
      destruct (length (c :: t) - length rest); eauto.
    + apply IH; [reflexivity|]. cbn [rev]. now rewrite <- app_assoc.
Qed.

Lemma re_split_first_piece (stops : str) (s : str) :
  (forall c, one_of stops c = true -> isspace c = false) ->
  has_ink s ->
  exists piece rest,
    re_split (Seq (Behind true (one_of stops)) spaces) s = piece :: rest
    /\ has_ink piece.
Proof.
  intros Hstops Hink. now apply (split_from_first_piece stops Hstops s [] None).
Qed.

Lemma punctuation_not_space (stops : str) :
  forallb (fun c => negb (isspace c)) stops = true ->
  forall c, one_of stops c = true -> isspace c = false.
Proof.
  intros H c Hc. unfold one_of in Hc. apply existsb_exists in Hc.
  destruct Hc as [x [Hx E]]. apply N.eqb_eq in E. subst x.
  rewrite forallb_forall in H. specialize (H c Hx). now destruct (isspace c).
Qed.

(** Regrouping pieces of which the first holds a character that is not
    whitespace, and dropping the blank chunks, leaves a chunk. *)
Lemma regroup_keeps_a_chunk (cap : nat) (sep : str) (piece : str)
    (rest : list str) :
  has_ink piece ->
  filter nonblank (regroup cap sep (piece :: rest)) <> [].
Proof.
  intros Hink. rewrite regroup_groups.
  pose proof (groups_from_concat cap (piece :: rest) [] [] 0) as Hc.
  pose proof (@groups_from_within_cap cap (piece :: rest) [] [] 0
                (Forall_nil _) (or_introl eq_refl) eq_refl) as Hw.
  fold (groups_of cap (piece :: rest)) in Hc, Hw.
  destruct (groups_of cap (piece :: rest)) as [|g gs]; [discriminate Hc|].
  inversion Hw as [|? ? [Hg _] _]; subst.
  destruct g as [|x g']; [contradiction|].
  cbn [concat app map] in Hc. injection Hc as Hx _.
  cbn [map filter].
  assert (Hj : nonblank (join sep (x :: g')) = true).
  { apply nonblank_ink. apply nonblank_ink in Hink.
    fold (nonblank (strip piece)). unfold nonblank in Hink |- *.
    assert (Hs : has_ink x).
    { subst x. apply nonblank_ink. unfold nonblank. now rewrite strip_strip. }
    destruct Hs as [c [Hin Hsp]]. exists c. split; [|exact Hsp].
    destruct g'; cbn [join]; [exact Hin | apply in_or_app; now left]. }
  rewrite Hj. discriminate.
Qed.

Section SplitterTotal.

Variable html5 : str -> option str.

(** The first half of C7: for every input, [_split_long_bullet] returns at
    least one chunk. *)
Lemma split_long_bullet_returns_a_chunk (text : str) :
  1 <= length (_split_long_bullet html5 text).
Proof.
  enough (H : _split_long_bullet html5 text <> []).
  { destruct (_split_long_bullet html5 text); [contradiction | cbn; lia]. }
  unfold _split_long_bullet.
  destruct (negb (truthy text)); [discriminate|].
  set (t := _validate_and_clean_text_input html5 (PyStr text)).
  destruct (Nat.leb_spec (length t) 250) as [_|Hlong]; [discriminate|].
  assert (Hink : has_ink t).
  { apply nonblank_ink. unfold nonblank, t.
    cbn [_validate_and_clean_text_input]. unfold clean_text.
    rewrite normalize_whitespace_collapse, strip_strip.
    rewrite <- normalize_whitespace_collapse. apply truthy_true.
    intros E. unfold t in Hlong. cbn [_validate_and_clean_text_input] in Hlong.
    unfold clean_text in Hlong. rewrite E in Hlong. cbn in Hlong. lia. }
  destruct (re_split_first_piece (L ".!?") t
              (punctuation_not_space (L ".!?") eq_refl) Hink)
    as [p1 [rest1 [E1 Hp1]]].
  destruct (re_split_first_piece (L ",;") t
              (punctuation_not_space (L ",;") eq_refl) Hink)
    as [p2 [rest2 [E2 Hp2]]].
  fold sentence_end in E1. fold clause_end in E2.
  destruct (1 <? length (re_split sentence_end t)).
  - rewrite E1. now apply regroup_keeps_a_chunk.
  - destruct (300 <? length t); [|discriminate].
    destruct (1 <? length (re_split clause_end t)); [|discriminate].
    rewrite E2. now apply regroup_keeps_a_chunk.
Qed.

(** C7. On [clause_text] the clause path joins 90 clauses with [", "]
    although each still ends with its comma: the first chunk has 358
    characters, more than the 302 of the input. *)
Theorem split_long_bullet_clause_chunk_longer :
  length clause_text = 302
  /\ _validate_and_clean_text_input html5 (PyStr clause_text) = clause_text
  /\ map (@length char) (_split_long_bullet html5 clause_text) = [358; 42]
  /\ hd [] (_split_long_bullet html5 clause_text)
     = join (L ", ") (repeat (L "a,") 90).
Proof. vm_compute. repeat split. Qed.

End SplitterTotal.

(** ** Title truncation *)

Section TruncateTitle.

Variable html5 : str -> option str.

Lemma truncate_words_length (words : list str) :
  forall truncated,
    length truncated <= MAX_TITLE_LENGTH - 3 ->
    length (truncate_words words truncated) <= MAX_TITLE_LENGTH - 3.
Proof.
  induction words as [|word rest IH]; intros truncated Ht;
    cbn [truncate_words]; [exact Ht|].
  destruct (Nat.leb_spec (length (truncated ++ L " " ++ word))
              (MAX_TITLE_LENGTH - 3)) as [Hfit|Hno]; [|exact Ht].
  apply IH. destruct truncated; simpl truthy; cbv iota.
  - rewrite !length_app in Hfit. change (length (L " ")) with 1 in Hfit. lia.
  - exact Hfit.
Qed.

(** C10. For every string, the result of [_truncate_title] has at most
    [MAX_TITLE_LENGTH] (65) characters, the appended ["..."] included. *)
Theorem truncate_title_length (title : str) :
  length (_truncate_title html5 title) <= MAX_TITLE_LENGTH.
Proof.
  unfold _truncate_title.
  set (t := _validate_and_clean_text_input html5 (PyStr title)).
  destruct (Nat.leb_spec (length t) MAX_TITLE_LENGTH) as [Hle|Hgt];
    [exact Hle|].
  destruct (negb (str_eqb (truncate_words (split_ws t) []) t)).
  - rewrite length_app.
    pose proof (truncate_words_length (split_ws t) []) as H.
    simpl length in *. unfold MAX_TITLE_LENGTH in *. lia.
  - rewrite length_app, length_firstn. simpl length.
    unfold MAX_TITLE_LENGTH in *. lia.
Qed.

Lemma str_eqb_eq (a b : str) : str_eqb a b = true <-> a = b.
Proof. unfold str_eqb. destruct (str_eq_dec a b); split; congruence. Qed.

(** A title longer than 65 characters, once cleaned, is never cut in the
    middle of a word: the branch that cuts at 62 characters is not
    reachable, and the result is the accumulated words and ["..."]. *)
Lemma truncate_title_long (title : str) :
  let cleaned := _validate_and_clean_text_input html5 (PyStr title) in
  MAX_TITLE_LENGTH < length cleaned ->
  _truncate_title html5 title
  = truncate_words (split_ws cleaned) [] ++ L "...".
Proof.
  intros cleaned Hlong. unfold _truncate_title. fold cleaned.
  replace (length cleaned <=? MAX_TITLE_LENGTH) with false
    by (symmetry; apply Nat.leb_gt; exact Hlong).
  destruct (str_eqb (truncate_words (split_ws cleaned) []) cleaned) eqn:E;
    [|reflexivity].
  exfalso. apply str_eqb_eq in E.
  pose proof (truncate_words_length (split_ws cleaned) []) as H.
  rewrite E in H. unfold MAX_TITLE_LENGTH in *. simpl length in H. lia.
Qed.

(** A cleaned title of 65 characters at most is returned as it is. *)
Lemma truncate_title_short (title : str) :
  let cleaned := _validate_and_clean_text_input html5 (PyStr title) in
  length cleaned <= MAX_TITLE_LENGTH ->
  _truncate_title html5 title = cleaned.
Proof.
  intros cleaned Hshort. unfold _truncate_title. fold cleaned.
  now replace (length cleaned <=? MAX_TITLE_LENGTH) with true
    by (symmetry; apply Nat.leb_le; exact Hshort).
Qed.

(** C6. A title longer than 65 characters whose first word does not fit
    in 62 characters: the specification asks for the title cut at 62
    characters and ["..."]; the program returns ["..."] alone, since the
    accumulated text, being empty, differs from the title. *)
Theorem truncate_title_no_word_fits :
  _truncate_title html5 long_word_title = L "..."
  /\ firstn (MAX_TITLE_LENGTH - 3) long_word_title ++ L "..."
     = times 62 (L "a") ++ L "..."
  /\ str_eqb (_truncate_title html5 long_word_title)
       (firstn (MAX_TITLE_LENGTH - 3) long_word_title ++ L "...") = false.
Proof. vm_compute. repeat split. Qed.

(** The scenario of the specification: 40 times ["A "]. *)
Example truncate_title_scenario :
  _truncate_title html5 (times 40 (L "A "))
  = join (L " ") (repeat (L "A") 31) ++ L "...".
Proof. vm_compute. reflexivity. Qed.

End TruncateTitle.

(** ** Topic deduplication *)

Lemma subseq_snoc_skip {A : Type} (kept all : list A) (x : A) :
  subseq kept all -> subseq kept (all ++ [x]).
Proof.
  induction 1; cbn [app].
  - apply subseq_skip, subseq_nil.
  - now apply subseq_skip.
  - now apply subseq_keep.
Qed.

Lemma subseq_snoc_keep {A : Type} (kept all : list A) (x : A) :
  subseq kept all -> subseq (kept ++ [x]) (all ++ [x]).
Proof.
  induction 1; cbn [app].
  - apply subseq_keep, subseq_nil.
  - now apply subseq_skip.
  - now apply subseq_keep.
Qed.

Lemma ForallOrdPairs_snoc {A : Type} (R : A -> A -> Prop) (l : list A) (x : A) :
  ForallOrdPairs R l -> Forall (fun a => R a x) l ->
  ForallOrdPairs R (l ++ [x]).
Proof.
  induction 1 as [|a l Ha _ IH]; intros Hx; cbn [app].
  - constructor; constructor.
  - inversion Hx as [|? ? Hax Hlx]; subst. constructor.
    + apply Forall_app. split; [exact Ha | now constructor].
    + now apply IH.
Qed.

Lemma split_ws_from_nonempty (s : str) :
  forall cur,
    cur <> [] \/ (exists c, In c s /\ isspace c = false) ->
    split_ws_from cur s <> [].
Proof.
  induction s as [|c t IH]; intros cur H; cbn [split_ws_from].
  - destruct H as [H|[x [[] _]]]. destruct cur; [contradiction | discriminate].
  - destruct (isspace c) eqn:Hc.
    + destruct cur as [|y cur']; [|discriminate].
      apply IH. right. destruct H as [H|[x [[->|Hx] Hsp]]];
        [contradiction | congruence | now exists x].
    + apply IH. left. discriminate.
Qed.

Lemma strip_has_word (u : str) : strip u <> [] -> split_ws (strip u) <> [].
Proof.
  intros H. apply split_ws_from_nonempty. right.
  unfold strip, rstrip_with in *.
  destruct (lstrip_with isspace (rev (lstrip_with isspace u))) as [|c t] eqn:E;
    [contradiction|].
  exists c. split.
  - apply in_rev. rewrite rev_involutive. now left.
  - exact (lstrip_head isspace _ c t E).
Qed.

Lemma nodup_nonempty (l : list str) : l <> [] -> nodup str_eq_dec l <> [].
Proof.
  destruct l as [|x l]; [contradiction|]. intros _ E.
  assert (Hin : In x (nodup str_eq_dec (x :: l))) by (apply nodup_In; now left).
  rewrite E in Hin. contradiction.
Qed.

Lemma set_inter_length_sym (a b : set str) :
  NoDup a -> NoDup b ->
  length (set_inter str_eq_dec a b) = length (set_inter str_eq_dec b a).
Proof.
  intros Ha Hb. apply Permutation_length, NoDup_Permutation.
  - now apply set_inter_nodup.
  - now apply set_inter_nodup.
  - intros x. rewrite !set_inter_iff. tauto.
Qed.

Lemma set_union_length_sym (a b : set str) :
  NoDup a -> NoDup b ->
  length (set_union str_eq_dec a b) = length (set_union str_eq_dec b a).
Proof.
  intros Ha Hb. apply Permutation_length, NoDup_Permutation.
  - now apply set_union_nodup.
  - now apply set_union_nodup.
  - intros x. rewrite !set_union_iff. tauto.
Qed.

Section Dedupe.

Variable str_lower : str -> str.
Variable is_word : char -> bool.

Lemma jaccard_sym (a b : str) :
  jaccard str_lower is_word a b = jaccard str_lower is_word b a.
Proof.
  unfold jaccard. cbv zeta.
  assert (Na : NoDup (word_set str_lower is_word a)) by apply NoDup_nodup.
  assert (Nb : NoDup (word_set str_lower is_word b)) by apply NoDup_nodup.
  now rewrite (set_inter_length_sym _ _ Na Nb),
    (set_union_length_sym _ _ Na Nb).
Qed.

Lemma word_set_nonempty (t : str) :
  5 < length (normalize_for_comparison str_lower is_word t) ->
  word_set str_lower is_word t <> [].
Proof.
  intros H. unfold word_set. apply nodup_nonempty.
  unfold normalize_for_comparison in *. apply strip_has_word.
  intros E. rewrite E in H. cbn [length] in H. lia.
Qed.

Lemma not_similar_jaccard (a b : str) :
  word_set str_lower is_word a <> [] ->
  word_set str_lower is_word b <> [] ->
  are_similar str_lower is_word a b = false ->
  (jaccard str_lower is_word a b < threshold)%Q.
Proof.
  intros Ha Hb H. unfold are_similar in H.
  rewrite (proj2 (truthy_true _) Ha), (proj2 (truthy_true _) Hb) in H.
  cbn [negb orb] in H. apply Qnot_le_lt. intros Hle.
  apply Qle_bool_iff in Hle. unfold jaccard in Hle. congruence.
Qed.

Lemma dedupe_snoc (topics : list str) (t : str) :
  let kept := filtered_topics str_lower is_word topics in
  filtered_topics str_lower is_word (topics ++ [t])
  = if keeps str_lower is_word kept t then kept ++ [t] else kept.
Proof.
  cbv zeta. unfold filtered_topics, keeps. rewrite fold_left_app.
  cbn [fold_left]. unfold dedupe_step at 1.
  destruct (5 <? length (normalize_for_comparison str_lower is_word t));
    [|reflexivity].
  now destruct (existsb (are_similar str_lower is_word t) _).
Qed.

(** C3. The deduplication keeps topics in their input order; a topic is
    kept exactly when its normalized form is longer than 5 characters and
    it is similar to no topic kept before it; and any two kept topics have
    token sets of Jaccard index below 0.7. *)
Theorem dedupe_keeps_dissimilar_topics_in_order (topics : list str) :
  let kept := filtered_topics str_lower is_word topics in
  subseq kept topics
  /\ (forall t,
        filtered_topics str_lower is_word (topics ++ [t])
        = if keeps str_lower is_word kept t then kept ++ [t] else kept)
  /\ Forall
       (fun t => 5 < length (normalize_for_comparison str_lower is_word t))
       kept
  /\ ForallOrdPairs
       (fun earlier later =>
          (jaccard str_lower is_word earlier later < threshold)%Q
          /\ (jaccard str_lower is_word later earlier < threshold)%Q)
       kept.
Proof.
  cbv zeta. split; [|split; [apply dedupe_snoc|]].
  - induction topics as [|t topics IH] using rev_ind; [constructor|].
    rewrite dedupe_snoc. cbv zeta.
    destruct (keeps str_lower is_word
                (filtered_topics str_lower is_word topics) t).
    + now apply subseq_snoc_keep.
    + now apply subseq_snoc_skip.
  - induction topics as [|t topics [IHlen IHpairs]] using rev_ind.
    + split; constructor.
    + rewrite dedupe_snoc. cbv zeta. unfold keeps.
      set (kept := filtered_topics str_lower is_word topics) in *.
      destruct (Nat.ltb_spec 5
                  (length (normalize_for_comparison str_lower is_word t)))
        as [Hlen|Hlen]; [|now split].
      destruct (existsb (are_similar str_lower is_word t) kept) eqn:Hsim;
        [now split|].
      cbn [negb andb]. split.
      * apply Forall_app. split; [exact IHlen | now constructor].
      * apply ForallOrdPairs_snoc; [exact IHpairs|].
        apply Forall_forall. intros e He.
        assert (Hs : are_similar str_lower is_word t e = false).
        { destruct (are_similar str_lower is_word t e) eqn:E; [|reflexivity].
          assert (existsb (are_similar str_lower is_word t) kept = true)
            by (apply existsb_exists; now exists e).
          congruence. }
        assert (Hj : (jaccard str_lower is_word t e < threshold)%Q).
        { apply not_similar_jaccard; [| |exact Hs];
            apply word_set_nonempty; [exact Hlen|].
          rewrite Forall_forall in IHlen. now apply IHlen. }
        split; [rewrite jaccard_sym|]; exact Hj.
Qed.

End Dedupe.

(** The scenario of the specification: the second topic has the words of
    the first and one more (index 3/4), and is dropped. *)
Example dedupe_scenario :
  filtered_topics ascii_lower ascii_word
    [ L "Network Security Basics"; L "Basics of Network Security";
      L "Quantum Computing" ]
  = [ L "Network Security Basics"; L "Quantum Computing" ].
Proof. vm_compute. reflexivity. Qed.

(** ** Content distribution *)

Section Distribute.

Variable html5 : str -> option str.

Lemma points_per_slide_range (max_slides : option Z) (total : nat) :
  1 <= points_per_slide max_slides total <= MAX_BULLETS_PER_SLIDE.
Proof.
  unfold points_per_slide, MAX_BULLETS_PER_SLIDE.
  destruct max_slides as [m|]; [|lia].
  destruct (negb (m =? 0)%Z && (0 <? m)%Z); lia.
Qed.

Lemma ceiling_quotient (n m : Z) :
  (0 < m)%Z -> ((n + m - 1) / m)%Z = Qceiling (n # Z.to_pos m).
Proof.
  intros Hm. unfold Qceiling, Qfloor. simpl.
  rewrite Z2Pos.id by exact Hm.
  pose proof (Z.div_mod (n + m - 1) m ltac:(lia)) as E1.
  pose proof (Z.mod_pos_bound (n + m - 1) m Hm) as B1.
  pose proof (Z.div_mod (- n) m ltac:(lia)) as E2.
  pose proof (Z.mod_pos_bound (- n) m Hm) as B2.
  nia.
Qed.

(** The program's bullets per slide is the specification's formula. *)
Lemma points_per_slide_spec (max_slides : option Z) (total : nat) :
  Z.of_nat (points_per_slide max_slides total)
  = spec_points_per_slide max_slides total.
Proof.
  unfold points_per_slide, spec_points_per_slide, MAX_BULLETS_PER_SLIDE.
  destruct max_slides as [m|]; [|reflexivity].
  destruct (Z.ltb_spec 0 m) as [Hm|Hm].
  - replace (m =? 0)%Z with false by (symmetry; apply Z.eqb_neq; lia).
    simpl negb. cbv iota. simpl andb. cbv iota.
    rewrite <- ceiling_quotient by exact Hm. lia.
  - rewrite andb_false_r. reflexivity.
Qed.

(** What the split of a long bullet returns is never an empty string, when
    the bullet was found long. *)
Lemma split_long_bullet_nonempty (text : str) :
  truthy text = true ->
  _estimate_text_length html5 text = true ->
  Forall (fun piece => truthy piece = true) (_split_long_bullet html5 text).
Proof.
  intros Ht He. unfold _estimate_text_length in He. unfold _split_long_bullet.
  rewrite Ht in *. simpl negb in *. cbv iota in *.
  set (t := _validate_and_clean_text_input html5 (PyStr text)) in *.
  assert (Hne : truthy t = true).
  { destruct t; [discriminate He | reflexivity]. }
  assert (Hf : forall l, Forall (fun piece => truthy piece = true)
                           (filter nonblank l)).
  { intros l. apply Forall_forall. intros x Hx.
    apply filter_In in Hx. now apply nonblank_nonempty. }
  destruct (length t <=? 250); [now constructor|].
  destruct (1 <? length (re_split sentence_end t)); [apply Hf|].
  destruct (300 <? length t); [|now constructor].
  destruct (1 <? length (re_split clause_end t)); [apply Hf | now constructor].
Qed.

Lemma processed_content_nonempty (content : list str) :
  Forall (fun bullet => truthy bullet = true) (processed_content html5 content).
Proof.
  unfold processed_content.
  assert (G : forall acc, Forall (fun bullet => truthy bullet = true) acc ->
            Forall (fun bullet => truthy bullet = true)
              (fold_left (process_point html5) content acc)).
  { induction content as [|point rest IH]; intros acc Hacc; simpl;
      [exact Hacc|].
    apply IH. unfold process_point.
    set (c := _validate_and_clean_text_input html5 (PyStr point)).
    destruct (truthy c) eqn:Hc; simpl negb; cbv iota; [|exact Hacc].
    destruct (_estimate_text_length html5 c) eqn:He.
    - apply Forall_app. split; [exact Hacc|].
      now apply split_long_bullet_nonempty.
    - apply Forall_app. split; [exact Hacc|]. now constructor. }
  apply G. constructor.
Qed.

(** The slides hold the processed bullets, in order, each once. *)
Lemma distribute_content_bullets (title : str) (content : list str)
    (max_slides : option Z) :
  all_bullets (_distribute_content html5 title content max_slides)
  = processed_content html5 content.
Proof.
  unfold _distribute_content, all_bullets.
  destruct content as [|point rest]; [reflexivity|].
  simpl truthy. simpl negb. cbv iota.
  set (processed := processed_content html5 (point :: rest)).
  destruct processed as [|b bs] eqn:E; [reflexivity|].
  simpl truthy. simpl negb. cbv iota. rewrite <- E.
  set (per := points_per_slide max_slides (length processed)).
  pose proof (points_per_slide_range max_slides (length processed)) as Hper.
  fold per in Hper. unfold range_step. rewrite !map_map. cbn [snd slide_at].
  apply concat_slices; [lia|]. apply ceil_div_bound. lia.
Qed.

(** C1. The bullets of the slides [_distribute_content] returns are the
    processed bullets (cleaned, empties dropped, long ones split), in the
    same order: none is dropped and none is repeated. Their number is the
    number of non-empty processed bullets, and no processed bullet is
    empty. *)
Theorem distribute_content_preserves_bullets (title : str)
    (content : list str) (max_slides : option Z) :
  let slides := _distribute_content html5 title content max_slides in
  let processed := processed_content html5 content in
  all_bullets slides = processed
  /\ total_bullets slides = length (filter (@truthy char) processed)
  /\ length (filter (@truthy char) processed) = length processed.
Proof.
  intros slides processed.
  pose proof (distribute_content_bullets title content max_slides) as Hb.
  pose proof (processed_content_nonempty content) as Hn.
  fold slides processed in Hb, Hn.
  rewrite (filter_all _ _ Hn).
  repeat split; [exact Hb|].
  rewrite <- Hb. unfold total_bullets, all_bullets.
  now rewrite length_concat_sum, map_map.
Qed.

(** Every slide but the last is full. *)
Lemma distribute_content_full_slides (title : str) (content : list str)
    (max_slides : option Z) (k : nat) (sl : slide_spec) :
  let slides := _distribute_content html5 title content max_slides in
  let total := length (processed_content html5 content) in
  nth_error slides k = Some sl ->
  S k < length slides ->
  length (snd sl) = points_per_slide max_slides total.
Proof.
  intros slides total. unfold slides, _distribute_content.
  destruct (negb (truthy content)); [cbn [length]; lia|].
  destruct (negb (truthy (processed_content html5 content)));
    [cbn [length]; lia|].
  fold total. set (per := points_per_slide max_slides total).
  pose proof (points_per_slide_range max_slides total) as Hper. fold per in Hper.
  unfold range_step. rewrite !length_map, length_seq, map_map.
  intros Hk Hlast. rewrite nth_error_map in Hk.
  rewrite nth_error_seq in Hk.
  replace (k <? (total + per - 1) / per) with true in Hk
    by (symmetry; apply Nat.ltb_lt; lia).
  cbn [option_map Nat.add] in Hk. injection Hk as <-.
  cbn [slide_at snd]. unfold slice. rewrite length_firstn, length_skipn.
  fold total. clearbody per. clearbody total.
  assert (Ht : 0 < total).
  { destruct (Nat.eq_dec total 0) as [E|]; [|lia].
    rewrite E, Nat.div_small in Hlast by lia. lia. }
  pose proof (ceil_div_tight total per ltac:(lia) Ht). nia.
Qed.

Lemma distribute_content_unfold (title : str) (content : list str)
    (max_slides : option Z) :
  let processed := processed_content html5 content in
  let per := points_per_slide max_slides (length processed) in
  _distribute_content html5 title content max_slides
  = if negb (truthy processed) then [(title, [])]
    else map (slide_at title processed per)
           (range_step (length processed) per).
Proof.
  intros processed per. unfold _distribute_content.
  destruct content as [|point rest]; reflexivity.
Qed.

Lemma ceil_div_pos (n step : nat) :
  0 < step -> 0 < n -> 1 <= (n + step - 1) / step.
Proof.
  intros Hs Hn. apply Nat.div_le_lower_bound; lia.
Qed.

Lemma length_distribute_content (title : str) (content : list str)
    (max_slides : option Z) :
  let total := length (processed_content html5 content) in
  let per := points_per_slide max_slides total in
  length (_distribute_content html5 title content max_slides)
  = if total =? 0 then 1 else (total + per - 1) / per.
Proof.
  intros total per. rewrite distribute_content_unfold. fold total. fold per.
  unfold total.
  destruct (processed_content html5 content) as [|b bs]; [reflexivity|].
  cbn [truthy negb length Nat.eqb]. unfold range_step.
  now rewrite !length_map, length_seq.
Qed.

(** C2. No slide [_distribute_content] returns has more than
    [MAX_BULLETS_PER_SLIDE] (5) bullets: every slide has at most
    [points_per_slide] bullets, and that number is
    [max(1, min(5, ceil(total / max_slides)))] when [max_slides] is given
    and positive, and 5 otherwise. The slides do hold that number: there
    are [ceil(total / points_per_slide)] of them (one when nothing is
    left to show), slide [k], counted from 0, holds
    [min(points_per_slide, total - k * points_per_slide)] bullets, so
    every slide but the last holds [points_per_slide] and the last holds
    the rest. *)
Theorem distribute_content_bullets_per_slide (title : str)
    (content : list str) (max_slides : option Z) :
  let slides := _distribute_content html5 title content max_slides in
  let total := length (processed_content html5 content) in
  Forall (fun sl => length (snd sl) <= MAX_BULLETS_PER_SLIDE) slides
  /\ Forall (fun sl => length (snd sl) <= points_per_slide max_slides total)
       slides
  /\ Z.of_nat (points_per_slide max_slides total)
     = spec_points_per_slide max_slides total
  /\ length slides
     = (if total =? 0 then 1
        else (total + points_per_slide max_slides total - 1)
             / points_per_slide max_slides total)
  /\ map (fun sl => length (snd sl)) slides
     = map (fun k => Nat.min (points_per_slide max_slides total)
                       (total - k * points_per_slide max_slides total))
         (seq 0 (length slides)).
Proof.
  intros slides total.
  pose proof (points_per_slide_range max_slides total) as Hper.
  pose proof (length_distribute_content title content max_slides) as Hlen.
  cbv zeta in Hlen. fold slides total in Hlen.
  assert (Hmap : map (fun sl => length (snd sl)) slides
                 = map (fun k => Nat.min (points_per_slide max_slides total)
                                   (total
                                    - k * points_per_slide max_slides total))
                     (seq 0 (length slides))).
  { rewrite Hlen. unfold slides, total. rewrite distribute_content_unfold.
    generalize (processed_content html5 content). intros processed.
    destruct processed as [|b bs]; [cbn; now rewrite Nat.min_0_r|].
    set (processed := b :: bs).
    set (per := points_per_slide max_slides (length processed)).
    cbn [truthy negb processed length Nat.eqb]. fold processed.
    change (S (length bs)) with (length processed).
    unfold range_step. rewrite !map_map. apply map_ext.
    intros k. cbn [slide_at snd]. unfold slice.
    rewrite length_firstn, length_skipn. f_equal. lia. }
  assert (H : Forall (fun sl => length (snd sl)
                                <= points_per_slide max_slides total) slides).
  { apply Forall_forall. intros sl Hsl.
    assert (Hin : In (length (snd sl))
                    (map (fun sl => length (snd sl)) slides))
      by (apply in_map_iff; now exists sl).
    rewrite Hmap in Hin. apply in_map_iff in Hin.
    destruct Hin as [k [<- _]]. apply Nat.le_min_l. }
  repeat split;
    [|exact H | apply points_per_slide_spec | exact Hlen | exact Hmap].
  eapply Forall_impl; [|exact H]. cbv beta. intros sl Hsl. lia.
Qed.

End Distribute.

(** The scenario of the specification for the distributor: 12 bullets of
    about 30 characters and [max_slides = 3]. *)
Example distribute_scenario :
  map (fun sl => (fst sl, length (snd sl)))
    (_distribute_content html5_core (L "Cell Biology")
       (repeat (L "A bullet of thirty characters.") 12) (Some 3%Z))
  = [ (L "Cell Biology (Part 1/3)", 4); (L "Cell Biology (Part 2/3)", 4);
      (L "Cell Biology (Part 3/3)", 4) ].
Proof. vm_compute. reflexivity. Qed.

(** * Further properties *)

(** ** The normalizer returns single-spaced text *)

Lemma collapse_true_head (s : str) :
  collapse true s = s -> s = [] \/ starts_with_ink s.
Proof.
  destruct s as [|c t]; [now left|]. cbn [collapse starts_with_ink].
  destruct (isspace c) eqn:Hc; [|now right].
  intros H. exfalso. pose proof (length_collapse t true) as Hl.
  rewrite H in Hl. cbn [length] in Hl. lia.
Qed.

(** A tidy text that does not end with whitespace is [spaced]. *)
Lemma tidy_spaced (s : str) :
  tidy s ->
  (forall c before, rev s = c :: before -> isspace c = false) ->
  spaced s.
Proof.
  unfold tidy. induction s as [|c t IH]; intros Ht Hlast; [exact I|].
  cbn [spaced]. cbn [collapse] in Ht.
  assert (Hlast' : forall d before, rev t = d :: before -> isspace d = false).
  { intros d before E. apply (Hlast d (before ++ [c])).
    cbn [rev]. rewrite E. reflexivity. }
  destruct (isspace c) eqn:Hc.
  - injection Ht as Hx Ht. split.
    + intros _. split; [now symmetry|].
      destruct (collapse_true_head t Ht) as [->|Hink]; [|exact Hink].
      specialize (Hlast c [] eq_refl). congruence.
    + apply IH; [now apply collapse_true_false | exact Hlast'].
  - injection Ht as Ht. split; [discriminate|]. now apply IH.
Qed.

Lemma split_ws_from_ink (s : str) :
  forall cur,
    cur <> [] \/ starts_with_ink s -> split_ws_from cur s <> [].
Proof.
  intros cur H. apply split_ws_from_nonempty.
  destruct H as [H|H]; [now left | right].
  destruct s as [|c t]; [contradiction|]. exists c. split; [now left | exact H].
Qed.

Lemma join_cons (sep piece : str) (rest : list str) :
  rest <> [] -> join sep (piece :: rest) = piece ++ sep ++ join sep rest.
Proof. destruct rest; [contradiction | reflexivity]. Qed.

Lemma join_split_ws_from (s : str) :
  forall cur,
    spaced s ->
    cur <> [] \/ s = [] \/ starts_with_ink s ->
    join (L " ") (split_ws_from cur s) = rev cur ++ s.
Proof.
  induction s as [|c t IH]; intros cur Hs Hc; cbn [split_ws_from].
  - rewrite app_nil_r. destruct cur; reflexivity.
  - cbn [spaced] in Hs. destruct Hs as [Hsp Hs].
    destruct (isspace c) eqn:Hw.
    + destruct (Hsp eq_refl) as [-> Hink].
      destruct cur as [|x cur'].
      * exfalso. destruct Hc as [Hc|[Hc|Hc]];
          [now apply Hc | discriminate | cbn in Hc; congruence].
      * rewrite join_cons by (apply split_ws_from_ink; now right).
        rewrite IH by (try exact Hs; right; now right). reflexivity.
    + rewrite IH by (try exact Hs; left; discriminate).
      cbn [rev]. now rewrite <- app_assoc.
Qed.

Lemma strip_ends (s : str) :
  (strip s = [] \/ starts_with_ink (strip s))
  /\ (forall c before, rev (strip s) = c :: before -> isspace c = false).
Proof.
  split.
  - unfold strip.
    destruct (rstrip_prefix isspace (lstrip_with isspace s)) as [w Hw].
    destruct (rstrip_with isspace (lstrip_with isspace s)) as [|y r] eqn:E;
      [now left | right].
    cbn [app] in Hw. exact (lstrip_head isspace s y (r ++ w) Hw).
  - intros c before E. unfold strip, rstrip_with in E.
    rewrite rev_involutive in E. exact (lstrip_head isspace _ c before E).
Qed.

Lemma normalize_whitespace_single_spaced (s : str) :
  single_spaced (_normalize_whitespace s).
Proof.
  rewrite normalize_whitespace_collapse. unfold single_spaced, split_ws.
  destruct (strip_ends (collapse false s)) as [Hhead Hlast].
  assert (T : tidy (strip (collapse false s))).
  { apply strip_tidy. apply (proj1 (collapse_collapse s) false). }
  rewrite join_split_ws_from; [reflexivity | now apply tidy_spaced |].
  right. exact Hhead.
Qed.

Section NormalizerOutput.

Variable html5 : str -> option str.

(** The text the normalizer returns, for any input, is its own words
    joined by single spaces: it has no whitespace other than one space
    between two words, and none at either end. *)
Theorem normalized_text_single_spaced (text : pyval) :
  single_spaced (_validate_and_clean_text_input html5 text)
  /\ strip (_validate_and_clean_text_input html5 text)
     = _validate_and_clean_text_input html5 text.
Proof.
  assert (H : forall s, single_spaced (clean_text html5 s)
                        /\ strip (clean_text html5 s) = clean_text html5 s).
  { intros s. unfold clean_text. split.
    - apply normalize_whitespace_single_spaced.
    - rewrite normalize_whitespace_collapse. apply strip_strip. }
  destruct text; cbn [_validate_and_clean_text_input]; try apply H.
  split; reflexivity.
Qed.

End NormalizerOutput.

(** ** On plain text the normalizer is [' '.join(text.split())] *)

Lemma split_ws_from_collapse (s : str) :
  (forall cur, split_ws_from cur (collapse false s) = split_ws_from cur s)
  /\ split_ws_from [] (collapse true s) = split_ws_from [] s.
Proof.
  assert (Hsp : isspace 32 = true) by reflexivity.
  induction s as [|c t [IH1 IH2]]; [split; reflexivity|].
  split; [intros cur|]; cbn [collapse]; destruct (isspace c) eqn:Hc;
    cbn [split_ws_from]; rewrite ?Hsp, ?Hc, ?IH1, ?IH2; reflexivity.
Qed.

Lemma split_ws_from_spaces (w : str) :
  forallb isspace w = true ->
  forall cur, split_ws_from cur w = split_ws_from cur [].
Proof.
  induction w as [|c w IH]; intros H cur; [reflexivity|].
  cbn [forallb] in H. apply andb_prop in H. destruct H as [Hc Hw].
  cbn [split_ws_from]. rewrite Hc.
  destruct cur; rewrite (IH Hw); reflexivity.
Qed.

Lemma split_ws_from_trailing (a w : str) :
  forallb isspace w = true ->
  forall cur, split_ws_from cur (a ++ w) = split_ws_from cur a.
Proof.
  intros Hw. induction a as [|c a IH]; intros cur; cbn [app].
  - now apply split_ws_from_spaces.
  - cbn [split_ws_from]. destruct (isspace c); destruct cur; now rewrite IH.
Qed.

Lemma split_ws_lstrip (s : str) :
  split_ws (lstrip_with isspace s) = split_ws s.
Proof.
  unfold split_ws. induction s as [|c t IH]; [reflexivity|].
  cbn [lstrip_with split_ws_from]. destruct (isspace c) eqn:Hc; [exact IH|].
  cbn [split_ws_from]. now rewrite Hc.
Qed.

Lemma lstrip_dropped (p : char -> bool) (s : str) :
  exists w, s = w ++ lstrip_with p s /\ forallb p w = true.
Proof.
  induction s as [|c t [w [IH Hw]]]; [now exists []|]. cbn [lstrip_with].
  destruct (p c) eqn:Hc.
  - exists (c :: w). cbn [app forallb]. rewrite Hc, Hw. split; [|reflexivity].
    now rewrite <- IH.
  - now exists [].
Qed.

Lemma rstrip_dropped (p : char -> bool) (s : str) :
  exists w, s = rstrip_with p s ++ w /\ forallb p w = true.
Proof.
  unfold rstrip_with. destruct (lstrip_dropped p (rev s)) as [w [Hw Hp]].
  exists (rev w). split.
  - rewrite <- rev_app_distr, <- Hw. now rewrite rev_involutive.
  - apply forallb_forall. intros x Hx. apply in_rev in Hx.
    revert x Hx. now apply forallb_forall.
Qed.

Lemma split_ws_strip (s : str) : split_ws (strip s) = split_ws s.
Proof.
  unfold strip. rewrite <- (split_ws_lstrip s).
  destruct (rstrip_dropped isspace (lstrip_with isspace s)) as [w [Hw Hp]].
  rewrite Hw at 2. unfold split_ws. now rewrite split_ws_from_trailing.
Qed.

(** [re.sub(r'\s+', ' ', text).strip()] is [' '.join(text.split())]. *)
Lemma normalize_whitespace_join_split (s : str) :
  _normalize_whitespace s = join (L " ") (split_ws s).
Proof.
  transitivity (join (L " ") (split_ws (_normalize_whitespace s)));
    [symmetry; apply normalize_whitespace_single_spaced|].
  rewrite normalize_whitespace_collapse, split_ws_strip. unfold split_ws.
  now rewrite (proj1 (split_ws_from_collapse s)).
Qed.

Section NormalizerPlain.

Variable html5 : str -> option str.

(** On a text with no ampersand, no backslash and no [<] the normalizer
    only rearranges whitespace: it returns the words of the text joined
    by single spaces. *)
Theorem normalize_plain_text (text : str) :
  contains (ch "&") text = false ->
  contains backslash text = false ->
  contains (ch "<") text = false ->
  _validate_and_clean_text_input html5 (PyStr text)
  = join (L " ") (split_ws text).
Proof.
  intros Ha Hb Hl. cbn [_validate_and_clean_text_input].
  rewrite (clean_text_plain html5 text Ha Hb Hl).
  apply normalize_whitespace_join_split.
Qed.

End NormalizerPlain.

Lemma normalize_plain_text_witness :
  (contains (ch "&") (L "  two   words ") = false
   /\ contains backslash (L "  two   words ") = false
   /\ contains (ch "<") (L "  two   words ") = false)
  /\ _validate_and_clean_text_input html5_core (PyStr (L "  two   words "))
     = join (L " ") (split_ws (L "  two   words ")).
Proof.
  split; [repeat split|].
  exact (normalize_plain_text html5_core (L "  two   words ")
           eq_refl eq_refl eq_refl).
Defined.

(** ** No tag is left by the tag-stripping step *)

(** A greedy run of characters other than [g], followed by [g]: the match
    ends after the first [g], provided the run before it is long enough. *)
Lemma rep_match_until (p : char -> bool) (g : char) :
  (forall c, p c = negb (c =? g)%N) ->
  forall s lo prev cap,
    rep_match true p lo None prev s cap
      (fun prev' s' cap' => rmatch (Chr g) prev' s' cap' accept)
    = match lstrip_with p s with
      | _ :: rest =>
          if lo <=? length s - S (length rest) then Some (cap, rest) else None
      | [] => None
      end.
Proof.
  intros Hp. induction s as [|c t IH]; intros lo prev cap;
    cbn [rep_match lstrip_with].
  - destruct lo; reflexivity.
  - cbn [andb]. rewrite Hp. destruct (N.eqb_spec c g) as [->|Hne]; cbn [negb].
    + cbn [length]. replace (S (length t) - S (length t)) with 0 by lia.
      destruct lo; cbn [rmatch Nat.leb]; [|reflexivity].
      now rewrite N.eqb_refl.
    + rewrite IH. cbn [option_map].
      assert (Hstop : match lo with
                      | 0 => rmatch (Chr g) prev (c :: t) cap accept
                      | S _ => None
                      end = None).
      { destruct lo; [|reflexivity]. cbn [rmatch].
        now replace (c =? g)%N with false by (symmetry; now apply N.eqb_neq). }
      destruct (lstrip_suffix p t) as [w Hw].
      destruct (lstrip_with p t) as [|x rest] eqn:E;
        cbn [or_else]; [exact Hstop|].
      assert (Hlen : length rest < length t).
      { rewrite Hw, length_app. cbn [length]. lia. }
      cbn [length].
      destruct (Nat.leb_spec (pred lo) (length t - S (length rest)));
        destruct (Nat.leb_spec lo (S (length t) - S (length rest)));
        cbn [or_else]; try reflexivity; try exact Hstop; lia.
Qed.

Lemma none_of_gt (c : char) : none_of (L ">") c = negb (c =? ch ">")%N.
Proof. unfold none_of, one_of. cbn [L map list_ascii_of_string existsb].
  now rewrite orb_false_r. Qed.

Lemma lstrip_until_gt (s : str) :
  match lstrip_with (none_of (L ">")) s with
  | [] => contains (ch ">") s = false
  | g :: _ => g = ch ">" /\ contains (ch ">") s = true
  end.
Proof.
  induction s as [|c t IH]; cbn [lstrip_with]; [reflexivity|].
  rewrite none_of_gt. unfold contains in *. cbn [existsb].
  rewrite (N.eqb_sym (ch ">") c).
  destruct (N.eqb_spec c (ch ">")) as [->|Hne]; cbn [negb orb]; [now split|].
  exact IH.
Qed.

(** [tag_here] tells whether [<[^>]+>] matches at the start of the text. *)
Lemma match_at_any_tag (prev : option char) (s : str) :
  tag_here s
  = match match_at any_tag prev s with Some _ => true | None => false end.
Proof.
  unfold match_at, any_tag, plus. cbn [rmatch].
  destruct s as [|c t]; [reflexivity|]. cbn [tag_here].
  destruct (N.eqb_spec c (ch "<")) as [->|Hne].
  - fold accept. rewrite (rep_match_until _ (ch ">") none_of_gt).
    destruct t as [|x t]; [reflexivity|]. cbn [lstrip_with andb].
    rewrite none_of_gt.
    destruct (N.eqb_spec x (ch ">")) as [->|Hx]; cbn [negb length].
    + replace (S (length t) - S (length t)) with 0 by lia. reflexivity.
    + pose proof (lstrip_until_gt t) as Hg. destruct (lstrip_suffix
        (none_of (L ">")) t) as [w Hw].
      destruct (lstrip_with (none_of (L ">")) t) as [|g rest] eqn:E.
      * now rewrite Hg.
      * destruct Hg as [_ ->].
        assert (Hlen : length rest < length t)
          by (rewrite Hw, length_app; cbn [length]; lia).
        now replace (1 <=? S (length t) - S (length rest)) with true
          by (symmetry; apply Nat.leb_le; lia).
  - destruct t; reflexivity.
Qed.

Lemma match_at_any_tag_rest (prev : option char) (s : str)
    (cap : option str) (rest : str) :
  match_at any_tag prev s = Some (cap, rest) ->
  exists c matched, s = (c :: matched) ++ rest.
Proof.
  unfold match_at, any_tag, plus. cbn [rmatch].
  destruct s as [|c t]; [discriminate|].
  destruct (c =? ch "<")%N; [|discriminate].
  fold accept. rewrite (rep_match_until _ (ch ">") none_of_gt).
  destruct (lstrip_suffix (none_of (L ">")) t) as [w Hw].
  destruct (lstrip_with (none_of (L ">")) t) as [|g rest'] eqn:E;
    [discriminate|].
  destruct (1 <=? length t - S (length rest')); [|discriminate].
  intros H. injection H as _ <-. exists c, (w ++ [g]).
  cbn [app]. now rewrite <- app_assoc, Hw.
Qed.

(** After a match the search resumes behind it. *)
Lemma sub_from_skip (r : regex) (repl : option str -> str) (a rest : str) :
  forall prev,
  exists prev',
    sub_from r repl (length a) prev (a ++ rest) = sub_from r repl 0 prev' rest.
Proof.
  induction a as [|c a IH]; intros prev; [now exists prev|].
  cbn [length app sub_from]. apply IH.
Qed.

(** Deleting matches adds no character. *)
Lemma sub_from_delete_incl (r : regex) (x : char) (s : str) :
  forall skip prev, In x (sub_from r (const []) skip prev s) -> In x s.
Proof.
  induction s as [|c t IH]; intros skip prev; cbn [sub_from].
  - destruct skip; [|contradiction].
    destruct (match_at r prev []) as [[cap rest]|]; contradiction.
  - destruct skip as [|n]; [|intros H; right; now apply (IH n (Some c))].
    destruct (match_at r prev (c :: t)) as [[cap rest]|].
    + destruct (length (c :: t) - length rest); cbn [const app].
      * intros [->|H]; [now left | right; now apply (IH 0 (Some c))].
      * intros H. right. now apply (IH n (Some c)).
    + intros [->|H]; [now left | right; now apply (IH 0 (Some c))].
Qed.

Lemma tag_here_without_gt (c : char) (s : str) :
  contains (ch ">") s = false -> tag_here (c :: s) = false.
Proof.
  destruct s as [|x t]; [reflexivity|]. unfold contains. cbn [existsb tag_here].
  intros H. apply orb_false_elim in H. destruct H as [_ H]. unfold contains.
  rewrite H. now rewrite andb_false_r.
Qed.

Lemma tag_here_false_cases (c : char) (t : str) :
  tag_here (c :: t) = false ->
  c <> ch "<" \/ t = [] \/ (exists t', t = ch ">" :: t')
  \/ contains (ch ">") t = false.
Proof.
  destruct t as [|x t']; [now right; left|]. cbn [tag_here].
  destruct (N.eqb_spec c (ch "<")) as [->|Hne]; [|now left].
  destruct (N.eqb_spec x (ch ">")) as [->|Hx]; cbn [negb andb].
  - intros _. right. right. left. now exists t'.
  - intros H. right. right. right. unfold contains in *. cbn [existsb].
    rewrite H. now replace (ch ">" =? x)%N with false
      by (symmetry; apply N.eqb_neq; congruence).
Qed.

Lemma tag_here_other (c : char) (s : str) :
  c <> ch "<" -> tag_here (c :: s) = false.
Proof.
  intros H. destruct s; [reflexivity|]. cbn [tag_here].
  now replace (c =? ch "<")%N with false by (symmetry; now apply N.eqb_neq).
Qed.

Lemma sub_any_tag_tagless (n : nat) :
  forall s prev,
    length s <= n -> has_tag (sub_from any_tag (const []) 0 prev s) = false.
Proof.
  induction n as [|n IH]; intros s prev Hn.
  - destruct s; [|cbn in Hn; lia]. cbn [sub_from].
    now destruct (match_at any_tag prev []) as [[cap rest]|].
  - destruct s as [|c t]; cbn [sub_from].
    + now destruct (match_at any_tag prev []) as [[cap rest]|].
    + pose proof (match_at_any_tag prev (c :: t)) as Hhere.
      destruct (match_at any_tag prev (c :: t)) as [[cap rest]|] eqn:Hm.
      * destruct (match_at_any_tag_rest prev (c :: t) cap rest Hm)
          as [c' [matched E]].
        cbn [app] in E. injection E as <- ->.
        replace (length (c :: matched ++ rest) - length rest)
          with (S (length matched))
          by (cbn [length]; rewrite length_app; lia).
        cbn [const app].
        destruct (sub_from_skip any_tag (const []) matched rest (Some c))
          as [prev' ->].
        apply IH. cbn [length] in Hn. rewrite length_app in Hn. lia.
      * cbn [has_tag]. rewrite (IH t (Some c)) by (cbn [length] in Hn; lia).
        rewrite orb_false_r.
        destruct (tag_here_false_cases c t Hhere) as [H|[->|[[t' ->]|H]]].
        -- now apply tag_here_other.
        -- cbn [sub_from].
           now destruct (match_at any_tag (Some c) []) as [[cap rest]|].
        -- cbn [sub_from].
           pose proof (match_at_any_tag (Some c) (ch ">" :: t')) as Hg.
           destruct (match_at any_tag (Some c) (ch ">" :: t'))
             as [[cap rest]|]; [destruct t'; discriminate Hg|].
           cbn [tag_here]. rewrite N.eqb_refl. now rewrite andb_false_r.
        -- apply tag_here_without_gt. apply contains_false. intros Hin.
           apply sub_from_delete_incl in Hin.
           apply contains_false in H. contradiction.
Qed.

(** [re.sub(r'<[^>]+>', '', s)] leaves no match of the pattern. *)
Lemma re_sub_any_tag_tagless (s : str) :
  has_tag (re_sub any_tag (const []) s) = false.
Proof. apply (sub_any_tag_tagless (length s)). lia. Qed.

Lemma has_tag_suffix (a b : str) : has_tag (a ++ b) = false -> has_tag b = false.
Proof.
  induction a as [|c a IH]; [tauto|]. cbn [app has_tag]. intros H.
  apply orb_false_elim in H. now apply IH.
Qed.

Lemma contains_app (c : char) (a b : str) :
  contains c (a ++ b) = contains c a || contains c b.
Proof. unfold contains. apply existsb_app. Qed.

Lemma has_tag_prefix (a b : str) : has_tag (a ++ b) = false -> has_tag a = false.
Proof.
  induction a as [|c a IH]; [reflexivity|]. cbn [app has_tag]. intros H.
  apply orb_false_elim in H. destruct H as [Hh Ht].
  rewrite (IH Ht), orb_false_r.
  destruct a as [|x a]; [reflexivity|]. cbn [app tag_here] in *.
  rewrite contains_app in Hh.
  destruct ((c =? ch "<")%N && negb (x =? ch ">")%N); [|reflexivity].
  cbn [andb] in *. now apply orb_false_elim in Hh.
Qed.

Lemma has_tag_strip (s : str) : has_tag s = false -> has_tag (strip s) = false.
Proof.
  intros H. unfold strip.
  destruct (lstrip_suffix isspace s) as [w Hw].
  destruct (rstrip_prefix isspace (lstrip_with isspace s)) as [w' Hw'].
  rewrite Hw in H. apply has_tag_suffix in H. rewrite Hw' in H.
  now apply has_tag_prefix in H.
Qed.

Lemma collapse_incl (x : char) (s : str) :
  forall b, In x (collapse b s) -> x = 32%N \/ In x s.
Proof.
  induction s as [|c t IH]; intros b; cbn [collapse]; [tauto|].
  destruct (isspace c); [destruct b|]; cbn [In]; intros H.
  - destruct (IH true H); tauto.
  - destruct H as [H|H]; [now left|]. destruct (IH true H); tauto.
  - destruct H as [H|H]; [tauto|]. destruct (IH false H); tauto.
Qed.

Lemma has_tag_collapse (s : str) :
  has_tag s = false -> forall b, has_tag (collapse b s) = false.
Proof.
  induction s as [|c t IH]; intros H b; [reflexivity|].
  cbn [has_tag] in H. apply orb_false_elim in H. destruct H as [Hh Ht].
  cbn [collapse]. destruct (isspace c) eqn:Hc.
  - destruct b; [now apply IH|]. cbn [has_tag]. rewrite (IH Ht true).
    now rewrite tag_here_other.
  - cbn [has_tag]. rewrite (IH Ht false), orb_false_r.
    destruct (tag_here_false_cases c t Hh) as [H|[->|[[t' ->]|H]]].
    + now apply tag_here_other.
    + reflexivity.
    + cbn [collapse]. replace (isspace (ch ">")) with false by reflexivity.
      destruct (collapse false t'); cbn [tag_here];
        now rewrite ?andb_false_r.
    + apply tag_here_without_gt. apply contains_false. intros Hin.
      apply contains_false in H.
      destruct (collapse_incl _ _ _ Hin) as [E|Hin']; [discriminate E|].
      contradiction.
Qed.

Section TagsRemoved.

Variable html5 : str -> option str.

Lemma remove_html_tags_tagless (text : str) :
  has_tag (_remove_html_tags text) = false.
Proof.
  unfold _remove_html_tags. destruct (negb (truthy text)); [reflexivity|].
  apply re_sub_any_tag_tagless.
Qed.

(** The text the normalizer returns holds no tag: nowhere in it is a [<]
    followed by one or more characters other than [>] and then a [>]. *)
Theorem normalized_text_has_no_tag (text : pyval) :
  has_tag (_validate_and_clean_text_input html5 text) = false.
Proof.
  assert (H : forall s, has_tag (clean_text html5 s) = false).
  { intros s. unfold clean_text. rewrite normalize_whitespace_collapse.
    apply has_tag_strip, has_tag_collapse, remove_html_tags_tagless. }
  destruct text; cbn [_validate_and_clean_text_input]; try apply H.
  reflexivity.
Qed.

End TagsRemoved.

(** ** The sentence path of the splitter loses nothing *)

Lemma match_at_stop_spaces (stops : str) (prev : option char) (s : str) :
  match_at (Seq (Behind true (one_of stops)) spaces) prev s
  = if match prev with Some c => one_of stops c | None => false end
    then match_at spaces prev s
    else None.
Proof.
  unfold match_at at 1. cbn [rmatch].
  destruct (match prev with Some c => one_of stops c | None => false end);
    reflexivity.
Qed.

Lemma lstrip_ink (s : str) : starts_with_ink s -> lstrip_with isspace s = s.
Proof. destruct s as [|c t]; [contradiction|]. cbn. now intros ->. Qed.

Lemma starts_with_ink_app (a b : str) :
  starts_with_ink a -> starts_with_ink (a ++ b).
Proof. destruct a; [contradiction | exact (fun H => H)]. Qed.

Lemma starts_with_ink_app_inv (a b : str) :
  a <> [] -> starts_with_ink (a ++ b) -> starts_with_ink a.
Proof. destruct a; [congruence | exact (fun _ H => H)]. Qed.

Lemma strip_inked (s : str) :
  starts_with_ink s -> starts_with_ink (rev s) -> strip s = s.
Proof.
  intros Hs He. unfold strip, rstrip_with.
  rewrite (lstrip_ink s Hs), (lstrip_ink (rev s) He). apply rev_involutive.
Qed.

Lemma split_from_nonempty (r : regex) (s : str) :
  forall skip prev cur, split_from r skip prev cur s <> [].
Proof.
  induction s as [|c t IH]; intros skip prev cur; cbn [split_from].
  - destruct skip; [|discriminate].
    destruct (match_at r prev []) as [[cap rest]|]; discriminate.
  - destruct skip; [|apply IH].
    destruct (match_at r prev (c :: t)) as [[cap rest]|]; [|apply IH].
    destruct (length (c :: t) - length rest); discriminate.
Qed.

(** Splitting a single-spaced text after a stop and joining the pieces
    with single spaces gives the text back, and every piece starts and
    ends with a character that is not whitespace. *)
Lemma split_from_spaced (stops : str) :
  (forall c, one_of stops c = true -> isspace c = false) ->
  forall s cur prev,
    spaced s ->
    (cur = [] -> starts_with_ink s) ->
    (cur <> [] -> prev = hd_error cur /\ starts_with_ink (rev cur)) ->
    starts_with_ink (rev (rev cur ++ s)) ->
    let pieces :=
      split_from (Seq (Behind true (one_of stops)) spaces) 0 prev cur s in
    join (L " ") pieces = rev cur ++ s
    /\ Forall (fun piece => starts_with_ink piece
                            /\ starts_with_ink (rev piece)) pieces.
Proof.
  intros Hstops. set (r := Seq (Behind true (one_of stops)) spaces).
  induction s as [|c t IH]; intros cur prev Hs Hempty Hcur Hend;
    cbn zeta; cbn [split_from].
  - rewrite app_nil_r in *. rewrite rev_involutive in Hend.
    destruct cur as [|x cur']; [contradiction (Hempty eq_refl)|].
    assert (Hno : match_at r prev [] = None).
    { unfold r. rewrite match_at_stop_spaces, match_at_spaces.
      now destruct prev as [p|]; [destruct (one_of stops p)|]. }
    rewrite Hno. split; [reflexivity|]. constructor; [|constructor].
    split; [now apply Hcur | now rewrite rev_involutive].
  - cbn [spaced] in Hs. destruct Hs as [Hsp Hs].
    assert (Hmove : join (L " ") (split_from r 0 (Some c) (c :: cur) t)
                    = rev cur ++ c :: t
                    /\ Forall (fun piece => starts_with_ink piece
                                 /\ starts_with_ink (rev piece))
                         (split_from r 0 (Some c) (c :: cur) t)).
    { destruct (IH (c :: cur) (Some c) Hs) as [Hj Hf].
      - discriminate.
      - intros _. split; [reflexivity|]. cbn [rev].
        destruct cur as [|x cur'].
        + cbn [rev app]. exact (Hempty eq_refl).
        + apply starts_with_ink_app. apply Hcur. discriminate.
      - cbn [rev]. now rewrite <- app_assoc.
      - split; [|exact Hf]. rewrite Hj. cbn [rev]. now rewrite <- app_assoc. }
    assert (Hm : match_at r prev (c :: t)
                 = if match prev with
                      | Some p => one_of stops p
                      | None => false
                      end
                   then if isspace c
                        then Some (None, lstrip_with isspace t)
                        else None
                   else None).
    { unfold r. now rewrite match_at_stop_spaces, match_at_spaces. }
    rewrite !Hm. clear Hm.
    destruct prev as [p|]; [|exact Hmove].
    destruct (one_of stops p) eqn:Hp; [|exact Hmove].
    destruct (isspace c) eqn:Hc; [|exact Hmove].
    destruct (Hsp eq_refl) as [-> Hink].
    rewrite (lstrip_ink t Hink).
    assert (Hone : forall (x : char) l, length (x :: l) - length l = 1)
      by (intros x l; cbn [length]; lia).
    rewrite !Hone. clear Hone.
    cbn [group_list app].
    destruct cur as [|x cur'].
    { specialize (Hempty eq_refl). cbn in Hempty. discriminate. }
    destruct (Hcur ltac:(discriminate)) as [Hprev Hfirst].
    cbn [hd_error] in Hprev. injection Hprev as <-.
    destruct (IH [] (Some 32%N) Hs) as [Hj Hf].
    + intros _. exact Hink.
    + intros H. now contradiction H.
    + cbn [rev app]. rewrite rev_app_distr in Hend. cbn [rev] in Hend.
      rewrite <- !app_assoc in Hend.
      refine (starts_with_ink_app_inv (rev t) _ _ Hend).
      intros E. apply (f_equal (@rev char)) in E.
      rewrite rev_involutive in E. subst t. contradiction.
    + split.
      * rewrite join_cons by apply split_from_nonempty.
        exact (f_equal (fun z => rev (p :: cur') ++ L " " ++ z) Hj).
      * constructor; [|exact Hf]. split; [exact Hfirst|].
        rewrite rev_involutive. cbn. now apply Hstops.
Qed.

Lemma join_app (sep : str) (a b : list str) :
  a <> [] -> b <> [] ->
  join sep (a ++ b) = join sep a ++ sep ++ join sep b.
Proof.
  intros Ha Hb. induction a as [|x a' IH]; [contradiction|].
  destruct a' as [|y a''].
  - cbn [app]. now rewrite join_cons.
  - change ((x :: y :: a'') ++ b) with (x :: (y :: a'') ++ b).
    rewrite join_cons by discriminate.
    rewrite IH by discriminate.
    rewrite (join_cons sep x (y :: a'')) by discriminate.
    now rewrite <- !app_assoc.
Qed.

Lemma join_concat (sep : str) (groups : list (list str)) :
  Forall (fun group => group <> []) groups ->
  join sep (map (join sep) groups) = join sep (concat groups).
Proof.
  induction 1 as [|g gs Hg Hgs IH]; [reflexivity|].
  cbn [map concat]. destruct gs as [|g' gs'].
  - cbn [map concat join]. now rewrite app_nil_r.
  - rewrite join_cons by discriminate. rewrite IH.
    rewrite join_app; [reflexivity | exact Hg |].
    inversion Hgs as [|? ? Hg' _]; subst.
    cbn [concat]. destruct g'; [contradiction | discriminate].
Qed.

Lemma map_strip_inked (pieces : list str) :
  Forall (fun piece => starts_with_ink piece /\ starts_with_ink (rev piece))
    pieces ->
  map strip pieces = pieces.
Proof.
  induction 1 as [|p ps [Hs He] _ IH]; [reflexivity|].
  cbn [map]. now rewrite IH, strip_inked.
Qed.

Lemma starts_with_ink_nonblank (s : str) :
  starts_with_ink s -> nonblank s = true.
Proof.
  intros H. apply nonblank_ink. destruct s as [|c t]; [contradiction|].
  exists c. split; [now left | exact H].
Qed.

Lemma join_starts_with_ink (sep : str) (group : list str) :
  group <> [] -> Forall starts_with_ink group ->
  starts_with_ink (join sep group).
Proof.
  intros Hg Hf. destruct group as [|p rest]; [contradiction|].
  inversion Hf as [|? ? Hp _]; subst. destruct rest; [exact Hp|].
  rewrite join_cons by discriminate. now apply starts_with_ink_app.
Qed.

(** Grouping pieces that start and end with ink and joining the chunks
    with single spaces is joining the pieces with single spaces. *)
Lemma regroup_rejoins (cap : nat) (pieces : list str) :
  Forall (fun piece => starts_with_ink piece /\ starts_with_ink (rev piece))
    pieces ->
  join (L " ") (filter nonblank (regroup cap (L " ") pieces))
  = join (L " ") pieces.
Proof.
  intros Hp. rewrite regroup_groups.
  assert (Hc : concat (groups_of cap pieces) = pieces).
  { unfold groups_of. rewrite groups_from_concat. cbn [concat app].
    now apply map_strip_inked. }
  assert (Hw : Forall (within_cap cap) (groups_of cap pieces)).
  { unfold groups_of. apply groups_from_within_cap;
      [constructor | now left | reflexivity]. }
  assert (Hne : Forall (fun group : list str => group <> [])
                  (groups_of cap pieces)).
  { eapply Forall_impl; [|exact Hw]. now intros g [Hg _]. }
  assert (Hi : Forall (Forall starts_with_ink) (groups_of cap pieces)).
  { apply Forall_concat. rewrite Hc.
    eapply Forall_impl; [|exact Hp]. now intros p [H _]. }
  rewrite filter_all.
  - rewrite join_concat by exact Hne. now rewrite Hc.
  - apply Forall_map. rewrite Forall_forall in *.
    intros g Hg. apply starts_with_ink_nonblank.
    apply join_starts_with_ink; [now apply Hne | now apply Hi].
Qed.

Lemma clean_text_rev_ink (s : str) :
  strip s <> [] -> starts_with_ink (rev (strip s)).
Proof.
  intros H. destruct (strip_ends s) as [_ Hlast].
  destruct (rev (strip s)) as [|c before] eqn:E.
  - apply (f_equal (@rev char)) in E. rewrite rev_involutive in E.
    contradiction.
  - exact (Hlast c before eq_refl).
Qed.

Section SentencesRejoined.

Variable html5 : str -> option str.

(** Splitting a bullet loses no text unless the clause path is taken:
    when the cleaned text has more than one sentence, or is not longer
    than 300 characters, or has a single clause, the chunks returned,
    joined by single spaces, are the cleaned text. *)
Theorem split_long_bullet_rejoins (text : str) :
  let cleaned := _validate_and_clean_text_input html5 (PyStr text) in
  1 < length (re_split sentence_end cleaned)
  \/ length cleaned <= 300
  \/ length (re_split clause_end cleaned) <= 1 ->
  join (L " ") (_split_long_bullet html5 text) = cleaned.
Proof.
  intros cleaned H. unfold _split_long_bullet.
  destruct text as [|c text']; [reflexivity|].
  cbn [truthy negb]. fold cleaned.
  destruct (Nat.leb_spec (length cleaned) 250) as [_|Hlong]; [reflexivity|].
  destruct (Nat.ltb_spec 1 (length (re_split sentence_end cleaned)))
    as [_|Hone].
  - assert (Hne : cleaned <> []).
    { intros E. rewrite E in Hlong. cbn in Hlong. lia. }
    assert (Hclean : cleaned = strip (collapse false
              (_remove_html_tags
                 (_clean_escape_characters
                    (_clean_html_entities html5 (c :: text')))))).
    { unfold cleaned. cbn [_validate_and_clean_text_input].
      unfold clean_text. now rewrite normalize_whitespace_collapse. }
    set (inner := collapse false _) in Hclean.
    destruct (strip_ends inner) as [Hhead Hlast].
    rewrite <- Hclean in Hhead, Hlast.
    destruct Hhead as [Hhead|Hhead]; [contradiction|].
    assert (Hsp : spaced cleaned).
    { apply tidy_spaced; [|exact Hlast]. rewrite Hclean.
      apply strip_tidy. apply (proj1 (collapse_collapse _) false). }
    assert (Hrev : starts_with_ink (rev cleaned)).
    { rewrite Hclean. apply clean_text_rev_ink. now rewrite <- Hclean. }
    destruct (split_from_spaced (L ".!?")
                (punctuation_not_space (L ".!?") eq_refl)
                cleaned [] None Hsp (fun _ => Hhead)
                ltac:(intros E; now contradiction E) Hrev) as [Hj Hf].
    rewrite regroup_rejoins by exact Hf. exact Hj.
  - destruct H as [H|[H|H]]; [lia | |].
    + replace (300 <? length cleaned) with false
        by (symmetry; apply Nat.ltb_ge; exact H).
      reflexivity.
    + destruct (300 <? length cleaned); [|reflexivity].
      replace (1 <? length (re_split clause_end cleaned)) with false
        by (symmetry; apply Nat.ltb_ge; exact H).
      reflexivity.
Qed.

End SentencesRejoined.

Lemma split_long_bullet_rejoins_witness :
  1 < length (re_split sentence_end
                (_validate_and_clean_text_input html5_core
                   (PyStr long_sentence_text)))
  /\ join (L " ") (_split_long_bullet html5_core long_sentence_text)
     = _validate_and_clean_text_input html5_core (PyStr long_sentence_text).
Proof.
  assert (H : 1 < length (re_split sentence_end
                            (_validate_and_clean_text_input html5_core
                               (PyStr long_sentence_text)))).
  { vm_compute. lia. }
  split; [exact H|].
  exact (split_long_bullet_rejoins html5_core long_sentence_text
           (or_introl H)).
Defined.

(** ** The slides of a section: their number, their titles *)

Section DistributeSlides.

Variable html5 : str -> option str.

(** A section with nothing to show gets one slide without bullets; any
    other section gets [ceil(total / points_per_slide)] slides, none of
    them empty. *)
Theorem distribute_content_no_empty_slide (title : str)
    (content : list str) (max_slides : option Z) :
  let slides := _distribute_content html5 title content max_slides in
  let processed := processed_content html5 content in
  let per := points_per_slide max_slides (length processed) in
  (processed = [] /\ slides = [(title, [])])
  \/ (processed <> []
      /\ length slides = (length processed + per - 1) / per
      /\ 1 <= length slides
      /\ Forall (fun sl => 1 <= length (snd sl)) slides).
Proof.
  intros slides processed per. unfold slides.
  rewrite distribute_content_unfold. fold processed. fold per.
  pose proof (points_per_slide_range max_slides (length processed)) as Hper.
  fold per in Hper. clearbody per. clearbody processed.
  destruct processed as [|b bs]; [left; now split | right].
  set (processed := b :: bs) in *.
  assert (Hn : 0 < length processed) by (cbn [processed length]; lia).
  cbn [truthy negb processed]. fold processed.
  assert (Hlen : length (map (slide_at title processed per)
                           (range_step (length processed) per))
                 = (length processed + per - 1) / per).
  { unfold range_step. now rewrite !length_map, length_seq. }
  split; [discriminate|]. split; [exact Hlen|].
  split; [rewrite Hlen; apply ceil_div_pos; lia|].
  unfold range_step. rewrite map_map. apply Forall_forall.
  intros sl Hsl. apply in_map_iff in Hsl. destruct Hsl as [k [<- Hk]].
  apply in_seq in Hk. cbn [slide_at snd]. unfold slice.
  rewrite length_firstn, length_skipn.
  pose proof (ceil_div_tight (length processed) per ltac:(lia) Hn). nia.
Qed.

Lemma slide_count_budget (total : nat) (m : Z) :
  let per := points_per_slide (Some m) total in
  (0 < m)%Z ->
  (Z.of_nat (if (total =? 0)%nat then 1%nat
             else ((total + per - 1) / per)%nat) <= m)%Z
  <-> (Z.of_nat total <= 5 * m)%Z.
Proof.
  intros per Hm.
  destruct (Nat.eqb_spec total 0) as [E|Hn]; [lia|].
  pose proof (points_per_slide_spec (Some m) total) as Hspec.
  pose proof (points_per_slide_range (Some m) total) as Hper.
  unfold spec_points_per_slide in Hspec.
  replace (0 <? m)%Z with true in Hspec by (symmetry; apply Z.ltb_lt; lia).
  rewrite <- ceiling_quotient in Hspec by exact Hm.
  fold per in Hspec, Hper. clearbody per.
  unfold MAX_BULLETS_PER_SLIDE in Hper.
  pose proof (Z.div_mod (Z.of_nat total + m - 1) m ltac:(lia)) as E1.
  pose proof (Z.mod_pos_bound (Z.of_nat total + m - 1) m Hm) as B1.
  pose proof (Nat.div_mod_eq (total + per - 1) per) as E2.
  pose proof (Nat.mod_upper_bound (total + per - 1) per ltac:(lia)) as B2.
  set (q := ((Z.of_nat total + m - 1) / m)%Z) in *.
  set (r := ((Z.of_nat total + m - 1) mod m)%Z) in *.
  set (n := (total + per - 1) / per) in *.
  set (r2 := (total + per - 1) mod per) in *.
  split; intros H.
  - nia.
  - destruct (Z.le_gt_cases q 5) as [Hq|Hq]; [|nia].
    assert (Hp : Z.of_nat per = q) by lia. nia.
Qed.

(** With a positive [max_slides], the section stays within it exactly
    when there are at most five processed bullets for each slide allowed:
    beyond that the cap of five bullets per slide wins and the section
    takes more slides than [max_slides]. *)
Theorem distribute_content_slide_budget (title : str) (content : list str)
    (m : Z) :
  let slides := _distribute_content html5 title content (Some m) in
  let total := length (processed_content html5 content) in
  (0 < m)%Z ->
  (Z.of_nat (length slides) <= m)%Z <-> (Z.of_nat total <= 5 * m)%Z.
Proof.
  intros slides total Hm. unfold slides.
  rewrite length_distribute_content. fold total.
  now apply slide_count_budget.
Qed.

(** A section that fits on one slide keeps its title; in a longer one
    slide [k] of [n] is titled [title (Part k/n)], with [k] counting
    from 1 and [n] the number of slides of the section. *)
Theorem distribute_content_titles (title : str) (content : list str)
    (max_slides : option Z) :
  let slides := _distribute_content html5 title content max_slides in
  map fst slides
  = if length slides =? 1 then [title]
    else map (fun k => part_title title k (length slides))
           (seq 1 (length slides)).
Proof.
  intros slides.
  pose proof (length_distribute_content html5 title content max_slides) as Hlen.
  cbv zeta in Hlen. fold slides in Hlen. rewrite Hlen. clear Hlen.
  unfold slides. rewrite distribute_content_unfold.
  set (processed := processed_content html5 content).
  set (per := points_per_slide max_slides (length processed)).
  pose proof (points_per_slide_range max_slides (length processed)) as Hper.
  fold per in Hper.
  destruct processed as [|b bs] eqn:E; [reflexivity|].
  rewrite <- E. assert (Hn : 0 < length processed)
    by (rewrite E; cbn [length]; lia).
  replace (truthy processed) with true by (now rewrite E).
  replace (length processed =? 0) with false
    by (symmetry; apply Nat.eqb_neq; lia).
  cbn [negb]. unfold range_step. rewrite !map_map.
  set (n := (length processed + per - 1) / per).
  pose proof (ceil_div_tight (length processed) per ltac:(lia) Hn) as Ht.
  pose proof (ceil_div_bound (length processed) per ltac:(lia)) as Hb.
  fold n in Ht, Hb.
  destruct (Nat.ltb_spec per (length processed)) as [Hmany|Hone].
  - replace (n =? 1) with false by (symmetry; apply Nat.eqb_neq; nia).
    rewrite <- seq_shift, map_map. apply map_ext. intros k.
    cbn [slide_at fst].
    replace (per <? length processed) with true
      by (symmetry; apply Nat.ltb_lt; exact Hmany).
    fold n. unfold part_title. rewrite Nat.div_mul by lia.
    now rewrite Nat.add_1_r.
  - assert (n = 1) as -> by nia. cbn [Nat.eqb seq map slide_at fst].
    now replace (per <? length processed) with false
      by (symmetry; apply Nat.ltb_ge; exact Hone).
Qed.

End DistributeSlides.

Lemma distribute_content_slide_budget_witness :
  (0 < 3)%Z
  /\ ((Z.of_nat
         (length (_distribute_content html5_core (L "Cell Biology")
                    (repeat (L "A bullet of thirty characters.") 12)
                    (Some 3%Z))) <= 3)%Z
      <-> (Z.of_nat
             (length (processed_content html5_core
                        (repeat (L "A bullet of thirty characters.") 12)))
           <= 5 * 3)%Z).
Proof.
  split; [lia|].
  apply (distribute_content_slide_budget html5_core (L "Cell Biology")
           (repeat (L "A bullet of thirty characters.") 12) 3%Z).
  lia.
Defined.

(** ** A long title is cut between two words *)

Lemma split_ws_from_words (s : str) :
  forall cur, Forall (fun word => word <> []) (split_ws_from cur s).
Proof.
  assert (Hrev : forall (x : char) cur, rev (x :: cur) <> []).
  { intros x cur E. apply (f_equal (@length char)) in E.
    rewrite length_rev in E. discriminate. }
  induction s as [|c t IH]; intros cur; cbn [split_ws_from].
  - destruct cur; constructor; [apply Hrev | constructor].
  - destruct (isspace c); [|apply IH].
    destruct cur; [apply IH | constructor; [apply Hrev | apply IH]].
Qed.

Lemma join_words_nonempty (sep : str) (words : list str) :
  words <> [] -> Forall (fun word => word <> []) words ->
  join sep words <> [].
Proof.
  intros Hne Hw. destruct words as [|w rest]; [contradiction|].
  inversion Hw as [|? ? Hx _]; subst. destruct rest as [|w' rest'].
  - exact Hx.
  - rewrite join_cons by discriminate. destruct w; [contradiction|].
    discriminate.
Qed.

(** The loop over the words keeps the longest run of leading words that
    fits, with the program's test: the text kept so far, a space and the
    next word have 62 characters at most. *)
Lemma truncate_words_prefix (rest : list str) :
  Forall (fun word => word <> []) rest ->
  forall done,
    Forall (fun word => word <> []) done ->
    exists k,
      k <= length rest
      /\ truncate_words rest (join (L " ") done)
         = join (L " ") (done ++ firstn k rest)
      /\ (k < length rest ->
          MAX_TITLE_LENGTH - 3
          < length (join (L " ") (done ++ firstn k rest)
                    ++ L " " ++ nth k rest [])).
Proof.
  induction rest as [|word rest' IH]; intros Hrest done Hdone;
    cbn [truncate_words].
  - exists 0. cbn [firstn length]. rewrite app_nil_r.
    repeat split; [lia | lia].
  - destruct (Nat.leb_spec (length (join (L " ") done ++ L " " ++ word))
                (MAX_TITLE_LENGTH - 3)) as [Hfit|Hno].
    + assert (Hnext : (if truthy (join (L " ") done)
                       then join (L " ") done ++ L " " ++ word
                       else word)
                      = join (L " ") (done ++ [word])).
      { destruct done as [|d done']; [reflexivity|].
        replace (truthy (join (L " ") (d :: done'))) with true.
        - symmetry. apply join_app; discriminate.
        - symmetry. apply truthy_true.
          apply join_words_nonempty; [discriminate | exact Hdone]. }
      match goal with
      | |- context [truncate_words rest' ?next] =>
          replace next with (join (L " ") (done ++ [word]))
            by (symmetry; exact Hnext)
      end.
      inversion Hrest as [|? ? Hword Hrest']; subst.
      destruct (IH Hrest' (done ++ [word])) as [k [Hk [Hres Hstop]]].
      { apply Forall_app. split; [exact Hdone|]. now constructor. }
      exists (S k). cbn [firstn length nth].
      replace (done ++ word :: firstn k rest')
        with ((done ++ [word]) ++ firstn k rest')
        by (now rewrite <- app_assoc).
      repeat split; [lia | exact Hres | intros H; apply Hstop; lia].
    + exists 0. cbn [firstn length nth]. rewrite app_nil_r.
      repeat split; [lia | intros _; exact Hno].
Qed.

Section TitleCut.

Variable html5 : str -> option str.

(** A title whose cleaned text has more than 65 characters is cut between
    two words: the result is the first [k] words of the cleaned title,
    joined by single spaces, and ["..."]; those words are a prefix of the
    cleaned title, not all of its words, and word [k+1] did not fit (the
    text kept, a space and that word have more than 62 characters). *)
Theorem truncate_title_word_boundary (title : str) :
  let cleaned := _validate_and_clean_text_input html5 (PyStr title) in
  let words := split_ws cleaned in
  MAX_TITLE_LENGTH < length cleaned ->
  exists k,
    k < length words
    /\ _truncate_title html5 title = join (L " ") (firstn k words) ++ L "..."
    /\ firstn (length (join (L " ") (firstn k words))) cleaned
       = join (L " ") (firstn k words)
    /\ MAX_TITLE_LENGTH - 3
       < length (join (L " ") (firstn k words) ++ L " " ++ nth k words []).
Proof.
  intros cleaned words Hlong.
  assert (Hjoin : join (L " ") words = cleaned).
  { unfold words, cleaned. cbn [_validate_and_clean_text_input].
    unfold clean_text. apply normalize_whitespace_single_spaced. }
  assert (Hwords : Forall (fun word : str => word <> []) words)
    by apply split_ws_from_words.
  destruct (truncate_words_prefix words Hwords [] (Forall_nil _))
    as [k [Hk [Hres Hstop]]].
  cbn [join app] in Hres, Hstop.
  pose proof (truncate_words_length words [] ltac:(cbn; lia)) as Hlen.
  assert (Hlt : k < length words).
  { destruct (Nat.eq_dec k (length words)) as [->|]; [|lia].
    rewrite firstn_all, Hjoin in Hres. rewrite Hres in Hlen.
    unfold MAX_TITLE_LENGTH in *. lia. }
  exists k. split; [exact Hlt|]. split; [|split].
  - rewrite <- Hres. unfold _truncate_title. fold cleaned. fold words.
    replace (length cleaned <=? MAX_TITLE_LENGTH) with false
      by (symmetry; apply Nat.leb_gt; exact Hlong).
    replace (str_eqb (truncate_words words []) cleaned) with false;
      [reflexivity|].
    symmetry. destruct (str_eqb _ cleaned) eqn:E; [|reflexivity].
    apply str_eqb_eq in E. rewrite E in Hlen.
    unfold MAX_TITLE_LENGTH in *. lia.
  - rewrite <- Hjoin. rewrite <- (firstn_skipn k words) at 2.
    destruct k as [|k']; [reflexivity|].
    rewrite join_app.
    + now rewrite firstn_app, Nat.sub_diag, firstn_all, app_nil_r.
    + destruct words; [cbn in Hlt; lia | discriminate].
    + intros E. apply (f_equal (@length str)) in E.
      rewrite length_skipn in E. cbn [length] in E. lia.
  - apply Hstop. exact Hlt.
Qed.

End TitleCut.

Lemma truncate_title_word_boundary_witness :
  MAX_TITLE_LENGTH
  < length (_validate_and_clean_text_input html5_core
              (PyStr (times 40 (L "A "))))
  /\ exists k,
       k < length (split_ws (_validate_and_clean_text_input html5_core
                               (PyStr (times 40 (L "A ")))))
       /\ _truncate_title html5_core (times 40 (L "A "))
          = join (L " ")
              (firstn k
                 (split_ws (_validate_and_clean_text_input html5_core
                              (PyStr (times 40 (L "A ")))))) ++ L "..."
       /\ firstn
            (length
               (join (L " ")
                  (firstn k
                     (split_ws (_validate_and_clean_text_input html5_core
                                  (PyStr (times 40 (L "A "))))))))
            (_validate_and_clean_text_input html5_core
               (PyStr (times 40 (L "A "))))
          = join (L " ")
              (firstn k
                 (split_ws (_validate_and_clean_text_input html5_core
                              (PyStr (times 40 (L "A "))))))
       /\ MAX_TITLE_LENGTH - 3
          < length
              (join (L " ")
                 (firstn k
                    (split_ws (_validate_and_clean_text_input html5_core
                                 (PyStr (times 40 (L "A "))))))
               ++ L " "
               ++ nth k
                    (split_ws (_validate_and_clean_text_input html5_core
                                 (PyStr (times 40 (L "A "))))) []).
Proof.
  assert (H : MAX_TITLE_LENGTH
              < length (_validate_and_clean_text_input html5_core
                          (PyStr (times 40 (L "A "))))).
  { vm_compute. lia. }
  split; [exact H|].
  exact (truncate_title_word_boundary html5_core (times 40 (L "A ")) H).
Defined.

(** ** Deduplicated topics: a second pass changes nothing *)

Lemma set_inter_self (a : set str) :
  NoDup a -> length (set_inter str_eq_dec a a) = length a.
Proof.
  intros Ha. apply Permutation_length, NoDup_Permutation;
    [now apply set_inter_nodup | exact Ha |].
  intros x. rewrite set_inter_iff. tauto.
Qed.

Lemma set_union_self (a : set str) :
  NoDup a -> length (set_union str_eq_dec a a) = length a.
Proof.
  intros Ha. apply Permutation_length, NoDup_Permutation;
    [now apply set_union_nodup | exact Ha |].
  intros x. rewrite set_union_iff. tauto.
Qed.

Lemma NoDup_snoc {A : Type} (l : list A) (x : A) :
  NoDup l -> ~ In x l -> NoDup (l ++ [x]).
Proof.
  intros Hl Hx. apply NoDup_app; [exact Hl | repeat constructor; easy |].
  intros a Ha [<-|[]]. contradiction.
Qed.

Section DedupeStable.

Variable str_lower : str -> str.
Variable is_word : char -> bool.

(** Two topics with the same words are similar. *)
Lemma are_similar_same_words (a b : str) :
  word_set str_lower is_word a = word_set str_lower is_word b ->
  word_set str_lower is_word a <> [] ->
  are_similar str_lower is_word a b = true.
Proof.
  intros E Hne. unfold are_similar. rewrite <- E.
  rewrite (proj2 (truthy_true _) Hne). cbn [negb orb].
  assert (Hnd : NoDup (word_set str_lower is_word a)) by apply NoDup_nodup.
  rewrite set_inter_self, set_union_self by exact Hnd.
  destruct (word_set str_lower is_word a) as [|w ws]; [contradiction|].
  apply Qle_bool_iff. unfold Qle, threshold. cbn [Qnum Qden length].
  rewrite <- Pos.of_nat_succ, Zpos_P_of_succ_nat. lia.
Qed.

Lemma filtered_topics_kept_list (topics : list str) :
  kept_list str_lower is_word (filtered_topics str_lower is_word topics).
Proof.
  induction topics as [|t topics IH] using rev_ind; [constructor|].
  rewrite dedupe_snoc. cbv zeta.
  destruct (keeps str_lower is_word
              (filtered_topics str_lower is_word topics) t) eqn:E;
    [now constructor | exact IH].
Qed.

Lemma kept_list_fixed (kept : list str) :
  kept_list str_lower is_word kept ->
  filtered_topics str_lower is_word kept = kept.
Proof.
  induction 1 as [|kept t _ IH Hk]; [reflexivity|].
  rewrite dedupe_snoc. cbv zeta. now rewrite IH, Hk.
Qed.

Lemma kept_list_distinct (kept : list str) :
  kept_list str_lower is_word kept ->
  NoDup (map (normalize_for_comparison str_lower is_word) kept).
Proof.
  induction 1 as [|kept t Hkept IH Hk]; [constructor|].
  rewrite map_app. cbn [map]. apply NoDup_snoc; [exact IH|].
  intros Hin. apply in_map_iff in Hin. destruct Hin as [e [He Hine]].
  unfold keeps in Hk. apply andb_prop in Hk. destruct Hk as [Hlen Hsim].
  apply Nat.ltb_lt in Hlen.
  assert (Hs : existsb (are_similar str_lower is_word t) kept = true).
  { apply existsb_exists. exists e. split; [exact Hine|].
    apply are_similar_same_words;
      [unfold word_set; now rewrite He | now apply word_set_nonempty]. }
  rewrite Hs in Hsim. discriminate.
Qed.

(** The deduplication is idempotent: run on the topics it kept, it keeps
    them all, in the same order. *)
Theorem dedupe_idempotent (topics : list str) :
  filtered_topics str_lower is_word
    (filtered_topics str_lower is_word topics)
  = filtered_topics str_lower is_word topics.
Proof. apply kept_list_fixed, filtered_topics_kept_list. Qed.

(** No two kept topics have the same normalized form: a topic that
    differs from a kept one only by letter case, punctuation or spacing
    is dropped, and no topic is kept twice. *)
Theorem dedupe_distinct_normal_forms (topics : list str) :
  let kept := filtered_topics str_lower is_word topics in
  NoDup (map (normalize_for_comparison str_lower is_word) kept)
  /\ NoDup kept.
Proof.
  intros kept.
  assert (H : NoDup (map (normalize_for_comparison str_lower is_word) kept))
    by apply kept_list_distinct, filtered_topics_kept_list.
  split; [exact H | exact (NoDup_map_inv _ _ H)].
Qed.

End DedupeStable.

(** ** Text without markers becomes one plain run *)

(** A pattern that can only match at a given first character. *)
Lemma match_at_needs (c : char) (r : regex) :
  (forall prev s cap k, hd_error s <> Some c -> rmatch r prev s cap k = None) ->
  forall prev s, ~ In c s -> match_at r prev s = None.
Proof.
  intros Hr prev s Hs. unfold match_at. apply Hr.
  destruct s as [|x t]; [discriminate|]. cbn [hd_error].
  intros E. injection E as ->. apply Hs. now left.
Qed.

Lemma sub_from_needs (c : char) (r : regex) (repl : option str -> str) :
  (forall prev s cap k, hd_error s <> Some c -> rmatch r prev s cap k = None) ->
  forall s prev, ~ In c s -> sub_from r repl 0 prev s = s.
Proof.
  intros Hr. induction s as [|x t IH]; intros prev Hs; cbn [sub_from];
    rewrite (match_at_needs c r Hr) by exact Hs; [reflexivity|].
  f_equal. apply IH. intros Hin. apply Hs. now right.
Qed.

Lemma split_from_needs (c : char) (r : regex) :
  (forall prev s cap k, hd_error s <> Some c -> rmatch r prev s cap k = None) ->
  forall s prev cur, ~ In c s -> split_from r 0 prev cur s = [rev cur ++ s].
Proof.
  intros Hr. induction s as [|x t IH]; intros prev cur Hs; cbn [split_from];
    rewrite (match_at_needs c r Hr) by exact Hs.
  - now rewrite app_nil_r.
  - rewrite IH by (intros Hin; apply Hs; now right).
    cbn [rev]. now rewrite <- app_assoc.
Qed.

Lemma italic_span_needs_star :
  forall prev s cap k,
    hd_error s <> Some (ch "*") -> rmatch italic_span prev s cap k = None.
Proof.
  intros prev s cap k Hs. unfold italic_span. cbn [rmatch].
  destruct (Bool.eqb _ false); [|reflexivity].
  destruct s as [|x t]; [reflexivity|].
  destruct (N.eqb_spec x (ch "*")) as [->|Hne]; [|reflexivity].
  exfalso. now apply Hs.
Qed.

Lemma starts_with_absent (c : char) (pre s : str) :
  ~ In c s -> starts_with (c :: pre) s = false.
Proof.
  intros Hs. destruct s as [|x t]; [reflexivity|]. cbn [starts_with].
  destruct (N.eqb_spec c x) as [->|Hne]; [|reflexivity].
  exfalso. apply Hs. now left.
Qed.

Section FormatterPlain.

Variable html5 : str -> option str.

Lemma process_text_formatting_plain (text : str) :
  let cleaned := _validate_and_clean_text_input html5 (PyStr text) in
  truthy text = true ->
  ~ In (ch "*") cleaned -> ~ In (ch "_") cleaned -> ~ In (ch "~") cleaned ->
  _process_text_formatting html5 text = cleaned.
Proof.
  intros cleaned Ht Hstar Hunder Htilde. unfold _process_text_formatting.
  rewrite Ht. cbn [negb]. fold cleaned. unfold re_sub.
  rewrite (sub_from_needs (ch "*") bold_span _
             (begins_with_no_match (ch "*") bold_span eq_refl))
    by exact Hstar.
  rewrite (sub_from_needs (ch "*") italic_span _ italic_span_needs_star)
    by exact Hstar.
  rewrite (sub_from_needs (ch "_") underscore_span _
             (begins_with_no_match (ch "_") underscore_span eq_refl))
    by exact Hunder.
  now rewrite (sub_from_needs (ch "~") strike_span _
                 (begins_with_no_match (ch "~") strike_span eq_refl))
    by exact Htilde.
Qed.

(** A text whose cleaned form holds no star, no underscore and no tilde
    is shown as one run: the cleaned text, neither bold nor italic, in
    Calibri at the content size. When the cleaned form is empty (a text
    of whitespace or tags only) the run holds the text as it was given. *)
Theorem apply_text_formatting_plain (p : paragraph) (original_text : str) :
  let cleaned := _validate_and_clean_text_input html5 (PyStr original_text) in
  truthy original_text = true ->
  contains (ch "*") cleaned = false ->
  contains (ch "_") cleaned = false ->
  contains (ch "~") cleaned = false ->
  _apply_text_formatting html5 p original_text
  = [ mkRun (if truthy cleaned then cleaned else original_text) None None
        (Some DEFAULT_CONTENT_FONT_SIZE) (Some (L "Calibri")) ].
Proof.
  intros cleaned Ht Hstar Hunder Htilde.
  apply contains_false in Hstar, Hunder, Htilde.
  unfold _apply_text_formatting. rewrite Ht. cbn [negb].
  rewrite process_text_formatting_plain by assumption. fold cleaned.
  unfold re_split.
  rewrite (split_from_needs (ch "*") bold_part
             (begins_with_no_match (ch "*") bold_part eq_refl))
    by exact Hstar.
  cbn [rev app truthy negb orb forallb andb].
  assert (Hstrip : strip cleaned = cleaned).
  { unfold cleaned. cbn [_validate_and_clean_text_input]. unfold clean_text.
    rewrite normalize_whitespace_collapse. apply strip_strip. }
  rewrite Hstrip. destruct cleaned as [|c t] eqn:E; [reflexivity|].
  rewrite <- E in *. replace (truthy cleaned) with true by (now rewrite E).
  cbn [negb fold_left]. unfold part_step.
  replace (truthy cleaned) with true by (now rewrite E).
  cbn [negb]. change (L "**") with (ch "*" :: L "*").
  rewrite (starts_with_absent (ch "*") _ cleaned Hstar). cbn [andb].
  unfold re_split.
  rewrite (split_from_needs (ch "*") italic_part
             (begins_with_no_match (ch "*") italic_part eq_refl))
    by exact Hstar.
  cbn [rev app]. unfold enumerate. cbn [length seq combine fold_left].
  unfold italic_step. replace (truthy cleaned) with true by (now rewrite E).
  cbn [negb Nat.ltb Nat.leb]. change (L "*") with [ch "*"].
  rewrite (starts_with_absent (ch "*") _ cleaned Hstar). cbn [andb].
  reflexivity.
Qed.

End FormatterPlain.

Lemma apply_text_formatting_plain_witness :
  (truthy (L "  Plain <b>text</b> ") = true
   /\ contains (ch "*")
        (_validate_and_clean_text_input html5_core
           (PyStr (L "  Plain <b>text</b> "))) = false
   /\ contains (ch "_")
        (_validate_and_clean_text_input html5_core
           (PyStr (L "  Plain <b>text</b> "))) = false
   /\ contains (ch "~")
        (_validate_and_clean_text_input html5_core
           (PyStr (L "  Plain <b>text</b> "))) = false)
  /\ _apply_text_formatting html5_core [] (L "  Plain <b>text</b> ")
     = [ mkRun
           (if truthy (_validate_and_clean_text_input html5_core
                         (PyStr (L "  Plain <b>text</b> ")))
            then _validate_and_clean_text_input html5_core
                   (PyStr (L "  Plain <b>text</b> "))
            else L "  Plain <b>text</b> ")
           None None (Some DEFAULT_CONTENT_FONT_SIZE) (Some (L "Calibri")) ].
Proof.
  split; [repeat split; vm_compute; reflexivity|].
  apply (apply_text_formatting_plain html5_core [] (L "  Plain <b>text</b> "));
    vm_compute; reflexivity.
Defined.

(** ** The name of the file saved *)

Lemma starts_with_app (pre rest : str) : starts_with pre (pre ++ rest) = true.
Proof.
  induction pre as [|c pre IH]; [reflexivity|].
  cbn [app starts_with]. now rewrite N.eqb_refl, IH.
Qed.

Lemma str_in_app (needle before after : str) :
  str_in needle (before ++ needle ++ after) = true.
Proof.
  induction before as [|c before IH]; cbn [app].
  - destruct (needle ++ after) eqn:E; cbn [str_in]; rewrite <- E;
      now rewrite starts_with_app.
  - cbn [str_in]. rewrite IH. apply orb_true_r.
Qed.

Lemma ends_with_app (suf before : str) : ends_with suf (before ++ suf) = true.
Proof. unfold ends_with. rewrite rev_app_distr. apply starts_with_app. Qed.

Section SavedName.

Variable str_lower : str -> str.

(** Unless the template is ["default"], the name of the file saved
    contains the name of the template, whatever name was asked for. *)
Theorem save_name_holds_template (template_name : str)
    (filename : option str) :
  str_eqb template_name (L "default") = false ->
  str_in template_name (save str_lower template_name filename) = true.
Proof.
  intros Ht. unfold save. rewrite Ht. cbn [negb andb].
  set (asked := match filename with
                | Some name => name
                | None => L "enhanced_presentation.pptx"
                end).
  set (named := if negb (truthy asked)
                then L "presentation_" ++ template_name ++ L ".pptx"
                else asked).
  set (full := if negb (ends_with (L ".pptx") (str_lower named))
               then named ++ L ".pptx"
               else named).
  destruct (str_in template_name full) eqn:E; cbn [negb]; [exact E|].
  cbv zeta. rewrite app_assoc. apply str_in_app.
Qed.

(** The name of the file saved has the extension [.pptx], as written or
    once put in lower case. *)
Theorem save_name_extension (template_name : str) (filename : option str) :
  ends_with (L ".pptx") (save str_lower template_name filename) = true
  \/ ends_with (L ".pptx")
       (str_lower (save str_lower template_name filename)) = true.
Proof.
  unfold save.
  set (asked := match filename with
                | Some name => name
                | None => L "enhanced_presentation.pptx"
                end).
  set (named := if negb (truthy asked)
                then L "presentation_" ++ template_name ++ L ".pptx"
                else asked).
  destruct (negb (str_eqb template_name (L "default"))
            && negb (str_in template_name _)).
  - left. cbv zeta. rewrite 2!app_assoc. apply ends_with_app.
  - destruct (ends_with (L ".pptx") (str_lower named)) eqn:E; cbn [negb].
    + right. exact E.
    + left. apply ends_with_app.
Qed.

End SavedName.

Lemma save_name_holds_template_witness :
  str_eqb (L "green") (L "default") = false
  /\ str_in (L "green") (save ascii_lower (L "green") (Some (L "Deck.PPTX")))
     = true.
Proof.
  split; [reflexivity|].
  apply (save_name_holds_template ascii_lower (L "green")
           (Some (L "Deck.PPTX"))).
  reflexivity.
Defined.

(** ** The bullets [engine] returns *)

Lemma subseq_nil_l {A : Type} (l : list A) : subseq [] l.
Proof. induction l; now constructor. Qed.

Lemma subseq_refl {A : Type} (l : list A) : subseq l l.
Proof. induction l; now constructor. Qed.

Lemma subseq_filter {A : Type} (f : A -> bool) (l : list A) :
  subseq (filter f l) l.
Proof.
  induction l as [|x l IH]; [constructor|]. cbn [filter].
  destruct (f x); now constructor.
Qed.

Lemma subseq_firstn {A : Type} (l : list A) :
  forall n, subseq (firstn n l) l.
Proof.
  induction l as [|x l IH]; intros [|n]; cbn [firstn];
    try constructor; [apply subseq_nil_l | apply IH].
Qed.

Lemma subseq_trans {A : Type} (b c : list A) :
  subseq b c -> forall a, subseq a b -> subseq a c.
Proof.
  induction 1 as [|x b c _ IH|x b c _ IH]; intros a Hab.
  - exact Hab.
  - constructor. now apply IH.
  - inversion Hab as [|y a' b' Ha|y a' b' Ha]; subst;
      constructor; now apply IH.
Qed.

Lemma Forall_firstn {A : Type} (P : A -> Prop) (l : list A) (n : nat) :
  Forall P l -> Forall P (firstn n l).
Proof.
  intros H. rewrite <- (firstn_skipn n l) in H.
  now apply Forall_app in H.
Qed.

Lemma Forall_filter {A : Type} (f : A -> bool) (l : list A) :
  Forall (fun x => f x = true) (filter f l).
Proof. apply Forall_forall. intros x Hx. now apply filter_In in Hx. Qed.

Section EngineBullets.

Variable str_lower : str -> str.

(** From a response [engine] returns at most eight bullets, all of them
    lines of the response, in their order, each of five words or more;
    either all of them pass the quality test (50 to 200 characters, eight
    words or more, no stock phrase) or there are six at most. When the
    request fails it returns one stock sentence, which the test of [note]
    (three bullets at least) turns down: the topic gets no section. *)
Theorem engine_bullets (topic : str) (response : option (list str)) :
  let bullets := engine str_lower topic response in
  match response with
  | Some cleaned_bullets =>
      length bullets <= 8
      /\ subseq bullets cleaned_bullets
      /\ Forall (fun b => 5 <= length (split_ws b)) bullets
      /\ (Forall (fun b => quality_bullet str_lower b = true) bullets
          \/ length bullets <= 6)
  | None => length bullets = 1 /\ makes_section bullets = false
  end.
Proof.
  intros bullets. destruct response as [cleaned_bullets|];
    [|split; reflexivity].
  unfold bullets, engine.
  set (quality := filter (quality_bullet str_lower) cleaned_bullets).
  set (backup := filter (fun b => 5 <=? length (split_ws b)) cleaned_bullets).
  assert (Hq : Forall (fun b => quality_bullet str_lower b = true) quality)
    by apply Forall_filter.
  assert (Hb : Forall (fun b => 5 <= length (split_ws b)) backup).
  { eapply Forall_impl; [|apply Forall_filter]. cbv beta.
    intros b Hw. now apply Nat.leb_le in Hw. }
  assert (Hqw : Forall (fun b => 5 <= length (split_ws b)) quality).
  { eapply Forall_impl; [|exact Hq]. cbv beta. intros b Hw.
    unfold quality_bullet in Hw. apply andb_prop in Hw.
    destruct Hw as [_ Hw]. apply Nat.leb_le in Hw. lia. }
  split; [apply firstn_le_length|].
  destruct (length quality <? 3).
  - split; [|split].
    + eapply subseq_trans; [apply subseq_filter|].
      eapply subseq_trans; apply subseq_firstn.
    + now apply Forall_firstn, Forall_firstn.
    + right. rewrite length_firstn, length_firstn. lia.
  - split; [|split].
    + eapply subseq_trans; [apply subseq_filter | apply subseq_firstn].
    + now apply Forall_firstn.
    + left. now apply Forall_firstn.
Qed.

(** ** The subject detected *)

Lemma first_subject_range (patterns : list (str * list str)) (text : str) :
  In (first_subject patterns text)
    (map fst patterns ++ [L "General Academic"]).
Proof.
  induction patterns as [|[subject keywords] rest IH];
    cbn [first_subject map fst app]; [now left|].
  destruct (existsb _ keywords); [now left | now right].
Qed.

(** The subject depends on the first five topics only; it is the empty
    string exactly when there is no topic, and otherwise one of the eight
    subjects of the table or ["General Academic"]. *)
Theorem detect_subject_area_range (topics_sample : list str) :
  let subject := detect_subject_area str_lower topics_sample in
  subject = detect_subject_area str_lower (firstn 5 topics_sample)
  /\ truthy subject = truthy topics_sample
  /\ In subject ([] :: map fst subject_patterns ++ [L "General Academic"]).
Proof.
  intros subject. unfold subject, detect_subject_area.
  rewrite firstn_firstn. change (Nat.min 5 5) with 5.
  destruct topics_sample as [|t rest]; [repeat split; now left|].
  cbn [truthy negb]. split; [reflexivity|].
  set (text := str_lower (join (L " ") (firstn 5 (t :: rest)))).
  pose proof (first_subject_range subject_patterns text) as H.
  split; [|now right].
  destruct (first_subject subject_patterns text) as [|c s] eqn:E;
    [|reflexivity].
  exfalso. apply in_app_or in H. destruct H as [H|[H|[]]]; [|discriminate].
  cbn [map fst subject_patterns] in H.
  repeat (destruct H as [H|H]; [discriminate|]). contradiction.
Qed.

End EngineBullets.

(** ** The body of a section slide *)

Lemma on_run_Forall (P : run -> Prop) (f : run -> run) (p : paragraph) :
  (forall r, P r -> P (f r)) -> Forall P p -> Forall P (on_run f p).
Proof.
  intros Hf Hp. unfold on_run. destruct (rev p) as [|r before] eqn:E;
    [exact Hp|].
  assert (Hrev : Forall P (rev p)) by now apply Forall_rev.
  rewrite E in Hrev. inversion Hrev as [|? ? Hr Hb]; subst.
  apply Forall_app. split; [now apply Forall_rev|].
  constructor; [now apply Hf | constructor].
Qed.

Lemma length_on_run (f : run -> run) (p : paragraph) :
  length (on_run f p) = length p.
Proof.
  unfold on_run. destruct (rev p) as [|r before] eqn:E; [reflexivity|].
  rewrite <- (length_rev p), E, length_app, length_rev. cbn [length]. lia.
Qed.

Lemma add_run_unset (p : paragraph) :
  Forall unset_or_content_font p -> Forall unset_or_content_font (add_run p).
Proof.
  intros H. apply Forall_app. split; [exact H|].
  repeat constructor; now left.
Qed.

Ltac keeps_font :=
  let r := fresh "r" in
  let H := fresh "H" in
  intros r H; exact H.

Ltac on_runs :=
  repeat (apply on_run_Forall; [keeps_font|]).

Lemma italic_step_unset (p : paragraph) (item : nat * str) :
  Forall unset_or_content_font p ->
  Forall unset_or_content_font (italic_step p item).
Proof.
  intros H. destruct item as [i part]. unfold italic_step.
  destruct (negb (truthy part)); [exact H|].
  assert (H' : Forall unset_or_content_font (if 0 <? i then add_run p else p))
    by (destruct (0 <? i); [now apply add_run_unset | exact H]).
  destruct (_ && _ && _ && _); on_runs; exact H'.
Qed.

Lemma length_italic_step (p : paragraph) (item : nat * str) :
  length p <= length (italic_step p item).
Proof.
  destruct item as [i part]. unfold italic_step.
  destruct (negb (truthy part)); [lia|].
  assert (H : length p <= length (if 0 <? i then add_run p else p)).
  { destruct (0 <? i); [|lia]. unfold add_run. rewrite length_app. lia. }
  destruct (_ && _ && _ && _); rewrite ?length_on_run; exact H.
Qed.

Lemma fold_italic_step (items : list (nat * str)) :
  forall p,
    Forall unset_or_content_font p ->
    Forall unset_or_content_font (fold_left italic_step items p)
    /\ length p <= length (fold_left italic_step items p).
Proof.
  induction items as [|item rest IH]; intros p Hp; cbn [fold_left];
    [split; [exact Hp | lia]|].
  destruct (IH (italic_step p item) (italic_step_unset p item Hp)) as [H1 H2].
  split; [exact H1|]. pose proof (length_italic_step p item). lia.
Qed.

Lemma part_step_unset (p : paragraph) (part : str) :
  Forall unset_or_content_font p ->
  Forall unset_or_content_font (part_step p part)
  /\ length p <= length (part_step p part)
  /\ (truthy part = true -> length p < length (part_step p part)).
Proof.
  intros Hp. unfold part_step. destruct (truthy part); cbn [negb];
    [|repeat split; [exact Hp | lia | discriminate]].
  assert (Ha : Forall unset_or_content_font (add_run p))
    by now apply add_run_unset.
  assert (Hl : length (add_run p) = S (length p))
    by (unfold add_run; rewrite length_app; cbn [length]; lia).
  destruct (_ && _ && _).
  - repeat split.
    + apply on_run_Forall; [|on_runs; exact Ha].
      intros r _. split; now right.
    + rewrite !length_on_run. lia.
    + rewrite !length_on_run. lia.
  - destruct (fold_italic_step (enumerate (re_split italic_part part))
                (add_run p) Ha) as [H1 H2].
    repeat split.
    + apply on_run_Forall; [|exact H1]. intros r _. split; now right.
    + rewrite length_on_run. lia.
    + rewrite length_on_run. lia.
Qed.

Lemma fold_part_step (parts : list str) :
  forall p,
    Forall unset_or_content_font p ->
    Forall unset_or_content_font (fold_left part_step parts p)
    /\ length p <= length (fold_left part_step parts p)
    /\ (existsb (@truthy char) parts = true ->
        length p < length (fold_left part_step parts p)).
Proof.
  induction parts as [|part rest IH]; intros p Hp; cbn [fold_left existsb];
    [repeat split; [exact Hp | lia | discriminate]|].
  destruct (part_step_unset p part Hp) as [H1 [H2 H3]].
  destruct (IH (part_step p part) H1) as [G1 [G2 G3]].
  repeat split; [exact G1 | lia |].
  intros H. apply orb_prop in H. destruct H as [H|H].
  - specialize (H3 H). lia.
  - specialize (G3 H). lia.
Qed.

Section SectionSlideBody.

Variable html5 : str -> option str.

Lemma apply_text_formatting_runs (point : str) :
  truthy point = true ->
  Forall unset_or_content_font (_apply_text_formatting html5 [] point)
  /\ 1 <= length (_apply_text_formatting html5 [] point).
Proof.
  intros Hp. unfold _apply_text_formatting. rewrite Hp. cbn [negb].
  set (parts := re_split bold_part (_process_text_formatting html5 point)).
  destruct (negb (truthy parts)) eqn:Hparts; cbn [orb].
  - split; [|cbn; lia]. repeat constructor; now right.
  - destruct (forallb (fun part => negb (truthy (strip part))) parts) eqn:Hall.
    + split; [|cbn; lia]. repeat constructor; now right.
    + destruct (fold_part_step parts [] (Forall_nil _)) as [H1 [_ H3]].
      split; [exact H1|]. cbn [length] in H3.
      assert (Hex : existsb (@truthy char) parts = true).
      { clear -Hall. induction parts as [|part rest IH];
          cbn [forallb existsb] in *; [discriminate|].
        destruct (truthy part) eqn:E; [reflexivity|]. cbn [orb].
        apply truthy_false in E. subst part. cbn in Hall. now apply IH. }
      specialize (H3 Hex). lia.
Qed.

Lemma ensure_font_content (r : run) :
  unset_or_content_font r -> content_font (ensure_font r).
Proof.
  intros [[Hs|Hs] [Hn|Hn]]; unfold content_font, ensure_font;
    cbn [font_size font_name]; rewrite Hs, Hn; split; reflexivity.
Qed.

Variable title_content_layout : layout.

(** The slide [add_section_slide] appends: when the slides of the layout
    have more than one placeholder it has five bullets at most, one for
    each of the first five items whose cleaned text has more than ten
    characters, and otherwise no bullet is written; every bullet written
    has at least one run, and every run of the body is in Calibri at the
    content size, 16 points. *)
Theorem add_section_slide_body (title : str) (content : list str)
    (slide_number total_slides : Z) (ppt : presentation) :
  exists slide_title body,
    add_section_slide html5 title_content_layout title content slide_number
      total_slides ppt
    = ppt ++ [SectionSlide slide_title body]
    /\ length body
       = (if 1 <? n_placeholders title_content_layout
          then Nat.min MAX_BULLETS_PER_SLIDE
                 (length (cleaned_content html5 content))
          else 0)
    /\ Forall (fun bullet => 1 <= length bullet) body
    /\ Forall (Forall content_font) body.
Proof.
  unfold add_section_slide, body_paragraphs. eexists. eexists.
  split; [reflexivity|].
  destruct (1 <? n_placeholders title_content_layout); cbn [andb];
    [|repeat split; constructor].
  destruct (cleaned_content html5 content) as [|item items] eqn:E;
    cbn [truthy]; [repeat split; constructor|].
  rewrite <- E. split; [now rewrite length_map, length_firstn|].
  assert (Hpoints : Forall (fun point => truthy point = true)
                      (firstn MAX_BULLETS_PER_SLIDE
                         (cleaned_content html5 content))).
  { apply Forall_firstn. unfold cleaned_content.
    eapply Forall_impl; [|apply Forall_filter]. cbv beta.
    intros point H. now apply andb_prop in H. }
  split; apply Forall_map; (eapply Forall_impl; [|exact Hpoints]); cbv beta;
    intros point Hp; destruct (apply_text_formatting_runs point Hp) as [H1 H2];
    unfold bullet_paragraph.
  - now rewrite length_map.
  - apply Forall_map. eapply Forall_impl; [|exact H1].
    apply ensure_font_content.
Qed.

End SectionSlideBody.

(** On a layout whose slides have a title alone, the bullets are not
    written. *)
Example add_section_slide_without_body :
  add_section_slide html5_core title_only (L "Membranes")
    [ L "The membrane separates the cell from its medium." ] 2 15 []
  = [ SectionSlide (Some (L "Membranes")) [] ].
Proof. vm_compute. reflexivity. Qed.

(** ** The presentation [generate_from_content] builds *)

Lemma length_flat_map_ge {A B C : Type} (f : A * B -> list C)
    (has : B -> bool) :
  (forall i x, has x = true -> 1 <= length (f (i, x))) ->
  forall (xs : list B) (idxs : list A),
    length idxs = length xs ->
    length (filter has xs) <= length (flat_map f (combine idxs xs)).
Proof.
  intros Hf. induction xs as [|x xs IH]; intros [|i idxs] Hlen;
    cbn [filter combine flat_map length] in *; try lia.
  rewrite length_app. specialize (IH idxs ltac:(lia)).
  destruct (has x) eqn:E; cbn [length]; [|lia].
  specialize (Hf i x E). lia.
Qed.

Lemma length_flat_map_le {A B : Type} (f : A -> list B) (m : nat)
    (xs : list A) :
  Forall (fun x => length (f x) <= m) xs ->
  length (flat_map f xs) <= length xs * m.
Proof.
  induction 1 as [|x xs Hx _ IH]; cbn [flat_map length]; [lia|].
  rewrite length_app. lia.
Qed.

Section GeneratedDeck.

Variable html5 : str -> option str.
Variable title_slide_layout : layout.
Variable title_content_layout : layout.

Lemma fold_slide_step (target_slides : Z) (items : list slide_spec) :
  forall ppt slide_count,
    fold_left (slide_step html5 title_content_layout target_slides) items
      (ppt, slide_count)
    = (ppt ++ map (section_slide_of html5 title_content_layout) items,
       (slide_count + Z.of_nat (length items))%Z).
Proof.
  induction items as [|[slide_title slide_content] rest IH];
    intros ppt slide_count; cbn [fold_left map length].
  - rewrite app_nil_r. f_equal. cbn. lia.
  - cbn [slide_step]. rewrite IH. unfold add_section_slide.
    rewrite <- app_assoc. f_equal. lia.
Qed.

Lemma fold_section_step (available_slides target_slides : Z)
    (n_sections : nat) (items : list (nat * section_dict)) :
  forall ppt slide_count,
    fst (fold_left
           (section_step html5 title_content_layout available_slides
              target_slides n_sections)
           items (ppt, slide_count))
    = ppt ++ flat_map
               (section_slides html5 title_content_layout available_slides
                  n_sections)
               items.
Proof.
  induction items as [|[section_idx section] rest IH];
    intros ppt slide_count; cbn [fold_left flat_map].
  - now rewrite app_nil_r.
  - unfold section_step at 2, section_slides at 1. cbn [fst snd].
    destruct (truthy (get (section_content section) [])); cbn [negb].
    + rewrite fold_slide_step, IH. now rewrite <- app_assoc.
    + apply IH.
Qed.

Lemma section_slides_at_least_one (available_slides : Z) (n_sections : nat)
    (section_idx : nat) (section : section_dict) :
  has_content section = true ->
  1 <= length (section_slides html5 title_content_layout available_slides
                 n_sections (section_idx, section)).
Proof.
  unfold has_content, section_slides. cbn [fst snd]. intros ->.
  rewrite length_map, length_distribute_content.
  destruct (_ =? 0) eqn:E; [lia|]. apply Nat.eqb_neq in E.
  apply ceil_div_pos; [|lia]. apply points_per_slide_range.
Qed.

Lemma section_slides_kind (available_slides : Z) (n_sections : nat)
    (items : list (nat * section_dict)) :
  forallb is_section_slide
    (flat_map
       (section_slides html5 title_content_layout available_slides
          n_sections)
       items)
  = true.
Proof.
  apply forallb_forall. intros s Hs. apply in_flat_map in Hs.
  destruct Hs as [item [_ Hs]]. unfold section_slides in Hs.
  destruct (truthy _); [|contradiction].
  apply in_map_iff in Hs. now destruct Hs as [spec [<- _]].
Qed.

(** The presentation [generate_from_content] returns is the one it was
    given, then a title slide and, when there are sections, the slides
    of the sections in their order and a closing slide, titled
    ["Thank You"] when its layout has a title shape; without sections it
    ends with the title slide. Every section with content gets at least
    one slide, a section without content none, and the number returned
    is the number of slides. This holds for every pair of layouts. *)
Theorem generate_from_content_deck (content : content_dict)
    (ppt : presentation) :
  let sections := get (content_sections content) [] in
  let target_slides := Z.max 1 (get (content_target_slides content) 15%Z) in
  let available_slides := Z.max 1 (target_slides - 2) in
  let section_part :=
    flat_map
      (section_slides html5 title_content_layout available_slides
         (length sections))
      (enumerate sections) in
  let result :=
    generate_from_content html5 title_slide_layout title_content_layout
      content ppt in
  snd result = length (fst result)
  /\ (exists title subtitle closing,
        fst result
        = ppt ++ TitleSlide title subtitle
                 :: (if truthy sections
                     then section_part
                            ++ [ClosingSlide
                                (title_text title_slide_layout
                                   (L "Thank You")) closing]
                     else []))
  /\ forallb is_section_slide section_part = true
  /\ length (filter has_content sections) <= length section_part.
Proof.
  intros sections target_slides available_slides section_part result.
  split; [|split; [|split]].
  - unfold result, generate_from_content. fold sections.
    destruct (negb (truthy sections)); [reflexivity|].
    now destruct (fold_left _ _ _).
  - unfold result, generate_from_content.
    fold sections. fold target_slides. fold available_slides.
    do 3 eexists. destruct (truthy sections); cbn [negb].
    + destruct (fold_left _ _ _) as [deck count] eqn:E.
      apply (f_equal fst) in E. rewrite fold_section_step in E.
      cbn [fst] in E. subst deck. fold section_part.
      unfold add_closing_slide, add_title_slide.
      rewrite <- !app_assoc. cbn [app]. f_equal. f_equal. f_equal.
      f_equal. reflexivity.
    + reflexivity.
  - apply section_slides_kind.
  - unfold section_part, enumerate.
    apply length_flat_map_ge; [|now rewrite length_seq].
    intros i x. apply section_slides_at_least_one.
Qed.

End GeneratedDeck.

Section DeckBudget.

Variable html5 : str -> option str.
Variable title_slide_layout : layout.
Variable title_content_layout : layout.

Lemma section_slides_within (available_slides : Z) (n_sections : nat)
    (item : nat * section_dict) :
  let m := (available_slides / Z.of_nat n_sections)%Z in
  (1 <= m)%Z ->
  (Z.of_nat (length (processed_content html5
                       (get (section_content (snd item)) [])))
   <= 5 * m)%Z ->
  length (section_slides html5 title_content_layout available_slides
            n_sections item)
  <= Z.to_nat m.
Proof.
  intros m Hm Hfew. unfold section_slides.
  destruct (truthy (get (section_content (snd item)) []));
    [|cbn [length]; lia].
  rewrite length_map, length_distribute_content. fold m.
  replace (Z.max 1 m) with m by lia.
  pose proof (proj2 (slide_count_budget _ m ltac:(lia)) Hfew). lia.
Qed.

(** The presentation stays within [target_slides] when there are no more
    sections than [target_slides - 2] and every section has at most five
    processed bullets for each of the slides of its share,
    [(target_slides - 2) // len(sections)]: the number of slides returned
    is then at most the number the presentation had plus
    [target_slides]. *)
Theorem generate_from_content_within_target (content : content_dict)
    (ppt : presentation) :
  let sections := get (content_sections content) [] in
  let target_slides := Z.max 1 (get (content_target_slides content) 15%Z) in
  let n := Z.of_nat (length sections) in
  (1 <= n <= target_slides - 2)%Z ->
  Forall (fun section =>
            (Z.of_nat (length (processed_content html5
                                 (get (section_content section) [])))
             <= 5 * ((target_slides - 2) / n))%Z) sections ->
  (Z.of_nat
     (snd (generate_from_content html5 title_slide_layout
             title_content_layout content ppt))
   <= Z.of_nat (length ppt) + target_slides)%Z.
Proof.
  cbv zeta. unfold generate_from_content.
  set (sections := get (content_sections content) []).
  set (target_slides := Z.max 1 (get (content_target_slides content) 15%Z)).
  clearbody sections. clearbody target_slides. intros Hn Hfew.
  replace (Z.max 1 (target_slides - 2)) with (target_slides - 2)%Z by lia.
  replace (truthy sections) with true
    by (destruct sections; [cbn [length] in Hn; lia | reflexivity]).
  cbn [negb].
  destruct (fold_left _ _ _) as [deck count] eqn:E.
  apply (f_equal fst) in E. rewrite fold_section_step in E.
  cbn [fst] in E. subst deck. cbn [snd].
  unfold add_closing_slide, add_title_slide.
  rewrite !length_app. cbn [length].
  assert (Hsum : length (flat_map
                           (section_slides html5 title_content_layout
                              (target_slides - 2) (length sections))
                           (enumerate sections))
                 <= length (enumerate sections)
                    * Z.to_nat ((target_slides - 2)
                                / Z.of_nat (length sections))).
  { apply length_flat_map_le. apply Forall_forall. intros item Hitem.
    apply section_slides_within.
    - apply Z.div_le_lower_bound; lia.
    - unfold enumerate in Hitem. destruct item as [i section].
      apply in_combine_r in Hitem. rewrite Forall_forall in Hfew.
      now apply Hfew. }
  assert (Hlen : length (enumerate sections) = length sections).
  { unfold enumerate. rewrite length_combine, length_seq. apply Nat.min_id. }
  rewrite Hlen in Hsum. clear Hlen.
  set (section_part := flat_map _ (enumerate sections)) in *.
  clearbody section_part.
  set (n := Z.of_nat (length sections)) in *.
  set (m := ((target_slides - 2) / n)%Z) in *.
  assert (Hm : (1 <= m)%Z).
  { unfold m. apply Z.div_le_lower_bound; lia. }
  assert (Hnm : (n * m <= target_slides - 2)%Z).
  { unfold m. apply Z.mul_div_le. lia. }
  apply Nat2Z.inj_le in Hsum. rewrite Nat2Z.inj_mul in Hsum.
  rewrite Z2Nat.id in Hsum by lia. fold n in Hsum. lia.
Qed.

End DeckBudget.

Lemma generate_from_content_within_target_witness :
  ((1 <= Z.of_nat (length (get (content_sections one_section_content) []))
    <= Z.max 1 (get (content_target_slides one_section_content) 15%Z) - 2)%Z
   /\ Forall
        (fun section =>
           (Z.of_nat
              (length (processed_content html5_core
                         (get (section_content section) [])))
            <= 5 * ((Z.max 1
                       (get (content_target_slides one_section_content)
                          15%Z) - 2)
                    / Z.of_nat
                        (length
                           (get (content_sections one_section_content)
                              []))))%Z)
        (get (content_sections one_section_content) []))
  /\ (Z.of_nat (snd (generate_from_content html5_core title_and_body
                           title_and_body one_section_content []))
      <= Z.of_nat (length (@nil slide))
         + Z.max 1 (get (content_target_slides one_section_content) 15%Z))%Z.
Proof.
  assert (H1 : (1 <= Z.of_nat
                      (length (get (content_sections one_section_content) []))
                <= Z.max 1
                     (get (content_target_slides one_section_content) 15%Z)
                   - 2)%Z).
  { cbn. lia. }
  assert (H2 : Forall
                 (fun section =>
                    (Z.of_nat
                       (length (processed_content html5_core
                                  (get (section_content section) [])))
                     <= 5 * ((Z.max 1
                                (get
                                   (content_target_slides one_section_content)
                                   15%Z) - 2)
                             / Z.of_nat
                                 (length
                                    (get
                                       (content_sections one_section_content)
                                       []))))%Z)
                 (get (content_sections one_section_content) [])).
  { constructor; [|constructor]. apply Z.leb_le. vm_compute. reflexivity. }
  split; [split; [exact H1 | exact H2]|].
  exact (generate_from_content_within_target html5_core title_and_body
           title_and_body one_section_content [] H1 H2).
Defined.

Lemma distribute_content_full_slides_witness :
  (nth_error
     (_distribute_content html5_core (L "Cell Biology")
        (repeat (L "A bullet of thirty characters.") 12) (Some 3%Z)) 0
   = Some (L "Cell Biology (Part 1/3)",
           repeat (L "A bullet of thirty characters.") 4)
   /\ 1 < length
            (_distribute_content html5_core (L "Cell Biology")
               (repeat (L "A bullet of thirty characters.") 12)
               (Some 3%Z)))
  /\ length (snd (L "Cell Biology (Part 1/3)",
                  repeat (L "A bullet of thirty characters.") 4))
     = points_per_slide (Some 3%Z)
         (length (processed_content html5_core
                    (repeat (L "A bullet of thirty characters.") 12))).
Proof.
  assert (H1 : nth_error
                 (_distribute_content html5_core (L "Cell Biology")
                    (repeat (L "A bullet of thirty characters.") 12)
                    (Some 3%Z)) 0
               = Some (L "Cell Biology (Part 1/3)",
                       repeat (L "A bullet of thirty characters.") 4)).
  { vm_compute. reflexivity. }
  assert (H2 : 1 < length
                     (_distribute_content html5_core (L "Cell Biology")
                        (repeat (L "A bullet of thirty characters.") 12)
                        (Some 3%Z))).
  { vm_compute. lia. }
  split; [split; [exact H1 | exact H2]|].
  exact (distribute_content_full_slides html5_core (L "Cell Biology")
           (repeat (L "A bullet of thirty characters.") 12) (Some 3%Z) 0
           (L "Cell Biology (Part 1/3)",
            repeat (L "A bullet of thirty characters.") 4) H1 H2).
Defined.
